(** * Disaster-event dashboard: deduplication, sanitisation, clustering, risk

    A shallow embedding of the data pipeline of the dashboard script
    ([loadDisasterData], [updateStats], [checkRiskAlerts]) and the proofs
    of its specification's testable properties.  The last part adds the
    rest of the data path of the script (the time slider, the filters, the
    sorting of the table, the rows, the markers, the time of the last
    update) and properties of it that the code itself shows.

    The script embedded is the current one, whose loader derives
    [hasValidCoords].  The repository keeps an earlier copy under [docs/]:
    its deduplication, clustering and risk filter are the same code, its
    preprocessing is not, and is embedded apart in the module [Docs].

    Conventions of the embedding

    - A JavaScript string is a [string]; a character stands for one code
      unit, and the code units considered are those below 256.
    - A JavaScript Number is a binary64 [float]; arithmetic, comparison and
      [Math.sqrt] are the primitive operations.  [Math.pow (x, 2)] is the
      rounded square [x * x].
    - A [Date] is its time value: [Some t] for [t] milliseconds since the
      epoch, [None] for an Invalid Date.  What [new Date (s)] accepts for a
      string [s] is left to the host, see [Date_parse] below.  The clock is
      read once per load.
    - The JSON fields of an event that the script treats as text are a
      string, [null] or absent; a coordinate may also be a JSON number.
    - A [Map] is an association list in insertion order, a [Set] of keys
      the list of the keys added so far. *)

From Stdlib Require Import Bool Arith ZArith List String Ascii Lia Floats.
From Stdlib Require DecimalString.
Import ListNotations.

Local Open Scope string_scope.
Local Open Scope list_scope.
Local Open Scope nat_scope.

(** ** Strings *)

Module JsString.

Definition code (c : ascii) : nat := nat_of_ascii c.

(** [WhiteSpace] and [LineTerminator] code units below 256: TAB, LF, VT,
    FF, CR, SP and NBSP.  This is what [trim] strips and what the class
    [\s] matches. *)
Definition isWhiteSpace (c : ascii) : bool :=
  let n := code c in
  ((9 <=? n) && (n <=? 13)) || (n =? 32) || (n =? 160).

(** The class [\w]: ASCII letters, digits and the underscore. *)
Definition isWordChar (c : ascii) : bool :=
  let n := code c in
  ((48 <=? n) && (n <=? 57)) || ((65 <=? n) && (n <=? 90))
  || (n =? 95) || ((97 <=? n) && (n <=? 122)).

Definition isDigit (c : ascii) : bool :=
  let n := code c in (48 <=? n) && (n <=? 57).

Fixpoint trimStart (s : string) : string :=
  match s with
  | String c r => if isWhiteSpace c then trimStart r else s
  | EmptyString => EmptyString
  end.

Fixpoint allWhiteSpace (s : string) : bool :=
  match s with
  | String c r => isWhiteSpace c && allWhiteSpace r
  | EmptyString => true
  end.

Fixpoint trimEnd (s : string) : string :=
  match s with
  | String c r => if allWhiteSpace s then EmptyString else String c (trimEnd r)
  | EmptyString => EmptyString
  end.

Definition trim (s : string) : string := trimEnd (trimStart s).

Definition lowerChar (c : ascii) : ascii :=
  let n := code c in
  if ((65 <=? n) && (n <=? 90))
     || ((192 <=? n) && (n <=? 222) && negb (n =? 215))
  then ascii_of_nat (n + 32) else c.

Fixpoint toLowerCase (s : string) : string :=
  match s with
  | String c r => String (lowerChar c) (toLowerCase r)
  | EmptyString => EmptyString
  end.

(** [s.replace (/[^\w\s]/g, '')] *)
Fixpoint stripNonWordNonSpace (s : string) : string :=
  match s with
  | String c r =>
      if isWordChar c || isWhiteSpace c
      then String c (stripNonWordNonSpace r)
      else stripNonWordNonSpace r
  | EmptyString => EmptyString
  end.

(** [s.replace (/\s+/g, ' ')]: every maximal run of white space becomes
    one space.  [inRun] tells that the preceding code unit was white
    space, whose run has already been replaced. *)
Fixpoint collapseFrom (inRun : bool) (s : string) : string :=
  match s with
  | String c r =>
      if isWhiteSpace c
      then if inRun then collapseFrom true r
           else String " " (collapseFrom true r)
      else String c (collapseFrom false r)
  | EmptyString => EmptyString
  end.

Definition collapseSpaces (s : string) : string := collapseFrom false s.

(** [s.includes (p)] *)
Fixpoint includes (p s : string) : bool :=
  prefix p s
  || match s with
     | String _ r => includes p r
     | EmptyString => false
     end.

Fixpoint drop (n : nat) (s : string) : string :=
  match n, s with
  | S k, String _ r => drop k r
  | _, _ => s
  end.

(** [s.replace (p, q)] with a string pattern: the first occurrence only. *)
Fixpoint replaceFirst (p q s : string) : string :=
  if prefix p s then (q ++ drop (String.length p) s)%string
  else match s with
       | String c r => String c (replaceFirst p q r)
       | EmptyString => EmptyString
       end.

(** A string is truthy when it is not empty. *)
Definition nonEmpty (s : string) : bool :=
  match s with EmptyString => false | String _ _ => true end.

End JsString.

(** ** Numbers *)

Module JsNumber.

Import JsString.
Local Open Scope Z_scope.

(** The Number nearest to an integer (ties to even). *)
Definition ofZ (z : Z) : float :=
  SF2Prim (binary_normalize prec emax z 0 false).

(** The Number nearest to [(-1)^neg * m * 10^e] for [0 <= m]. *)
Definition ofDecimal (neg : bool) (m e : Z) : float :=
  match m with
  | Zpos _ =>
      if 0 <=? e
      then SF2Prim (binary_normalize prec emax
                      ((if neg then - m else m) * 10 ^ e) 0 false)
      else
        let '(mz, ez, lz) :=
          SFdiv_core_binary prec emax m 0 (10 ^ (- e)) 0 in
        SF2Prim (binary_round_aux prec emax neg mz ez lz)
  | _ => if neg then neg_zero else zero
  end.

(** The exact value [m * 2^e] of a finite, non-zero Number and its sign. *)
Definition exactValue (x : float) : option (bool * positive * Z) :=
  match Prim2SF x with
  | S754_finite s m e => Some (s, m, e)
  | _ => None
  end.

Definition digitValue (c : ascii) : Z := Z.of_nat (code c) - 48.

(** The longest prefix of decimal digits, read as a number, with its
    length and the rest of the string. *)
Fixpoint readDigits (acc : Z) (len : nat) (s : string) : Z * nat * string :=
  match s with
  | String c r =>
      if isDigit c then readDigits (10 * acc + digitValue c) (S len) r
      else (acc, len, s)
  | EmptyString => (acc, len, s)
  end.

Definition readSign (s : string) : bool * string :=
  match s with
  | String "+" r => (false, r)
  | String "-" r => (true, r)
  | _ => (false, s)
  end.

(** [ExponentPart], when one starts the string: [e] or [E], an optional
    sign and at least one digit. *)
Definition readExponent (s : string) : Z :=
  match s with
  | String c r =>
      if (Ascii.eqb c "e" || Ascii.eqb c "E")%bool
      then
        let '(neg, r1) := readSign r in
        let '(v, len, _) := readDigits 0 0%nat r1 in
        match len with
        | O => 0
        | S _ => if neg then - v else v
        end
      else 0
  | EmptyString => 0
  end.

(** [parseFloat (s)] for a string: leading white space is skipped and the
    longest prefix that is a [StrDecimalLiteral] is read; [NaN] when
    there is none. *)
Definition parseFloatString (s : string) : float :=
  let '(neg, t) := readSign (trimStart s) in
  if prefix "Infinity" t
  then if neg then neg_infinity else infinity
  else
    let '(ip, ilen, t1) := readDigits 0 0%nat t in
    let '(m, flen, t2) :=
      match t1 with
      | String "." r => readDigits ip 0%nat r
      | _ => (ip, 0%nat, t1)
      end in
    match ilen, flen with
    | O, O => nan
    | _, _ => ofDecimal neg m (readExponent t2 - Z.of_nat flen)
    end.

(** [parseFloat (x)] for a Number [x] reads [String (x)] back: [x] itself,
    but for [-0], whose string is ["0"]. *)
Definition parseFloatNumber (x : float) : float :=
  if is_zero x then zero else x.

Definition isNaN (x : float) : bool := is_nan x.

(** [x !== 0] on Numbers. *)
Definition nonZero (x : float) : bool := negb (x =? 0)%float.

(** A Number is truthy unless it is [0], [-0] or [NaN]. *)
Definition truthy (x : float) : bool := negb (is_zero x || is_nan x).

Definition showNat (n : Z) : string :=
  DecimalString.NilZero.string_of_uint (N.to_uint (Z.to_N n)).

(** *** [Number.prototype.toString] and [toFixed] *)

(** A candidate [(s, j)] stands for the decimal [s * 10^j]. *)
Definition candidates (X D k : Z) : list (Z * Z) :=
  flat_map
    (fun j =>
       flat_map
         (fun s =>
            if (10 ^ (k - 1) <=? s) && (s <? 10 ^ k)
               && (ofZ (s * 10 ^ j) =? ofZ X)%float
            then [(s, j)] else [])
         [X / 10 ^ j; X / 10 ^ j + 1])
    [D - k - 1; D - k; D - k + 1].

Definition closer (X : Z) (a b : Z * Z) : Z * Z :=
  let da := Z.abs (fst a * 10 ^ snd a - X) in
  let db := Z.abs (fst b * 10 ^ snd b - X) in
  if db <? da then b
  else if (db =? da) && Z.even (fst b) && negb (Z.even (fst a)) then b
  else a.

(** The shortest digit string [s] (of [k] digits) with a decimal exponent
    [j] such that [s * 10^j] reads back as [X]; the closest to [X] among
    the shortest, an even [s] on a tie. *)
Fixpoint shortest (fuel : nat) (X D k : Z) : Z * Z :=
  match fuel with
  | O => (X, 0)
  | S fuel' =>
      match candidates X D k with
      | c :: cs => fold_left (closer X) cs c
      | [] => shortest fuel' X D (k + 1)
      end
  end.

(** [String (x)] for a Number [x >= 1e21] whose exact value is the
    integer [X]: exponential notation. *)
Definition toStringLarge (X : Z) : string :=
  let D := Z.of_nat (String.length (showNat X)) in
  let '(s, j) := shortest (Z.to_nat D) X D 1 in
  let digits := showNat s in
  let n := Z.of_nat (String.length digits) + j in
  match digits with
  | String d EmptyString => String d ("e+" ++ showNat (n - 1))
  | String d rest => String d ("." ++ rest ++ "e+" ++ showNat (n - 1))
  | EmptyString => EmptyString
  end.

Fixpoint zeros (n : nat) : string :=
  match n with
  | O => EmptyString
  | S k => String "0" (zeros k)
  end.

(** The digits of [n] with a point before the last [f] of them, [f > 0]. *)
Definition fixedDigits (f : nat) (n : Z) : string :=
  let m := showNat n in
  let k := String.length m in
  let m := if (k <=? f)%nat then (zeros (f + 1 - k) ++ m)%string else m in
  let k := String.length m in
  (substring 0 (k - f) m ++ "." ++ substring (k - f) f m)%string.

(** The integer [n] nearest to [m * 2^e * 10^f], the larger one on a tie. *)
Definition scaledHalfUp (f : nat) (m e : Z) : Z :=
  if 0 <=? e then m * 2 ^ e * 10 ^ Z.of_nat f
  else (2 * m * 10 ^ Z.of_nat f + 2 ^ (- e)) / 2 ^ (- e + 1).

(** [x.toFixed (f)] for [0 < f <= 100]. *)
Definition toFixed (f : nat) (x : float) : string :=
  if is_nan x then "NaN"
  else if is_infinity x
  then if get_sign x then "-Infinity" else "Infinity"
  else
    match exactValue x with
    | Some (neg, m, e) =>
        String.append
          (if neg then "-" else "")
          (if (0 <=? e) && (10 ^ 21 <=? Zpos m * 2 ^ e)
           then toStringLarge (Zpos m * 2 ^ e)
           else fixedDigits f (scaledHalfUp f (Zpos m) e))
    | None => fixedDigits f 0
    end.

End JsNumber.

(** ** Events *)

(** A JSON field read as text: absent ([undefined]), [null] or a string. *)
Inductive text : Type :=
| Absent
| Null
| Text (s : string).

(** A JSON coordinate: absent, [null], a string or a number. *)
Inductive coord : Type :=
| CAbsent
| CNull
| CText (s : string)
| CNumber (x : float).

(** [v || ''] *)
Definition orEmpty (v : text) : string :=
  match v with
  | Text s => s
  | _ => EmptyString
  end.

(** An event as the data files hold it. *)
Module Raw.

Record t : Type := mk {
  event_id : text;
  event_title : text;
  event_category : text;
  event_date_utc : text;
  latitude : coord;
  longitude : coord;
  address : text;
  event_url : text;
  data_source : text;
  crawled_at : text
}.

End Raw.

(** A preprocessed event: [{...event, latitude, longitude, event_date,
    hasValidCoords}].  The fields of [raw] are the spread ones; its two
    coordinates are shadowed by the parsed ones and never read again. *)
Module Event.

Record t : Type := mk {
  raw : Raw.t;
  latitude : float;
  longitude : float;
  event_date : Z;
  hasValidCoords : bool
}.

Definition event_id (e : t) : text := Raw.event_id (raw e).
Definition event_title (e : t) : text := Raw.event_title (raw e).
Definition event_category (e : t) : text := Raw.event_category (raw e).
Definition event_date_utc (e : t) : text := Raw.event_date_utc (raw e).
Definition crawled_at (e : t) : text := Raw.crawled_at (raw e).

End Event.

(** ** Dates *)

(** The time value of a [Date]; [None] is an Invalid Date. *)
Definition Date : Type := option Z.

(** [a > b] on dates compares the time values, and is false when one of
    them is [NaN]. *)
Definition Date_gt (a b : Date) : bool :=
  match a, b with
  | Some x, Some y => (y <? x)%Z
  | _, _ => false
  end.

(** ** The loader: merge, deduplicate, preprocess *)

Section Loader.

(** [new Date (s)] for a string [s], as the host parses it. *)
Variable Date_parse : string -> Date.

(** [new Date (v)] *)
Definition newDate (v : text) : Date :=
  match v with
  | Absent => None
  | Null => Some 0%Z
  | Text s => Date_parse s
  end.

(** [new Date (v || 0)] *)
Definition newDateOrEpoch (v : text) : Date :=
  match v with
  | Text s => if JsString.nonEmpty s then Date_parse s else Some 0%Z
  | _ => Some 0%Z
  end.

(** *** Identity pass *)

(** The [Map] from identifiers to events, in insertion order. *)
Definition EventMap : Type := list (string * Raw.t).

Fixpoint Map_get (k : string) (m : EventMap) : option Raw.t :=
  match m with
  | (k', v) :: rest => if String.eqb k k' then Some v else Map_get k rest
  | [] => None
  end.

(** [m.set (k, v)]: a present key keeps its place and takes the new value,
    a new key goes last. *)
Fixpoint Map_set (k : string) (v : Raw.t) (m : EventMap) : EventMap :=
  match m with
  | (k', v') :: rest =>
      if String.eqb k k' then (k', v) :: rest
      else (k', v') :: Map_set k v rest
  | [] => [(k, v)]
  end.

Definition Map_values (m : EventMap) : list Raw.t := map snd m.

(** [eventId && eventId.trim() !== ''], giving the identifier. *)
Definition usableId (v : text) : option string :=
  match v with
  | Text s =>
      if JsString.nonEmpty s && JsString.nonEmpty (JsString.trim s)
      then Some s else None
  | _ => None
  end.

(** The body of [allEvents.forEach]. *)
Definition identityStep (m : EventMap) (event : Raw.t) : EventMap :=
  match usableId (Raw.event_id event) with
  | Some eventId =>
      match Map_get eventId m with
      | None => Map_set eventId event m
      | Some existing =>
          if Date_gt (newDateOrEpoch (Raw.crawled_at event))
                     (newDateOrEpoch (Raw.crawled_at existing))
          then Map_set eventId event m
          else m
      end
  | None => m
  end.

Definition identityPass (allEvents : list Raw.t) : EventMap :=
  fold_left identityStep allEvents [].

(** *** Content pass *)

(** [(event.event_title || '').trim().toLowerCase()
      .replace(/[^\w\s]/g, '').replace(/\s+/g, ' ')] *)
Definition normalizedTitle (event : Raw.t) : string :=
  JsString.collapseSpaces
    (JsString.stripNonWordNonSpace
       (JsString.toLowerCase
          (JsString.trim (orEmpty (Raw.event_title event))))).

(** [(event.event_date_utc || '').substring(0, 10)] *)
Definition dateBucket (event : Raw.t) : string :=
  substring 0 10 (orEmpty (Raw.event_date_utc event)).

(** [parseFloat (c || 0)] *)
Definition parseFloatOrZero (c : coord) : float :=
  match c with
  | CText s =>
      if JsString.nonEmpty s then JsNumber.parseFloatString s else zero
  | CNumber x =>
      if JsNumber.truthy x then JsNumber.parseFloatNumber x else zero
  | _ => zero
  end.

(** [parseFloat (c || 0).toFixed (4)] *)
Definition coordBucket (c : coord) : string :=
  JsNumber.toFixed 4 (parseFloatOrZero c).

(** [`${title}|${date}|${lat}|${lon}`] *)
Definition contentKey (event : Raw.t) : string :=
  (normalizedTitle event ++ "|" ++ dateBucket event ++ "|"
   ++ coordBucket (Raw.latitude event) ++ "|"
   ++ coordBucket (Raw.longitude event))%string.

Definition Set_has (k : string) (seen : list string) : bool :=
  existsb (String.eqb k) seen.

(** The body of the loop over [eventMap.values()]; the state is
    [seenKeys] and [deduped]. *)
Definition contentStep (st : list string * list Raw.t) (event : Raw.t)
  : list string * list Raw.t :=
  let '(seenKeys, deduped) := st in
  let title := normalizedTitle event in
  let key := contentKey event in
  if negb (Set_has key seenKeys) && JsString.nonEmpty title
  then (key :: seenKeys, deduped ++ [event])
  else (seenKeys, deduped).

Definition contentPass (events : list Raw.t) : list Raw.t :=
  snd (fold_left contentStep events ([], [])).

(** The two passes in sequence. *)
Definition deduplicate (allEvents : list Raw.t) : list Raw.t :=
  contentPass (Map_values (identityPass allEvents)).

(** *** Preprocessing *)

(** The parsed coordinate: [0] when the field is absent, [null], empty
    or does not parse. *)
Definition sanitizeCoord (c : coord) : float :=
  match c with
  | CAbsent | CNull => zero
  | CText s =>
      if JsString.nonEmpty s
      then let x := JsNumber.parseFloatString s in
           if JsNumber.isNaN x then zero else x
      else zero
  | CNumber x =>
      let y := JsNumber.parseFloatNumber x in
      if JsNumber.isNaN y then zero else y
  end.

(** The date string after the repair of a doubled UTC marker. *)
Definition repairDate (v : text) : text :=
  match v with
  | Text s =>
      if JsString.nonEmpty s && JsString.includes "+00:00Z" s
      then Text (JsString.replaceFirst "+00:00Z" "Z" s)
      else v
  | _ => v
  end.

Definition parsedDate (event : Raw.t) : Date :=
  newDate (repairDate (Raw.event_date_utc event)).

(** The callback of [deduped.map]; [now] is the clock at that moment.
    With fields of the types above no step of the callback throws, so its
    [catch], which would give [null], is not reached. *)
Definition sanitize (now : Z) (event : Raw.t) : Event.t :=
  let lat := sanitizeCoord (Raw.latitude event) in
  let lon := sanitizeCoord (Raw.longitude event) in
  let eventDate := parsedDate event in
  {| Event.raw := event;
     Event.latitude := lat;
     Event.longitude := lon;
     Event.event_date :=
       match eventDate with
       | None => now
       | Some t => t
       end;
     Event.hasValidCoords :=
       JsNumber.nonZero lat && JsNumber.nonZero lon
       && negb (JsNumber.isNaN lat) && negb (JsNumber.isNaN lon) |}.

(** [v && v.trim() !== ''] *)
Definition nonBlank (v : text) : bool :=
  match v with
  | Text s => JsString.nonEmpty s && JsString.nonEmpty (JsString.trim s)
  | _ => false
  end.

(** The callback of the final [filter]. *)
Definition isValidEvent (event : Event.t) : bool :=
  nonBlank (Event.event_title event).

Definition preprocess (now : Z) (deduped : list Raw.t) : list Event.t :=
  filter isValidEvent (map (sanitize now) deduped).

(** [events.sort ((a, b) => a.event_date - b.event_date)]: a stable sort
    by time value.  The events are inserted from the last to the first,
    each before the events already placed that are not earlier. *)
Fixpoint insertByDate (e : Event.t) (sorted : list Event.t) : list Event.t :=
  match sorted with
  | x :: rest =>
      if (Event.event_date e <=? Event.event_date x)%Z
      then e :: sorted
      else x :: insertByDate e rest
  | [] => [e]
  end.

Definition sortByDate (events : list Event.t) : list Event.t :=
  fold_right insertByDate [] events.

(** The events [loadDisasterData] leaves in [disasterEvents], from the
    two arrays it fetched. *)
Definition loadDisasterData (now : Z) (pastData mainData : list Raw.t)
  : list Event.t :=
  sortByDate (preprocess now (deduplicate (pastData ++ mainData))).

End Loader.

(** ** Geographic clustering and risk detection *)

(** A cluster: its members in the order they joined.  The risk pass also
    records the coordinates of the first member, which are not read
    afterwards. *)
Record Cluster : Type := mkCluster {
  events : list Event.t;
  centerLat : option float;
  centerLng : option float
}.

Section Clustering.

Local Open Scope float_scope.

(** [evs.reduce ((sum, e) => sum + f (e), 0) / evs.length] *)
Definition mean (f : Event.t -> float) (evs : list Event.t) : float :=
  fold_left (fun sum e => sum + f e) evs 0
  / JsNumber.ofZ (Z.of_nat (List.length evs)).

(** [Math.pow (x, 2)] *)
Definition Math_pow2 (x : float) : float := x * x.

(** The distance, in degrees, from an event to the mean position of the
    members of a cluster. *)
Definition distance (event : Event.t) (cluster : Cluster) : float :=
  let centerLat := mean Event.latitude (events cluster) in
  let centerLng := mean Event.longitude (events cluster) in
  sqrt (Math_pow2 (Event.latitude event - centerLat)
        + Math_pow2 (Event.longitude event - centerLng)).

Definition push (event : Event.t) (cluster : Cluster) : Cluster :=
  {| events := events cluster ++ [event];
     centerLat := centerLat cluster;
     centerLng := centerLng cluster |}.

(** The loop over the clusters: the event joins the first cluster within
    the radius; [None] when there is none. *)
Fixpoint addToCluster (radius : float) (event : Event.t)
         (clusters : list Cluster) : option (list Cluster) :=
  match clusters with
  | cluster :: rest =>
      if distance event cluster <=? radius
      then Some (push event cluster :: rest)
      else option_map (cons cluster) (addToCluster radius event rest)
  | [] => None
  end.

Definition newCluster (withCenter : bool) (event : Event.t) : Cluster :=
  {| events := [event];
     centerLat := if withCenter then Some (Event.latitude event) else None;
     centerLng := if withCenter then Some (Event.longitude event) else None |}.

(** The body of [forEach] over the events. *)
Definition clusterStep (radius : float) (withCenter : bool)
           (clusters : list Cluster) (event : Event.t) : list Cluster :=
  match addToCluster radius event clusters with
  | Some clusters' => clusters'
  | None => clusters ++ [newCluster withCenter event]
  end.

Definition clusterEvents (radius : float) (withCenter : bool)
           (evs : list Event.t) : list Cluster :=
  fold_left (clusterStep radius withCenter) evs [].

(** [CLUSTER_RADIUS] in [updateStats], about 111 km, and in
    [checkRiskAlerts], about 55 km. *)
Definition CLUSTER_RADIUS_stats : float := 1.
Definition CLUSTER_RADIUS_risk : float := 0.5.

(** The clusters of [updateStats], over the displayed events. *)
Definition statsClusters (filteredData : list Event.t) : list Cluster :=
  clusterEvents CLUSTER_RADIUS_stats false filteredData.

(** The events of the last thirty days and their clusters, in
    [checkRiskAlerts]; [thirtyDaysAgo] is the time value of that date. *)
Definition recentEvents (thirtyDaysAgo : Z) (filteredData : list Event.t)
  : list Event.t :=
  filter (fun e => (thirtyDaysAgo <=? Event.event_date e)%Z) filteredData.

Definition riskPassClusters (thirtyDaysAgo : Z)
           (filteredData : list Event.t) : list Cluster :=
  clusterEvents CLUSTER_RADIUS_risk true
                (recentEvents thirtyDaysAgo filteredData).

End Clustering.

Section Risk.

Variable Date_parse : string -> Date.

(** [new Date (event.event_date_utc || event.crawled_at)] *)
Definition riskEventDate (event : Event.t) : Date :=
  match Event.event_date_utc event with
  | Text s =>
      if JsString.nonEmpty s then Date_parse s
      else newDate Date_parse (Event.crawled_at event)
  | _ => newDate Date_parse (Event.crawled_at event)
  end.

(** [(now - eventDate) / (1000 * 60 * 60 * 24)] *)
Definition daysDiff (now : Z) (eventDate : Date) : float :=
  match eventDate with
  | Some t => (JsNumber.ofZ (now - t) / 86400000)%float
  | None => nan
  end.

(** The callback of the inner [filter]: the event is at most seven days
    old. *)
Definition inRecentWeek (now : Z) (event : Event.t) : bool :=
  (daysDiff now (riskEventDate event) <=? 7)%float.

Definition recentWeek (now : Z) (cluster : Cluster) : list Event.t :=
  filter (inRecentWeek now) (events cluster).

(** The callback of [clusters.filter]. *)
Definition isRiskCluster (now : Z) (cluster : Cluster) : bool :=
  (30 <=? List.length (events cluster))
  && (5 <=? List.length (recentWeek now cluster)).

Definition riskClusters (now thirtyDaysAgo : Z)
           (filteredData : list Event.t) : list Cluster :=
  filter (isRiskCluster now) (riskPassClusters thirtyDaysAgo filteredData).

End Risk.

(** ** A host for the examples *)

(** A [Date_parse] that reads the date-time format of the ECMAScript
    standard in UTC, [YYYY-MM-DD], [YYYY-MM-DDTHH:mm:ssZ] and
    [YYYY-MM-DDTHH:mm:ss.sssZ], and nothing else.  The theorems below hold
    for every host; this one evaluates the examples. *)
Module IsoHost.

Local Open Scope Z_scope.

(** The number written by the [len] digits at [pos]. *)
Definition digitsAt (pos len : nat) (s : string) : option Z :=
  let '(v, n, rest) := JsNumber.readDigits 0 0%nat (substring pos len s) in
  if (n =? len)%nat && negb (JsString.nonEmpty rest) then Some v else None.

Definition charAt (pos : nat) (c : ascii) (s : string) : bool :=
  match String.get pos s with
  | Some c' => Ascii.eqb c c'
  | None => false
  end.

Definition isLeap (y : Z) : bool :=
  ((y mod 4 =? 0) && negb (y mod 100 =? 0)) || (y mod 400 =? 0).

Definition daysInMonth (y m : Z) : Z :=
  if m =? 2 then (if isLeap y then 29 else 28)
  else if (m =? 4) || (m =? 6) || (m =? 9) || (m =? 11) then 30
  else 31.

(** Days from 1970-01-01 to the civil date [y-m-d]. *)
Definition daysFromCivil (y m d : Z) : Z :=
  let y' := if m <=? 2 then y - 1 else y in
  let era := y' / 400 in
  let yoe := y' - era * 400 in
  let doy := (153 * (if 2 <? m then m - 3 else m + 9) + 2) / 5 + d - 1 in
  let doe := yoe * 365 + yoe / 4 - yoe / 100 + doy in
  era * 146097 + doe - 719468.

Definition dayOf (s : string) : option Z :=
  match digitsAt 0 4 s, digitsAt 5 2 s, digitsAt 8 2 s with
  | Some y, Some m, Some d =>
      if charAt 4 "-" s && charAt 7 "-" s
         && (1 <=? m) && (m <=? 12) && (1 <=? d) && (d <=? daysInMonth y m)
      then Some (daysFromCivil y m d) else None
  | _, _, _ => None
  end.

Definition secondOf (s : string) : option Z :=
  match digitsAt 11 2 s, digitsAt 14 2 s, digitsAt 17 2 s with
  | Some h, Some mi, Some sec =>
      if charAt 10 "T" s && charAt 13 ":" s && charAt 16 ":" s
         && (h <=? 23) && (mi <=? 59) && (sec <=? 59)
      then Some (h * 3600 + mi * 60 + sec) else None
  | _, _, _ => None
  end.

Definition Date_parse (s : string) : Date :=
  match String.length s, dayOf s, secondOf s with
  | 10%nat, Some day, _ => Some (day * 86400000)
  | 20%nat, Some day, Some sec =>
      if charAt 19 "Z" s then Some (day * 86400000 + sec * 1000) else None
  | 24%nat, Some day, Some sec =>
      match digitsAt 20 3 s with
      | Some ms =>
          if charAt 19 "." s && charAt 23 "Z" s
          then Some (day * 86400000 + sec * 1000 + ms) else None
      | None => None
      end
  | _, _, _ => None
  end.

End IsoHost.

(** ** The earlier loader kept under [docs/]

    Its two deduplication passes, its clustering and its risk filter are
    those above.  Its preprocessing differs: the coordinates are parsed as
    they are and an event is kept when both are numbers; there is no
    [hasValidCoords], and the title is not looked at. *)
Module Docs.

Record t : Type := mk {
  raw : Raw.t;
  latitude : float;
  longitude : float;
  event_date : Date
}.

(** [parseFloat (c)] on a field as it is: [null] and an absent field read
    as the strings ["null"] and ["undefined"]. *)
Definition parseFloatField (c : coord) : float :=
  match c with
  | CText s => JsNumber.parseFloatString s
  | CNumber x => JsNumber.parseFloatNumber x
  | CNull => JsNumber.parseFloatString "null"
  | CAbsent => JsNumber.parseFloatString "undefined"
  end.

Definition convert (Date_parse : string -> Date) (event : Raw.t) : t :=
  {| raw := event;
     latitude := parseFloatField (Raw.latitude event);
     longitude := parseFloatField (Raw.longitude event);
     event_date := newDate Date_parse (Raw.event_date_utc event) |}.

Definition preprocess (Date_parse : string -> Date) (deduped : list Raw.t)
  : list t :=
  filter (fun e => negb (JsNumber.isNaN (latitude e))
                   && negb (JsNumber.isNaN (longitude e)))
         (map (convert Date_parse) deduped).

End Docs.

(** ** The loader of the test data *)

Module TestData.

(** An event as [loadTestData] leaves it: the date can be an invalid one,
    and [hasValidCoords] holds the value of a chain of [&&], of which the
    script reads the truth only. *)
Record t : Type := mk {
  raw : Raw.t;
  latitude : float;
  longitude : float;
  event_date : Date;
  hasValidCoords : bool
}.

(** Whether a coordinate field is truthy. *)
Definition truthyCoord (c : coord) : bool :=
  match c with
  | CText s => JsString.nonEmpty s
  | CNumber x => JsNumber.truthy x
  | _ => false
  end.

(** [parseFloat (c) || 0] *)
Definition parseFloatElseZero (c : coord) : float :=
  let x := Docs.parseFloatField c in
  if JsNumber.truthy x then x else zero.

Definition convert (Date_parse : string -> Date) (event : Raw.t) : t :=
  {| raw := event;
     latitude := parseFloatElseZero (Raw.latitude event);
     longitude := parseFloatElseZero (Raw.longitude event);
     event_date := newDate Date_parse (Raw.event_date_utc event);
     hasValidCoords :=
       truthyCoord (Raw.latitude event) && truthyCoord (Raw.longitude event) |}.

Definition loadTestData (Date_parse : string -> Date) (testData : list Raw.t)
  : list t :=
  map (convert Date_parse) testData.

End TestData.

(** ** The first version of the script *)

Module FirstVersion.

(** [clusters.filter (cluster => cluster.events.length >= 5)], on the
    clusters of the same pass over the events of the last thirty days.
    (The callback that selects these events reads the clock for each of
    them; as everywhere, the clock stands still during a call.) *)
Definition isRiskCluster (cluster : Cluster) : bool :=
  5 <=? List.length (events cluster).

Definition riskClusters (thirtyDaysAgo : Z) (filteredData : list Event.t)
  : list Cluster :=
  filter isRiskCluster (riskPassClusters thirtyDaysAgo filteredData).

End FirstVersion.

(** ** What the specification says, as definitions *)

(** A string is blank when it is empty or holds white space only. *)
Definition blank (s : string) : bool := JsString.allWhiteSpace s.

(** A coordinate field that gives no number: absent, [null], empty, or
    not read as a number by [parseFloat]. *)
Definition unusableCoord (c : coord) : bool :=
  match c with
  | CAbsent | CNull => true
  | CText s =>
      negb (JsString.nonEmpty s) || JsNumber.isNaN (JsNumber.parseFloatString s)
  | CNumber x => JsNumber.isNaN x
  end.

(** The number a usable coordinate field is read as. *)
Definition coordValue (c : coord) : float :=
  match c with
  | CText s => JsNumber.parseFloatString s
  | CNumber x => JsNumber.parseFloatNumber x
  | _ => zero
  end.

(** The content pass as the specification words it: going through the
    records in order, a record is kept when its normalized title is not
    empty and no record met before it has its content key. *)
Fixpoint firstSeen (earlier events : list Raw.t) : list Raw.t :=
  match events with
  | event :: rest =>
      if JsString.nonEmpty (normalizedTitle event)
         && negb (existsb (fun e => String.eqb (contentKey e) (contentKey event))
                          earlier)
      then event :: firstSeen (event :: earlier) rest
      else firstSeen (event :: earlier) rest
  | [] => []
  end.

(** The records of a list that carry the identifier [id]. *)
Definition hasId (id : string) (event : Raw.t) : bool :=
  match Raw.event_id event with
  | Text s => String.eqb s id
  | _ => false
  end.

Definition withId (id : string) (events : list Raw.t) : list Raw.t :=
  filter (hasId id) events.

(** The identifier under which the identity pass files an event. *)
Definition idKey (event : Raw.t) : string := orEmpty (Raw.event_id event).

(** Every entry of the map is filed under the identifier of its event, and
    that identifier passed the guard. *)
Definition keyed (m : EventMap) : Prop :=
  forall k v, In (k, v) m -> usableId (Raw.event_id v) = Some k.

(** The content pass as a recursion on the remaining records; [seen] are
    the keys of the records kept so far. *)
Fixpoint contentLoop (seen : list string) (events : list Raw.t) : list Raw.t :=
  match events with
  | event :: rest =>
      if negb (Set_has (contentKey event) seen)
         && JsString.nonEmpty (normalizedTitle event)
      then event :: contentLoop (contentKey event :: seen) rest
      else contentLoop seen rest
  | [] => []
  end.

(** Every code unit of a string satisfies [P]. *)
Fixpoint allChars (P : ascii -> bool) (s : string) : bool :=
  match s with
  | String c r => P c && allChars P r
  | EmptyString => true
  end.

Definition wordOrSpace (c : ascii) : bool :=
  JsString.isWordChar c || JsString.isWhiteSpace c.

Section Champion.

Variable Date_parse : string -> Date.

(** The capture time the identity pass compares. *)
Definition captureTime (event : Raw.t) : Date :=
  newDateOrEpoch Date_parse (Raw.crawled_at event).

(** What one more event does to the entry of the identifier [id]. *)
Definition contest (id : string) (cur : option Raw.t) (event : Raw.t)
  : option Raw.t :=
  if hasId id event
  then match cur with
       | None => Some event
       | Some existing =>
           if Date_gt (captureTime event) (captureTime existing)
           then Some event else cur
       end
  else cur.

Definition champion (id : string) (cur : option Raw.t) (events : list Raw.t)
  : option Raw.t :=
  fold_left (contest id) events cur.

(** [w] is, among the records of [events] with the identifier [id], the
    first one with the latest capture time. *)
Definition firstLatest (id : string) (events : list Raw.t) (w : Raw.t) : Prop :=
  exists before after tw,
    events = before ++ w :: after
    /\ hasId id w = true
    /\ captureTime w = Some tw
    /\ (forall e, In e before -> hasId id e = true ->
                  exists t, captureTime e = Some t /\ (t < tw)%Z)
    /\ (forall e, In e after -> hasId id e = true ->
                  exists t, captureTime e = Some t /\ (t <= tw)%Z).

End Champion.

(** All the members of a list of clusters. *)
Definition members (clusters : list Cluster) : list Event.t :=
  flat_map events clusters.

(** A record with another category. *)
Definition withCategory (category : text) (event : Raw.t) : Raw.t :=
  {| Raw.event_id := Raw.event_id event;
     Raw.event_title := Raw.event_title event;
     Raw.event_category := category;
     Raw.event_date_utc := Raw.event_date_utc event;
     Raw.latitude := Raw.latitude event;
     Raw.longitude := Raw.longitude event;
     Raw.address := Raw.address event;
     Raw.event_url := Raw.event_url event;
     Raw.data_source := Raw.data_source event;
     Raw.crawled_at := Raw.crawled_at event |}.

(** ** Sample records *)

Module Sample.

(** A record of the feed with the given identifier, title, category, date,
    coordinates and capture time. *)
Definition record (id title category date : text) (lat lon : coord)
           (crawled : text) : Raw.t :=
  {| Raw.event_id := id;
     Raw.event_title := title;
     Raw.event_category := category;
     Raw.event_date_utc := date;
     Raw.latitude := lat;
     Raw.longitude := lon;
     Raw.address := Text "Somewhere";
     Raw.event_url := Text "https://rsoe-edis.org/eventList/details/1";
     Raw.data_source := Absent;
     Raw.crawled_at := crawled |}.

(** The clock of the examples: 2025-09-12T00:00:00Z, and thirty days
    before it. *)
Definition now : Z := 1757635200000.
Definition thirtyDaysAgo : Z := 1755043200000.

Definition flood (id lat lon : string) : Raw.t :=
  record (Text id) (Text "Flood - Flash flood in the valley") (Text "Flood")
         (Text "2025-09-10T06:00:00Z") (CText lat) (CText lon)
         (Text "2025-09-10T23:00:00Z").

Definition fire (id lat lon : string) : Raw.t :=
  record (Text id) (Text "Fire - Outdoor fire near the harbour")
         (Text "Fire in built environment")
         (Text "2025-09-10T06:00:00Z") (CText lat) (CText lon)
         (Text "2025-09-10T23:00:00Z").

(** Two reports of one fire, 0.135 degrees of latitude (15 km) apart. *)
Definition fireA : Raw.t := fire "F-1" "37.0000" "23.5000".
Definition fireB : Raw.t := fire "F-2" "37.1350" "23.5000".

(** A record without a latitude. *)
Definition noLatitude : Raw.t := flood "E-7" "" "12.3".

(** A record without coordinates at all. *)
Definition nowhere : Raw.t := flood "E-8" "" "".

(** A record whose title is punctuation around a space. *)
Definition punctuation : Raw.t :=
  record (Text "E-9") (Text "! !") (Text "Flood")
         (Text "2025-09-10T06:00:00Z") (CText "10.5") (CText "20.5")
         (Text "2025-09-10T23:00:00Z").

(** Two captures of one identifier. *)
Definition capture (id crawled : string) : Raw.t :=
  record (Text id) (Text "Earthquake - M 5.1") (Text "Earthquake")
         (Text "2025-09-10T06:00:00Z") (CText "35.5") (CText "139.5")
         (Text crawled).

(** A flood reported on the given day at one place. *)
Definition floodOn (day : string) : Event.t :=
  sanitize IsoHost.Date_parse now
    (record (Text "E-2") (Text "Flood - Flash flood in the valley")
            (Text "Flood") (Text day) (CText "35.25") (CText "128.5")
            (Text "2025-09-11T23:00:00Z")).

(** A cluster of [old] events of 2025-08-20 and [recent] ones of
    2025-09-10. *)
Definition crowd (old recent : nat) : Cluster :=
  {| events := repeat (floodOn "2025-08-20T06:00:00Z") old
               ++ repeat (floodOn "2025-09-10T06:00:00Z") recent;
     centerLat := Some 35.25%float;
     centerLng := Some 128.5%float |}.

(** Five events on one meridian, in the order the loader gives them. *)
Definition onMeridian (lat : string) : Event.t :=
  sanitize IsoHost.Date_parse now (flood "E-1" lat "20.0").

Definition meridian : list Event.t :=
  map onMeridian ["41.75"; "40.25"; "40.75"; "40.5"; "42.25"].

End Sample.

(** ** Further definitions for the properties of the script *)

From Stdlib Require Import Sorting.Sorted Sorting.Permutation.
From Stdlib Require Structures.OrderedTypeEx.

(** The identifiers that pass the guard of the identity pass, in the order
    of the records. *)
Definition usableIds (events : list Raw.t) : list string :=
  flat_map (fun event => match usableId (Raw.event_id event) with
                         | Some id => [id]
                         | None => []
                         end)
           events.

(** A list without the repetitions of what was [seen] or met before. *)
Fixpoint firstOccurrences (seen ids : list string) : list string :=
  match ids with
  | id :: rest =>
      if Set_has id seen then firstOccurrences seen rest
      else id :: firstOccurrences (id :: seen) rest
  | [] => []
  end.

(** Events in chronological order. *)
Definition byDate (a b : Event.t) : Prop :=
  (Event.event_date a <= Event.event_date b)%Z.

Definition datedAt (d : Z) (event : Event.t) : bool :=
  (Event.event_date event =? d)%Z.

(** *** The time of the last update *)

(** [updateText.replace ('Last updated: ', '').trim ()], what the loader
    keeps of [last_update.txt]. *)
Definition readLastUpdate (updateText : string) : string :=
  JsString.trim (JsString.replaceFirst "Last updated: " "" updateText).

(** A value of a text field is truthy when it is a string that is not
    empty. *)
Definition truthyText (v : text) : bool :=
  match v with
  | Text s => JsString.nonEmpty s
  | _ => false
  end.

(** What [updateLastUpdateDisplay] writes: the time of the update file,
    the local form of a capture time, that the time is not known, or that
    there is no data. *)
Inductive LastUpdate : Type :=
| UpdatedAt (lastUpdateTime : string)
| CrawledAt (crawlDate : Date)
| UpdateUnknown
| NoData.

Section LastUpdateDisplay.

Variable Date_parse : string -> Date.

(** The callback of [disasterEvents.reduce]. *)
Definition latestCrawlStep (latest : text) (event : Event.t) : text :=
  let eventCrawl := newDateOrEpoch Date_parse (Event.crawled_at event) in
  let latestCrawl := newDateOrEpoch Date_parse latest in
  if Date_gt eventCrawl latestCrawl then Event.crawled_at event else latest.

Definition latestCrawl (disasterEvents : list Event.t) : text :=
  fold_left latestCrawlStep disasterEvents Null.

Definition updateLastUpdateDisplay (lastUpdateTime : text)
           (disasterEvents : list Event.t) : LastUpdate :=
  match lastUpdateTime with
  | Text s =>
      if JsString.nonEmpty s then UpdatedAt s
      else match disasterEvents with
           | [] => NoData
           | _ :: _ =>
               let latest := latestCrawl disasterEvents in
               if truthyText latest
               then CrawledAt (newDate Date_parse latest)
               else UpdateUnknown
           end
  | _ =>
      match disasterEvents with
      | [] => NoData
      | _ :: _ =>
          let latest := latestCrawl disasterEvents in
          if truthyText latest
          then CrawledAt (newDate Date_parse latest)
          else UpdateUnknown
      end
  end.

(** The capture time of a loaded event, [new Date (event.crawled_at || 0)]. *)
Definition crawlTime (event : Event.t) : Date :=
  newDateOrEpoch Date_parse (Event.crawled_at event).

(** What the reduction holds after the events [seen]: a capture time
    that none of them exceeds, which is the epoch as long as the
    accumulator is falsy and else the capture time of one of them. *)
Definition latestOf (seen : list Event.t) (latest : text) : Prop :=
  exists t,
    newDateOrEpoch Date_parse latest = Some t
    /\ (forall e, In e seen -> Date_gt (crawlTime e) (Some t) = false)
    /\ ((truthyText latest = false /\ t = 0%Z)
        \/ (truthyText latest = true /\ (0 < t)%Z
            /\ exists e, In e seen /\ crawlTime e = Some t)).

End LastUpdateDisplay.

(** *** The alert of [checkRiskAlerts] *)

(** The callback of [riskClusters.reduce]. *)
Definition riskier (max current : Cluster) : Cluster :=
  if List.length (events max) <? List.length (events current)
  then current else max.

(** [riskClusters.reduce (...)] without an initial value: the first
    cluster starts as the accumulator.  The script calls it on a list that
    is not empty. *)
Definition mostRiskyCluster (riskClusters : list Cluster) : option Cluster :=
  match riskClusters with
  | first :: rest => Some (fold_left riskier rest first)
  | [] => None
  end.

(** The arguments of a call of [showRiskAnimation]. *)
Record RiskMarker : Type := mkRiskMarker {
  markerLat : float;
  markerLng : float;
  eventCount : nat
}.

Definition markerOf (cluster : Cluster) : RiskMarker :=
  {| markerLat := mean Event.latitude (events cluster);
     markerLng := mean Event.longitude (events cluster);
     eventCount := List.length (events cluster) |}.

(** The clusters [checkRiskAlerts] calls [showRiskAnimation] for, in the
    order of the calls: the most risky one, then every risk cluster whose
    index is not 0. *)
Definition markedClusters (riskClusters : list Cluster) : list Cluster :=
  match mostRiskyCluster riskClusters with
  | Some mostRisky => mostRisky :: tl riskClusters
  | None => []
  end.

Definition riskMarkers (riskClusters : list Cluster) : list RiskMarker :=
  map markerOf (markedClusters riskClusters).

(** *** The source of an event *)

(** [getDataSourceFromEventId]: the source by the prefix of the
    identifier, RSOE for the rest. *)
Definition getDataSourceFromEventId (eventId : text) : string :=
  match eventId with
  | Text s =>
      if JsString.nonEmpty s
      then if prefix "RW_" s then "reliefweb"
           else if prefix "EMSC_" s then "emsc"
           else "rsoe"
      else "rsoe"
  | _ => "rsoe"
  end.

(** [event.data_source || getDataSourceFromEventId (event.event_id)] *)
Definition dataSource (event : Event.t) : string :=
  match Raw.data_source (Event.raw event) with
  | Text s =>
      if JsString.nonEmpty s then s
      else getDataSourceFromEventId (Event.event_id event)
  | _ => getDataSourceFromEventId (Event.event_id event)
  end.

(** *** The time slider *)

(** [Math.ceil (x)] *)
Definition Math_ceil (x : float) : float :=
  match Prim2SF x with
  | S754_finite s m e =>
      if (0 <=? e)%Z then x
      else
        let d := (2 ^ (- e))%Z in
        let q := (Zpos m / d)%Z in
        if s
        then if (q =? 0)%Z then neg_zero else JsNumber.ofZ (- q)
        else JsNumber.ofZ (if (Zpos m mod d =? 0)%Z then q else q + 1)
  | _ => x
  end.

(** The integer a Number is, when it is one that is not negative. *)
Definition toIndex (x : float) : option Z :=
  match Prim2SF x with
  | S754_zero _ => Some 0%Z
  | S754_finite false m e =>
      if (0 <=? e)%Z then Some (Zpos m * 2 ^ e)%Z
      else if (Zpos m mod 2 ^ (- e) =? 0)%Z
           then Some (Zpos m / 2 ^ (- e))%Z
           else None
  | _ => None
  end.

(** [l[x]] for an array [l] and a Number [x]: the element at that index,
    [undefined] when [x] is not the index of one. *)
Definition Array_at {A : Type} (l : list A) (x : float) : option A :=
  match toIndex x with
  | Some i =>
      if (i <? Z.of_nat (List.length l))%Z then nth_error l (Z.to_nat i)
      else None
  | None => None
  end.

(** [Math.ceil ((sliderValuePercent / 100) * totalEvents)] *)
Definition eventsToShow (sliderValuePercent : float) (totalEvents : nat)
  : float :=
  Math_ceil ((sliderValuePercent / 100)
             * JsNumber.ofZ (Z.of_nat totalEvents))%float.

Definition notAfter (cutoff event : Event.t) : bool :=
  (Event.event_date event <=? Event.event_date cutoff)%Z.

(** [applyTimeSlider]: the new value of [filteredData].
    [sliderValuePercent] is what [parseInt] read from the slider;
    without events the function returns before it assigns. *)
Definition applyTimeSlider (sliderValuePercent : float)
           (disasterEvents filteredData : list Event.t) : list Event.t :=
  match disasterEvents with
  | [] => filteredData
  | _ :: _ =>
      let totalEvents := List.length disasterEvents in
      let toShow := eventsToShow sliderValuePercent totalEvents in
      if (sliderValuePercent =? 100)%float then disasterEvents
      else if (0 <? toShow)%float
      then
        let sortedEvents := sortByDate disasterEvents in
        match Array_at sortedEvents (toShow - 1)%float,
              Array_at sortedEvents 0%float with
        | Some cutoff, Some _ => filter (notAfter cutoff) disasterEvents
        | _, _ => []
        end
      else []
  end.

(** *** Sorting the table *)

Inductive Direction : Type := Asc | Desc.

(** The columns a header can name: the fields of a record of the feed
    and the date of the event. *)
Inductive Column : Type :=
| event_id_column
| event_title_column
| event_category_column
| data_source_column
| event_date_column
| event_date_utc_column
| address_column
| latitude_column
| longitude_column
| event_url_column
| crawled_at_column.

Definition Column_eqb (a b : Column) : bool :=
  match a, b with
  | event_id_column, event_id_column
  | event_title_column, event_title_column
  | event_category_column, event_category_column
  | data_source_column, data_source_column
  | event_date_column, event_date_column
  | event_date_utc_column, event_date_utc_column
  | address_column, address_column
  | latitude_column, latitude_column
  | longitude_column, longitude_column
  | event_url_column, event_url_column
  | crawled_at_column, crawled_at_column => true
  | _, _ => false
  end.

(** What the comparator compares: a date, a Number or a string. *)
Inductive SortKey : Type :=
| DateKey (t : Z)
| NumberKey (x : float)
| StringKey (s : string).

(** [s.replace (/\D/g, '')] *)
Fixpoint digitsOnly (s : string) : string :=
  match s with
  | String c r =>
      if JsString.isDigit c then String c (digitsOnly r) else digitsOnly r
  | EmptyString => EmptyString
  end.

(** [x || 0] on Numbers *)
Definition numberOrZero (x : float) : float :=
  if JsNumber.truthy x then x else 0%float.

(** [(v || '').toString ().toLowerCase ()] *)
Definition lowerText (v : text) : string :=
  JsString.toLowerCase (orEmpty v).

Definition isText (v : text) : bool :=
  match v with
  | Text _ => true
  | _ => false
  end.

Section Sorting.

(** [parseInt (s)] for a string of decimal digits, as the host reads it
    ([NaN] for the empty one). *)
Variable parseInt : string -> float.

(** The two values the comparator derives, for one of the events.  For the
    identifier it calls [replace] on the field, which throws unless the
    field is a string, see [sortThrows]; [0] stands there for no value. *)
Definition sortKey (column : Column) (event : Event.t) : SortKey :=
  match column with
  | event_date_column => DateKey (Event.event_date event)
  | latitude_column =>
      NumberKey (numberOrZero (JsNumber.parseFloatNumber (Event.latitude event)))
  | longitude_column =>
      NumberKey (numberOrZero (JsNumber.parseFloatNumber (Event.longitude event)))
  | event_id_column =>
      match Event.event_id event with
      | Text s => NumberKey (numberOrZero (parseInt (digitsOnly s)))
      | _ => NumberKey 0%float
      end
  | event_title_column => StringKey (lowerText (Event.event_title event))
  | event_category_column => StringKey (lowerText (Event.event_category event))
  | data_source_column =>
      StringKey (lowerText (Raw.data_source (Event.raw event)))
  | event_date_utc_column => StringKey (lowerText (Event.event_date_utc event))
  | address_column => StringKey (lowerText (Raw.address (Event.raw event)))
  | event_url_column => StringKey (lowerText (Raw.event_url (Event.raw event)))
  | crawled_at_column => StringKey (lowerText (Event.crawled_at event))
  end.

(** [comparison]: [1] when [aValue > bValue], [-1] when
    [aValue < bValue], else [0].  The two keys are of one kind, as they
    are of one column. *)
Definition compareKeys (aValue bValue : SortKey) : Z :=
  match aValue, bValue with
  | DateKey x, DateKey y =>
      if (y <? x)%Z then 1%Z else if (x <? y)%Z then (-1)%Z else 0%Z
  | NumberKey x, NumberKey y =>
      if (y <? x)%float then 1%Z else if (x <? y)%float then (-1)%Z else 0%Z
  | StringKey s, StringKey t =>
      match String.compare s t with
      | Gt => 1%Z
      | Lt => (-1)%Z
      | Eq => 0%Z
      end
  | _, _ => 0%Z
  end.

(** The callback of [sort]. *)
Definition comparator (column : Column) (direction : Direction)
           (a b : Event.t) : Z :=
  let comparison := compareKeys (sortKey column a) (sortKey column b) in
  match direction with
  | Desc => (- comparison)%Z
  | Asc => comparison
  end.

(** [data.sort (compare)] for a consistent [compare]: the stable sort.  The
    elements are inserted from the last to the first, each before the
    first element placed that it does not have to follow. *)
Fixpoint insertWith {A : Type} (compare : A -> A -> Z) (e : A)
         (sorted : list A) : list A :=
  match sorted with
  | x :: rest =>
      if (compare e x <=? 0)%Z then e :: sorted
      else x :: insertWith compare e rest
  | [] => [e]
  end.

Definition sortWith {A : Type} (compare : A -> A -> Z) (data : list A)
  : list A :=
  fold_right (insertWith compare) [] data.

(** The comparator throws when it meets an identifier that is not a
    string; it is called on every element once there are two. *)
Definition sortThrows (column : Column) (data : list Event.t) : bool :=
  match column with
  | event_id_column =>
      (2 <=? List.length data)
      && existsb (fun event => negb (isText (Event.event_id event))) data
  | _ => false
  end.

(** [[...data].sort (...)]; [None] when the comparator throws. *)
Definition sortData (column : Column) (direction : Direction)
           (data : list Event.t) : option (list Event.t) :=
  if sortThrows column data then None
  else Some (sortWith (comparator column direction) data).

End Sorting.

(** *** The views *)

(** A row of the table: the event it shows and the index its click
    focuses. *)
Record Row : Type := mkRow {
  rowEvent : Event.t;
  rowIndex : nat
}.

(** A marker of the map, for the event it stands for. *)
Record Marker : Type := mkMarker {
  markerEvent : Event.t;
  _event_id : text
}.

Definition tableItemsToShow : nat := 50.

(** Both the table and the list call [toLowerCase] on the category of
    each event they show, which throws unless it is a string. *)
Definition hasCategory (event : Event.t) : bool :=
  isText (Event.event_category event).

(** The rows for [newData], whose first element is at [index] in the
    data; [None] when one of them throws. *)
Fixpoint insertRows (index : nat) (newData : list Event.t)
  : option (list Row) :=
  match newData with
  | event :: rest =>
      if hasCategory event
      then option_map (cons (mkRow event index)) (insertRows (S index) rest)
      else None
  | [] => Some []
  end.

(** [populateTable (data, append)] on a table that holds [rows]. *)
Definition populateTable (data : list Event.t) (append : bool)
           (rows : list Row) : option (list Row) :=
  let kept := if append then rows else [] in
  let start := if append then List.length rows else 0 in
  let newData := firstn tableItemsToShow (skipn start data) in
  option_map (app kept) (insertRows start newData).

(** [populateEventList (data)]: the items of the list, each with the index
    its click focuses. *)
Definition populateEventList (data : list Event.t) : option (list Row) :=
  insertRows 0 data.

(** [updateMapMarkers], once the map is there: a marker for each displayed
    event with valid coordinates; its popup needs the category. *)
Fixpoint addMarkers (filteredData : list Event.t) : option (list Marker) :=
  match filteredData with
  | event :: rest =>
      if Event.hasValidCoords event
      then if hasCategory event
           then option_map (cons (mkMarker event (Event.event_id event)))
                           (addMarkers rest)
           else None
      else addMarkers rest
  | [] => Some []
  end.

Definition updateMapMarkers (filteredData : list Event.t)
  : option (list Marker) :=
  addMarkers filteredData.

Definition text_eqb (a b : text) : bool :=
  match a, b with
  | Absent, Absent => true
  | Null, Null => true
  | Text s, Text t => String.eqb s t
  | _, _ => false
  end.

(** What [focusOnEvent] does, once the map is there, for an event that
    is there: it opens the marker found for its identifier, or moves the
    map to its coordinates. *)
Inductive Focus : Type :=
| OpenMarker (targetMarker : Marker)
| SetView (lat lng : float).

Inductive View : Type := MapView | TableView | ListView.

Definition focusOnEvent (currentView : View)
           (sortedData filteredData : list Event.t) (markers : list Marker)
           (index : nat) : option Focus :=
  let event :=
    match currentView with
    | TableView => nth_error sortedData index
    | _ => nth_error filteredData index
    end in
  match event with
  | Some event =>
      match find (fun m => text_eqb (_event_id m) (Event.event_id event))
                 markers with
      | Some targetMarker => Some (OpenMarker targetMarker)
      | None => Some (SetView (Event.latitude event) (Event.longitude event))
      end
  | None => None
  end.

(** *** The dashboard *)

(** The values of the controls that [applyCurrentFilters] reads. *)
Record Controls : Type := mkControls {
  sliderValuePercent : float;
  categoryFilter : string;
  sourceFilter : string;
  startDate : string;
  endDate : string;
  searchValue : string
}.

(** The globals of the script and what the views hold. *)
Record Dashboard : Type := mkDashboard {
  disasterEvents : list Event.t;
  filteredData : list Event.t;
  sortedData : list Event.t;
  currentSort : option (Column * Direction);
  activeDateRange : option float;
  tableRows : list Row;
  eventList : list Row;
  mapMarkers : list Marker
}.

(** [event.event_date >= d] and [event.event_date <= d] for a date [d]:
    false when [d] is invalid. *)
Definition notBefore (d : Date) (event : Event.t) : bool :=
  match d with
  | Some t => (t <=? Event.event_date event)%Z
  | None => false
  end.

Definition notLater (d : Date) (event : Event.t) : bool :=
  match d with
  | Some t => (Event.event_date event <=? t)%Z
  | None => false
  end.

(** [event.event_category === categoryFilter] *)
Definition inCategory (categoryFilter : string) (event : Event.t) : bool :=
  text_eqb (Event.event_category event) (Text categoryFilter).

Definition fromSource (sourceFilter : string) (event : Event.t) : bool :=
  String.eqb (dataSource event) sourceFilter.

(** [event.event_title.toLowerCase ().includes (searchInput)]; [None] when
    the title is not a string and [toLowerCase] throws. *)
Definition titleIncludes (searchInput : string) (event : Event.t)
  : option bool :=
  match Event.event_title event with
  | Text s => Some (JsString.includes searchInput (JsString.toLowerCase s))
  | _ => None
  end.

(** [l.filter (keep)] for a callback that can throw. *)
Fixpoint filterOrThrow {A : Type} (keep : A -> option bool) (l : list A)
  : option (list A) :=
  match l with
  | x :: rest =>
      match keep x with
      | Some b =>
          option_map (fun kept => if b then x :: kept else kept)
                     (filterOrThrow keep rest)
      | None => None
      end
  | [] => Some []
  end.

Definition bind {A B : Type} (x : option A) (f : A -> option B) : option B :=
  match x with
  | Some a => f a
  | None => None
  end.

Section Dashboard.

Variable Date_parse : string -> Date.
Variable parseInt : string -> float.

(** [new Date (now.setDate (now.getDate () - days))], by the clock and the
    time zone of the host. *)
Variable daysAgo : float -> Date.

(** The date after [setHours (23, 59, 59, 999)], in the time zone of the
    host. *)
Variable endOfDay : Date -> Date.

(** Whether the map and its layer of markers are there. *)
Variable mapReady : bool.

(** Whether the page has a button of the class [date-range-btn] whose
    [onclick] attribute is the text [filterByDateRange(null)]: what
    [document.querySelector] finds for [resetFilters]. *)
Variable allRangeButton : bool.

(** The filters of [applyCurrentFilters], on the events the slider left;
    [None] when the search throws. *)
Definition currentFilters (controls : Controls) (range : option float)
           (tempFiltered : list Event.t) : option (list Event.t) :=
  let byRange :=
    match range with
    | Some days => filter (notBefore (daysAgo days)) tempFiltered
    | None => tempFiltered
    end in
  let byCategory :=
    if JsString.nonEmpty (categoryFilter controls)
    then filter (inCategory (categoryFilter controls)) byRange
    else byRange in
  let bySource :=
    if JsString.nonEmpty (sourceFilter controls)
    then filter (fromSource (sourceFilter controls)) byCategory
    else byCategory in
  let byStart :=
    if JsString.nonEmpty (startDate controls)
    then filter (notBefore (Date_parse (startDate controls))) bySource
    else bySource in
  let byEnd :=
    if JsString.nonEmpty (endDate controls)
    then filter (notLater (endOfDay (Date_parse (endDate controls)))) byStart
    else byStart in
  let searchInput := JsString.toLowerCase (searchValue controls) in
  if JsString.nonEmpty searchInput
  then filterOrThrow (titleIncludes searchInput) byEnd
  else Some byEnd.

(** The views after a change of the data: the table from its start, the
    list and, when the map is there, the markers. *)
Definition refreshViews (st : Dashboard) : option Dashboard :=
  bind (populateTable (sortedData st) false (tableRows st)) (fun rows =>
  bind (populateEventList (filteredData st)) (fun items =>
  bind (if mapReady then updateMapMarkers (filteredData st)
        else Some (mapMarkers st)) (fun markers =>
  Some {| disasterEvents := disasterEvents st;
          filteredData := filteredData st;
          sortedData := sortedData st;
          currentSort := currentSort st;
          activeDateRange := activeDateRange st;
          tableRows := rows;
          eventList := items;
          mapMarkers := markers |}))).

(** [applyCurrentFilters]; [None] when it throws. *)
Definition applyCurrentFilters (controls : Controls) (st : Dashboard)
  : option Dashboard :=
  let shown :=
    applyTimeSlider (sliderValuePercent controls)
                    (disasterEvents st) (filteredData st) in
  bind (currentFilters controls (activeDateRange st) shown) (fun filtered =>
  bind (match currentSort st with
        | Some (column, direction) =>
            sortData parseInt column direction filtered
        | None => Some filtered
        end) (fun sorted =>
  refreshViews {| disasterEvents := disasterEvents st;
                  filteredData := filtered;
                  sortedData := sorted;
                  currentSort := currentSort st;
                  activeDateRange := activeDateRange st;
                  tableRows := tableRows st;
                  eventList := eventList st;
                  mapMarkers := mapMarkers st |})).

(** The direction a click on the header of [column] asks for; [None] for
    the order of the data. *)
Definition nextDirection (current : option (Column * Direction))
           (column : Column) : option Direction :=
  match current with
  | Some (sortedColumn, direction) =>
      if Column_eqb sortedColumn column
      then match direction with
           | Asc => Some Desc
           | Desc => None
           end
      else Some Asc
  | None => Some Asc
  end.

(** [sortTable (column)] *)
Definition sortTable (column : Column) (st : Dashboard) : option Dashboard :=
  let next := nextDirection (currentSort st) column in
  bind (match next with
        | Some direction => sortData parseInt column direction (filteredData st)
        | None => Some (filteredData st)
        end) (fun sorted =>
  bind (populateTable sorted false (tableRows st)) (fun rows =>
  Some {| disasterEvents := disasterEvents st;
          filteredData := filteredData st;
          sortedData := sorted;
          currentSort := option_map (pair column) next;
          activeDateRange := activeDateRange st;
          tableRows := rows;
          eventList := eventList st;
          mapMarkers := mapMarkers st |})).

(** The listener of the scroll of the table, at its bottom. *)
Definition scrollTable (st : Dashboard) : option Dashboard :=
  bind (populateTable (sortedData st) true (tableRows st)) (fun rows =>
  Some {| disasterEvents := disasterEvents st;
          filteredData := filteredData st;
          sortedData := sortedData st;
          currentSort := currentSort st;
          activeDateRange := activeDateRange st;
          tableRows := rows;
          eventList := eventList st;
          mapMarkers := mapMarkers st |}).

(** [filterByDateRange (days)] *)
Definition filterByDateRange (days : option float) (controls : Controls)
           (st : Dashboard) : option Dashboard :=
  applyCurrentFilters controls
    {| disasterEvents := disasterEvents st;
       filteredData := filteredData st;
       sortedData := sortedData st;
       currentSort := currentSort st;
       activeDateRange := days;
       tableRows := tableRows st;
       eventList := eventList st;
       mapMarkers := mapMarkers st |}.

(** The controls as [resetFilters] sets them. *)
Definition resetControls : Controls :=
  {| sliderValuePercent := 100%float;
     categoryFilter := EmptyString;
     sourceFilter := EmptyString;
     startDate := EmptyString;
     endDate := EmptyString;
     searchValue := EmptyString |}.

(** [resetFilters]; [None] when it throws.  The button of all dates is
    looked up and marked without a test of the result, unlike the button
    of [filterByDateRange]: without such a button [classList] is read
    from [null] and the reset throws before it touches a control, with
    [activeDateRange] already [null].  What a throw leaves behind is not
    part of the result. *)
Definition resetFilters (st : Dashboard) : option Dashboard :=
  if allRangeButton
  then applyCurrentFilters resetControls
         {| disasterEvents := disasterEvents st;
            filteredData := filteredData st;
            sortedData := sortedData st;
            currentSort := None;
            activeDateRange := None;
            tableRows := tableRows st;
            eventList := eventList st;
            mapMarkers := mapMarkers st |}
  else None.

(** [initializeData], for the events the loader left and the controls as
    [populateFilters] left them. *)
Definition initializeData (controls : Controls) (st : Dashboard)
  : option Dashboard :=
  bind (populateTable (disasterEvents st) false (tableRows st)) (fun rows =>
  bind (populateEventList (disasterEvents st)) (fun items =>
  bind (applyCurrentFilters controls
          {| disasterEvents := disasterEvents st;
             filteredData := disasterEvents st;
             sortedData := disasterEvents st;
             currentSort := currentSort st;
             activeDateRange := activeDateRange st;
             tableRows := rows;
             eventList := items;
             mapMarkers := mapMarkers st |}) (fun st' =>
  bind (if mapReady then updateMapMarkers (filteredData st')
        else Some (mapMarkers st')) (fun markers =>
  Some {| disasterEvents := disasterEvents st';
          filteredData := filteredData st';
          sortedData := sortedData st';
          currentSort := currentSort st';
          activeDateRange := activeDateRange st';
          tableRows := tableRows st';
          eventList := eventList st';
          mapMarkers := markers |})))).

End Dashboard.

(** *** What the views should hold *)

(** The rows for [data], whose first element has the index [index]. *)
Fixpoint rowsFrom (index : nat) (data : list Event.t) : list Row :=
  match data with
  | event :: rest => mkRow event index :: rowsFrom (S index) rest
  | [] => []
  end.

(** The markers for the events with valid coordinates. *)
Definition markersFor (data : list Event.t) : list Marker :=
  map (fun event => mkMarker event (Event.event_id event))
      (filter Event.hasValidCoords data).

(** [shown] is a selection of [data]: the elements that pass a test, in
    their order. *)
Definition selection (shown data : list Event.t) : Prop :=
  exists keep, shown = filter keep data.

(** *** The dates [populateFilters] sets *)

Section PopulateFilters.

(** The value of a date input after it was set to
    [new Date (t).toISOString ().split ('T')[0]], the UTC day of [t]. *)
Variable isoDay : Z -> string.

(** [Math.min (...dates)] and [Math.max (...dates)] *)
Definition minDate (first : Event.t) (rest : list Event.t) : Z :=
  fold_left Z.min (map Event.event_date rest) (Event.event_date first).

Definition maxDate (first : Event.t) (rest : list Event.t) : Z :=
  fold_left Z.max (map Event.event_date rest) (Event.event_date first).

(** The controls after [populateFilters]: with events, the two date
    inputs hold the days of the first and of the last event. *)
Definition populateFilters (disasterEvents : list Event.t)
           (controls : Controls) : Controls :=
  match disasterEvents with
  | first :: rest =>
      {| sliderValuePercent := sliderValuePercent controls;
         categoryFilter := categoryFilter controls;
         sourceFilter := sourceFilter controls;
         startDate := isoDay (minDate first rest);
         endDate := isoDay (maxDate first rest);
         searchValue := searchValue controls |}
  | [] => controls
  end.

End PopulateFilters.

(** The length of a day, and the start of the UTC day of a time value. *)
Definition msPerDay : Z := 86400000.

Definition midnight (t : Z) : Z := (t - t mod msPerDay)%Z.

(** [setHours (23, 59, 59, 999)] where the local time is [offset]
    milliseconds ahead of UTC: the last millisecond of the local day. *)
Definition endOfLocalDay (offset : Z) (d : Date) : Date :=
  option_map (fun t => let localTime := (t + offset)%Z in
                       (localTime - localTime mod msPerDay
                        + (msPerDay - 1) - offset)%Z)
             d.

(** The last time value the default end date lets through, for the last
    event dated [latest]. *)
Definition defaultCut (offset latest : Z) : Z :=
  if (0 <=? offset)%Z
  then (midnight latest + (msPerDay - 1) - offset)%Z
  else (midnight latest - 1 - offset)%Z.

(** ** The UTC day of a time value *)

Module IsoDay.

Local Open Scope Z_scope.

(** The civil date of the day [z] days after 1970-01-01. *)
Definition civilFromDays (z : Z) : Z * Z * Z :=
  let z' := z + 719468 in
  let era := z' / 146097 in
  let doe := z' - era * 146097 in
  let yoe := (doe - doe / 1460 + doe / 36524 - doe / 146096) / 365 in
  let doy := doe - (365 * yoe + yoe / 4 - yoe / 100) in
  let mp := (5 * doy + 2) / 153 in
  let d := doy - (153 * mp + 2) / 5 + 1 in
  let m := if mp <? 10 then mp + 3 else mp - 9 in
  let y := yoe + era * 400 + (if m <=? 2 then 1 else 0) in
  (y, m, d).

Definition pad (width : nat) (n : Z) : string :=
  let digits := JsNumber.showNat n in
  (JsNumber.zeros (width - String.length digits) ++ digits)%string.

(** The day as [toISOString] writes it, for the years 0000 to 9999. *)
Definition isoDay (t : Z) : string :=
  let '(y, m, d) := civilFromDays (t / 86400000) in
  (pad 4 y ++ "-" ++ pad 2 m ++ "-" ++ pad 2 d)%string.

End IsoDay.

(** The kind of a key, and the keys the comparator can order: a Number
    that is one. *)
Definition keyKind (k : SortKey) : nat :=
  match k with
  | DateKey _ => 0
  | NumberKey _ => 1
  | StringKey _ => 2
  end.

Definition properKey (k : SortKey) : bool :=
  match k with
  | NumberKey x => negb (is_nan x)
  | _ => true
  end.

(** What the user can do once the data are there. *)
Inductive Action : Type :=
| ChangeFilters (controls : Controls)
| ChooseDateRange (days : option float) (controls : Controls)
| ClickHeader (column : Column)
| ScrollToBottom
| ResetFilters.

Section Actions.

Variable Date_parse : string -> Date.
Variable parseInt : string -> float.
Variable daysAgo : float -> Date.
Variable endOfDay : Date -> Date.
Variable mapReady : bool.
Variable allRangeButton : bool.

Definition act (action : Action) (st : Dashboard) : option Dashboard :=
  match action with
  | ChangeFilters controls =>
      applyCurrentFilters Date_parse parseInt daysAgo endOfDay mapReady
                          controls st
  | ChooseDateRange days controls =>
      filterByDateRange Date_parse parseInt daysAgo endOfDay mapReady
                        days controls st
  | ClickHeader column => sortTable parseInt column st
  | ScrollToBottom => scrollTable st
  | ResetFilters =>
      resetFilters Date_parse parseInt daysAgo endOfDay mapReady
                   allRangeButton st
  end.

(** The views agree with the data: the displayed events are a selection
    of the loaded ones, the table holds the displayed events, its rows
    are the first of them, each with its own index, the list holds all of
    them and the map, when it is there, their markers. *)
Definition consistent (st : Dashboard) : Prop :=
  selection (filteredData st) (disasterEvents st)
  /\ Permutation (filteredData st) (sortedData st)
  /\ (exists n, tableRows st = rowsFrom 0 (firstn n (sortedData st)))
  /\ eventList st = rowsFrom 0 (filteredData st)
  /\ (mapReady = true -> mapMarkers st = markersFor (filteredData st)).

End Actions.

(** An event the script can filter, sort and show without a throw: its
    title, its identifier and its category are strings. *)
Definition sound (e : Event.t) : bool :=
  isText (Event.event_title e) && isText (Event.event_id e) && hasCategory e.

(** The state in which [loadDisasterData] calls [initializeData]: the
    events are the loaded ones, the other globals are as they were. *)
Definition withEvents (events : list Event.t) (st : Dashboard) : Dashboard :=
  {| disasterEvents := events;
     filteredData := filteredData st;
     sortedData := sortedData st;
     currentSort := currentSort st;
     activeDateRange := activeDateRange st;
     tableRows := tableRows st;
     eventList := eventList st;
     mapMarkers := mapMarkers st |}.

(** The table after [populateTable (data)] and [scrolls] scrolls to its
    bottom. *)
Fixpoint scrolled (data : list Event.t) (rows : list Row) (scrolls : nat)
  : option (list Row) :=
  match scrolls with
  | O => populateTable data false rows
  | S k => bind (scrolled data rows k) (populateTable data true)
  end.

(** ** A scenario *)

Module Scenario.

Definition report (id title : string) (category : text) (date lat lon : string)
  : Raw.t :=
  Sample.record (Text id) (Text title) category (Text date)
                (CText lat) (CText lon) (Text "2025-09-11T23:00:00Z").

(** Four records of the feed, of three sources, one without coordinates. *)
Definition flood : Raw.t :=
  report "E-4" "Flood in the valley" (Text "Flood")
         "2025-09-10T06:00:00Z" "35.25" "128.5".
Definition quake : Raw.t :=
  report "RW_2" "Earthquake M 5.1" (Text "Earthquake")
         "2025-09-08T06:00:00Z" "36.5" "140.25".
Definition slide : Raw.t :=
  report "EMSC_3" "Landslide on the road" (Text "Landslide")
         "2025-09-09T06:00:00Z" "" "".
Definition fire : Raw.t :=
  report "E-1" "Fire near the harbour" (Text "Fire")
         "2025-09-07T06:00:00Z" "37.0" "23.5".

(** A record whose category is [null]. *)
Definition storm : Raw.t :=
  report "E-5" "Storm over the coast" Null
         "2025-09-11T06:00:00Z" "10.5" "20.5".

Definition feed : list Raw.t := [flood; quake; slide; fire].

Definition loaded (e : Raw.t) : Event.t :=
  sanitize IsoHost.Date_parse Sample.now e.

(** The events the loader gives for the feed. *)
Definition events : list Event.t := map loaded [fire; quake; slide; flood].

(** A host: identifiers are read with the digits they hold, the clock is
    that of [Sample.now] and the zone is UTC. *)
Definition parseInt (s : string) : float :=
  match s with
  | EmptyString => nan
  | _ => let '(v, _, _) := JsNumber.readDigits 0 0 s in JsNumber.ofZ v
  end.

Definition daysAgo (days : float) : Date :=
  match toIndex days with
  | Some d => Some (Sample.now - 86400000 * d)%Z
  | None => None
  end.

Definition endOfDay (d : Date) : Date :=
  option_map (fun t => t - t mod 86400000 + 86399999)%Z d.

(** The dashboard with these events displayed in their order. *)
Definition showing (disasterEvents : list Event.t) : Dashboard :=
  {| disasterEvents := disasterEvents;
     filteredData := disasterEvents;
     sortedData := disasterEvents;
     currentSort := None;
     activeDateRange := None;
     tableRows := rowsFrom 0 (firstn tableItemsToShow disasterEvents);
     eventList := rowsFrom 0 disasterEvents;
     mapMarkers := markersFor disasterEvents |}.

(** The slider at the middle and a search for the earthquakes. *)
Definition controls : Controls :=
  {| sliderValuePercent := 50%float;
     categoryFilter := EmptyString;
     sourceFilter := EmptyString;
     startDate := EmptyString;
     endDate := EmptyString;
     searchValue := "EARTH" |}.

End Scenario.

(** ** The week of the risk rule, by the event timestamp *)

(** The week as the specification words it: the event timestamp lies
    within the last seven days, not after [now] and not more than seven
    days of 86400000 ms before it. *)
Definition withinLastWeek (now : Z) (event : Event.t) : bool :=
  ((now - 604800000 <=? Event.event_date event)
   && (Event.event_date event <=? now))%Z.

(** A record whose date text, if it has one, the loader parses as it
    stands: the text has no doubled marker to repair and the host reads
    it. *)
Definition readAsItStands (Date_parse : string -> Date) (event : Raw.t)
  : bool :=
  match Raw.event_date_utc event with
  | Text s =>
      if JsString.nonEmpty s
      then negb (JsString.includes "+00:00Z" s)
           && match Date_parse s with
              | Some _ => true
              | None => false
              end
      else true
  | _ => true
  end.

(** The date of a loaded event for the week: the event timestamp of an
    event with a date text, the date of the capture time of one
    without. *)
Definition weekDate (Date_parse : string -> Date) (event : Event.t) : Date :=
  if truthyText (Event.event_date_utc event)
  then Some (Event.event_date event)
  else newDate Date_parse (Event.crawled_at event).

(** That date is not more than seven days before [now]; a date after
    [now] is not excluded. *)
Definition notOlderThanWeek (Date_parse : string -> Date) (now : Z)
           (event : Event.t) : bool :=
  (daysDiff now (weekDate Date_parse event) <=? 7)%float.

Module Alerts.

(** Thirty floods at one place: twenty-five of 2025-08-20 and five with
    the date text [day]. *)
Definition crowdWith (day : string) : Cluster :=
  {| events := repeat (Sample.floodOn "2025-08-20T06:00:00Z") 25
               ++ repeat (Sample.floodOn day) 5;
     centerLat := Some 35.25%float;
     centerLng := Some 128.5%float |}.

(** Five of them dated the day after [Sample.now]. *)
Definition ahead : Cluster := crowdWith "2025-09-13T06:00:00Z".

(** Five of them dated two days before [Sample.now], with the doubled
    marker that the loader repairs. *)
Definition repaired : Cluster := crowdWith "2025-09-10T06:00:00+00:00Z".

End Alerts.

(** ** Records for the two loaders *)

Module Malformed.

(** A record whose title is white space, with coordinates that parse. *)
Definition untitled : Raw.t :=
  Sample.record (Text "E-10") (Text "  ") (Text "Flood")
                (Text "2025-09-10T06:00:00Z") (CText "35.25") (CText "128.5")
                (Text "2025-09-10T23:00:00Z").

(** A titled record whose date is [null]. *)
Definition undated : Raw.t :=
  Sample.record (Text "E-11") (Text "Flood - Flash flood in the valley")
                (Text "Flood") Null (CText "35.25") (CText "128.5")
                (Text "2025-09-10T23:00:00Z").

(** A titled record whose date is a text that no host reads as it is
    here. *)
Definition misdated : Raw.t :=
  Sample.record (Text "E-12") (Text "Flood - Flash flood in the valley")
                (Text "Flood") (Text "the tenth of September")
                (CText "35.25") (CText "128.5")
                (Text "2025-09-10T23:00:00Z").

End Malformed.

(** ** Lists, strings and the map *)

Lemma In_insertByDate (e x : Event.t) (l : list Event.t) :
  In x (insertByDate e l) <-> x = e \/ In x l.
Proof.
  induction l as [|y l IH]; simpl.
  - intuition congruence.
  - destruct (Event.event_date e <=? Event.event_date y)%Z; simpl.
    + intuition congruence.
    + rewrite IH. intuition congruence.
Qed.

Lemma In_sortByDate (x : Event.t) (l : list Event.t) :
  In x (sortByDate l) <-> In x l.
Proof.
  induction l as [|y l IH]; simpl.
  - tauto.
  - rewrite In_insertByDate, IH. intuition congruence.
Qed.

Lemma allWhiteSpace_trimStart (s : string) :
  JsString.allWhiteSpace s = true -> JsString.trimStart s = EmptyString.
Proof.
  induction s as [|c s IH]; simpl; auto.
  destruct (JsString.isWhiteSpace c); simpl; auto. discriminate.
Qed.

Lemma trimStart_empty (s : string) :
  JsString.trimStart s = EmptyString -> JsString.allWhiteSpace s = true.
Proof.
  induction s as [|c s IH]; simpl; auto.
  destruct (JsString.isWhiteSpace c); simpl; auto. discriminate.
Qed.

Lemma trimEnd_empty (s : string) :
  JsString.trimEnd s = EmptyString -> JsString.allWhiteSpace s = true.
Proof.
  destruct s as [|c s]; simpl; auto.
  destruct (JsString.isWhiteSpace c && JsString.allWhiteSpace s); auto.
  discriminate.
Qed.

Lemma allWhiteSpace_trimStart_stable (s : string) :
  JsString.allWhiteSpace (JsString.trimStart s) = JsString.allWhiteSpace s.
Proof.
  induction s as [|c s IH]; simpl; auto.
  destruct (JsString.isWhiteSpace c) eqn:E; simpl; auto.
  rewrite E. reflexivity.
Qed.

(** A string is blank exactly when trimming leaves nothing. *)
Lemma blank_trim (s : string) :
  blank s = true <-> JsString.trim s = EmptyString.
Proof.
  unfold blank, JsString.trim. split; intros H.
  - rewrite allWhiteSpace_trimStart; auto.
  - apply trimEnd_empty in H.
    rewrite allWhiteSpace_trimStart_stable in H. exact H.
Qed.

Lemma nonEmpty_false (s : string) :
  JsString.nonEmpty s = false <-> s = EmptyString.
Proof. destruct s; simpl; split; congruence. Qed.

(** The guard on identifiers and titles lets through the strings that are
    not blank. *)
Lemma nonBlank_spec (v : text) :
  nonBlank v = true <-> exists s, v = Text s /\ blank s = false.
Proof.
  destruct v as [| |s]; simpl.
  - split; [discriminate|intros (s & H & _); discriminate].
  - split; [discriminate|intros (s & H & _); discriminate].
  - split.
    + intros H. exists s. split; auto.
      apply andb_true_iff in H. destruct H as [_ H].
      destruct (blank s) eqn:B; auto.
      apply blank_trim in B. rewrite B in H. discriminate.
    + intros (s' & E & B). inversion E; subst s'.
      assert (T : JsString.nonEmpty (JsString.trim s) = true).
      { destruct (JsString.nonEmpty (JsString.trim s)) eqn:N; auto.
        apply nonEmpty_false in N. apply blank_trim in N. congruence. }
      rewrite T, andb_true_r.
      destruct s; simpl in *; auto; discriminate.
Qed.

Lemma usableId_nonBlank (v : text) (id : string) :
  usableId v = Some id -> v = Text id /\ nonBlank v = true.
Proof.
  destruct v as [| |s]; simpl; try discriminate.
  destruct (JsString.nonEmpty s && JsString.nonEmpty (JsString.trim s));
    intros H; inversion H; auto.
Qed.

Lemma nonBlank_usableId (s : string) :
  nonBlank (Text s) = true -> usableId (Text s) = Some s.
Proof. simpl. intros ->. reflexivity. Qed.

Lemma NoDup_snoc {A : Type} (l : list A) (a : A) :
  NoDup l -> ~ In a l -> NoDup (l ++ [a]).
Proof.
  induction l as [|x l IH]; simpl; intros N H.
  - constructor; auto; constructor.
  - inversion N; subst. constructor.
    + rewrite in_app_iff. simpl. intuition.
    + apply IH; auto.
Qed.

Lemma Set_has_In (k : string) (seen : list string) :
  Set_has k seen = true <-> In k seen.
Proof.
  unfold Set_has. rewrite existsb_exists. split.
  - intros (x & Hx & E). apply String.eqb_eq in E. subst. exact Hx.
  - intros H. exists k. split; auto. apply String.eqb_refl.
Qed.

Lemma Map_get_None (k : string) (m : EventMap) :
  Map_get k m = None <-> ~ In k (map fst m).
Proof.
  induction m as [|[k' v] m IH]; simpl.
  - tauto.
  - destruct (String.eqb_spec k k') as [->|N].
    + split; [discriminate|intros H; exfalso; apply H; auto].
    + rewrite IH. intuition congruence.
Qed.

Lemma Map_get_In (k : string) (v : Raw.t) (m : EventMap) :
  Map_get k m = Some v -> In (k, v) m.
Proof.
  induction m as [|[k' v'] m IH]; simpl; [discriminate|].
  destruct (String.eqb_spec k k') as [->|N].
  - intros H. inversion H; auto.
  - auto.
Qed.

Lemma Map_set_new (k : string) (v : Raw.t) (m : EventMap) :
  Map_get k m = None -> Map_set k v m = m ++ [(k, v)].
Proof.
  induction m as [|[k' v'] m IH]; simpl; auto.
  destruct (String.eqb k k'); [discriminate|].
  intros H. rewrite IH; auto.
Qed.

Lemma Map_set_keys (k : string) (v w : Raw.t) (m : EventMap) :
  Map_get k m = Some w -> map fst (Map_set k v m) = map fst m.
Proof.
  induction m as [|[k' v'] m IH]; simpl; [discriminate|].
  destruct (String.eqb k k'); simpl; auto.
  intros H. rewrite IH; auto.
Qed.

Lemma In_Map_set (k k' : string) (v v' : Raw.t) (m : EventMap) :
  In (k', v') (Map_set k v m) -> (k', v') = (k, v) \/ In (k', v') m.
Proof.
  induction m as [|[k0 v0] m IH]; simpl.
  - intuition congruence.
  - destruct (String.eqb_spec k k0) as [->|N]; simpl.
    + intuition congruence.
    + intros [H|H]; auto. apply IH in H. tauto.
Qed.

Lemma Map_get_set_same (k : string) (v : Raw.t) (m : EventMap) :
  Map_get k (Map_set k v m) = Some v.
Proof.
  induction m as [|[k' v'] m IH]; simpl.
  - rewrite String.eqb_refl. reflexivity.
  - destruct (String.eqb k k') eqn:E; simpl; rewrite E; auto.
Qed.

Lemma Map_get_set_other (k k' : string) (v : Raw.t) (m : EventMap) :
  k <> k' -> Map_get k' (Map_set k v m) = Map_get k' m.
Proof.
  intros N. induction m as [|[k0 v0] m IH]; simpl.
  - destruct (String.eqb_spec k' k); congruence.
  - destruct (String.eqb_spec k k0) as [->|N0]; simpl.
    + destruct (String.eqb_spec k' k0); congruence.
    + rewrite IH. reflexivity.
Qed.

Lemma hasId_usable (id : string) (event : Raw.t) :
  nonBlank (Text id) = true ->
  hasId id event = true <-> usableId (Raw.event_id event) = Some id.
Proof.
  intros U. unfold hasId. destruct (Raw.event_id event) as [| |s]; simpl.
  - split; discriminate.
  - split; discriminate.
  - split.
    + intros E. apply String.eqb_eq in E. subst s.
      apply nonBlank_usableId in U. exact U.
    + destruct (JsString.nonEmpty s && JsString.nonEmpty (JsString.trim s));
        intros E; inversion E. apply String.eqb_refl.
Qed.

Section IdentityFacts.

Variable Date_parse : string -> Date.

Lemma identityStep_keyed (m : EventMap) (event : Raw.t) :
  keyed m -> keyed (identityStep Date_parse m event).
Proof.
  intros K. unfold identityStep.
  destruct (usableId (Raw.event_id event)) as [id|] eqn:U; auto.
  assert (K' : keyed (Map_set id event m)).
  { intros k v H. apply In_Map_set in H. destruct H as [H|H].
    - inversion H; subst. exact U.
    - apply K; auto. }
  destruct (Map_get id m) as [existing|]; auto.
  destruct (Date_gt _ _); auto.
Qed.

Lemma identityStep_NoDup (m : EventMap) (event : Raw.t) :
  NoDup (map fst m) -> NoDup (map fst (identityStep Date_parse m event)).
Proof.
  intros N. unfold identityStep.
  destruct (usableId (Raw.event_id event)) as [id|]; auto.
  destruct (Map_get id m) as [existing|] eqn:G.
  - destruct (Date_gt _ _); auto.
    rewrite (Map_set_keys _ _ _ _ G). exact N.
  - rewrite Map_set_new by exact G.
    rewrite map_app. simpl.
    apply NoDup_snoc; auto.
    apply Map_get_None; exact G.
Qed.

Lemma fold_identity_invariant (events : list Raw.t) (m : EventMap) :
  keyed m -> NoDup (map fst m) ->
  keyed (fold_left (identityStep Date_parse) events m)
  /\ NoDup (map fst (fold_left (identityStep Date_parse) events m)).
Proof.
  revert m. induction events as [|e events IH]; simpl; intros m K N.
  - auto.
  - apply IH.
    + apply identityStep_keyed; auto.
    + apply identityStep_NoDup; auto.
Qed.

Lemma identityPass_keyed (events : list Raw.t) :
  keyed (identityPass Date_parse events).
Proof.
  apply fold_identity_invariant.
  - intros k v [].
  - constructor.
Qed.

Lemma identityPass_NoDup (events : list Raw.t) :
  NoDup (map fst (identityPass Date_parse events)).
Proof.
  apply fold_identity_invariant.
  - intros k v [].
  - constructor.
Qed.

End IdentityFacts.

(** ** The content pass *)

Lemma fold_contentStep (events : list Raw.t) (seen : list string)
      (deduped : list Raw.t) :
  snd (fold_left contentStep events (seen, deduped))
  = deduped ++ contentLoop seen events.
Proof.
  revert seen deduped.
  induction events as [|e events IH]; simpl; intros seen deduped.
  - rewrite app_nil_r. reflexivity.
  - destruct (negb (Set_has (contentKey e) seen)
              && JsString.nonEmpty (normalizedTitle e)).
    + rewrite IH, <- app_assoc. reflexivity.
    + apply IH.
Qed.

Lemma contentPass_loop (events : list Raw.t) :
  contentPass events = contentLoop [] events.
Proof. unfold contentPass. rewrite fold_contentStep. reflexivity. Qed.

Lemma contentLoop_In (events : list Raw.t) (seen : list string) (e : Raw.t) :
  In e (contentLoop seen events) ->
  In e events
  /\ ~ In (contentKey e) seen
  /\ JsString.nonEmpty (normalizedTitle e) = true.
Proof.
  revert seen. induction events as [|x events IH]; simpl; intros seen H.
  - contradiction.
  - destruct (Set_has (contentKey x) seen) eqn:S; simpl in H.
    + apply IH in H. tauto.
    + destruct (JsString.nonEmpty (normalizedTitle x)) eqn:T.
      * destruct H as [->|H].
        -- repeat split; auto.
           rewrite <- Set_has_In. congruence.
        -- apply IH in H. simpl in H. tauto.
      * apply IH in H. tauto.
Qed.

Lemma contentLoop_NoDup_keys (events : list Raw.t) (seen : list string) :
  NoDup (map contentKey (contentLoop seen events)).
Proof.
  revert seen. induction events as [|x events IH]; simpl; intros seen.
  - constructor.
  - destruct (negb (Set_has (contentKey x) seen)
              && JsString.nonEmpty (normalizedTitle x)); auto.
    simpl. constructor; auto.
    rewrite in_map_iff. intros (e & E & H).
    apply contentLoop_In in H. destruct H as (_ & H & _).
    apply H. rewrite E. left. reflexivity.
Qed.

Lemma contentLoop_NoDup_map {B : Type} (f : Raw.t -> B)
      (events : list Raw.t) (seen : list string) :
  NoDup (map f events) -> NoDup (map f (contentLoop seen events)).
Proof.
  revert seen. induction events as [|x events IH]; simpl; intros seen N.
  - constructor.
  - inversion N as [|? ? Hx N']; subst.
    destruct (negb (Set_has (contentKey x) seen)
              && JsString.nonEmpty (normalizedTitle x)); auto.
    simpl. constructor; auto.
    rewrite in_map_iff. intros (e & E & H).
    apply contentLoop_In in H. destruct H as (H & _).
    apply Hx. rewrite <- E. apply in_map. exact H.
Qed.

(** On records with distinct unseen keys and non-empty titles the pass
    changes nothing. *)
Lemma contentLoop_fixed (events : list Raw.t) (seen : list string) :
  NoDup (map contentKey events) ->
  (forall e, In e events -> ~ In (contentKey e) seen) ->
  (forall e, In e events -> JsString.nonEmpty (normalizedTitle e) = true) ->
  contentLoop seen events = events.
Proof.
  revert seen. induction events as [|x events IH]; simpl; intros seen N U T.
  - reflexivity.
  - inversion N as [|? ? Hx N']; subst.
    assert (S : Set_has (contentKey x) seen = false).
    { destruct (Set_has (contentKey x) seen) eqn:S; auto.
      apply Set_has_In in S. exfalso. apply (U x); auto. }
    rewrite S, T by auto. simpl. f_equal.
    apply IH; auto.
    intros e He [E|H].
    + apply Hx. rewrite E. apply in_map. exact He.
    + apply (U e); auto.
Qed.

(** ** Records with distinct identifiers pass the identity pass unchanged *)

Section IdentityOnDistinct.

Variable Date_parse : string -> Date.

Lemma fold_identity_distinct (events : list Raw.t) (m : EventMap) :
  (forall e, In e events -> usableId (Raw.event_id e) = Some (idKey e)) ->
  NoDup (map fst m ++ map idKey events) ->
  fold_left (identityStep Date_parse) events m
  = m ++ map (fun e => (idKey e, e)) events.
Proof.
  revert m. induction events as [|x events IH]; simpl; intros m U N.
  - rewrite app_nil_r. reflexivity.
  - unfold identityStep at 2. rewrite (U x) by auto.
    assert (G : Map_get (idKey x) m = None).
    { apply Map_get_None. intros H.
      apply NoDup_remove_2 in N. apply N.
      rewrite in_app_iff. auto. }
    rewrite G, Map_set_new by exact G.
    rewrite IH.
    + rewrite <- app_assoc. reflexivity.
    + auto.
    + rewrite map_app, <- app_assoc. exact N.
Qed.

Lemma identityPass_distinct (events : list Raw.t) :
  (forall e, In e events -> usableId (Raw.event_id e) = Some (idKey e)) ->
  NoDup (map idKey events) ->
  Map_values (identityPass Date_parse events) = events.
Proof.
  intros U N. unfold identityPass, Map_values.
  rewrite fold_identity_distinct; auto.
  simpl. rewrite map_map. simpl. apply map_id.
Qed.

Lemma keyed_values (m : EventMap) :
  keyed m -> map idKey (Map_values m) = map fst m.
Proof.
  unfold Map_values. induction m as [|[k v] m IH]; simpl; intros K.
  - reflexivity.
  - f_equal.
    + specialize (K k v (or_introl eq_refl)).
      apply usableId_nonBlank in K. destruct K as [E _].
      unfold idKey. rewrite E. reflexivity.
    + apply IH. intros k' v' H. apply K. right. exact H.
Qed.

Lemma keyed_values_usable (m : EventMap) (e : Raw.t) :
  keyed m -> In e (Map_values m) ->
  usableId (Raw.event_id e) = Some (idKey e).
Proof.
  unfold Map_values. intros K H. apply in_map_iff in H.
  destruct H as ([k v] & E & H). simpl in E. subst v.
  specialize (K k e H). rewrite K.
  apply usableId_nonBlank in K. destruct K as [E _].
  unfold idKey. rewrite E. reflexivity.
Qed.

End IdentityOnDistinct.

(** ** Idempotence of the Deduplicator *)

(** C9.  Deduplication is idempotent: running the identity pass followed by
    the content pass on the output of a first run gives that output again,
    record for record and in the same order. *)
Theorem deduplicate_idempotent (Date_parse : string -> Date)
        (allEvents : list Raw.t) :
  deduplicate Date_parse (deduplicate Date_parse allEvents)
  = deduplicate Date_parse allEvents.
Proof.
  unfold deduplicate at 1.
  set (out := deduplicate Date_parse allEvents).
  assert (Hout : out = contentLoop [] (Map_values (identityPass Date_parse allEvents))).
  { unfold out, deduplicate. apply contentPass_loop. }
  pose proof (identityPass_keyed Date_parse allEvents) as K.
  pose proof (identityPass_NoDup Date_parse allEvents) as N.
  assert (U : forall e, In e out -> usableId (Raw.event_id e) = Some (idKey e)).
  { intros e H. rewrite Hout in H. apply contentLoop_In in H.
    apply keyed_values_usable with (m := identityPass Date_parse allEvents); tauto. }
  assert (D : NoDup (map idKey out)).
  { rewrite Hout. apply contentLoop_NoDup_map.
    rewrite keyed_values; auto. }
  rewrite identityPass_distinct by assumption.
  rewrite contentPass_loop. apply contentLoop_fixed.
  - rewrite Hout. apply contentLoop_NoDup_keys.
  - intros e _ [].
  - intros e H. rewrite Hout in H. apply contentLoop_In in H. tauto.
Qed.

(** ** Identifiers and titles of the loaded events *)

(** C10.  Every event the loader emits has an identifier and a title that
    are not blank.  The identity pass keeps no record whose identifier is
    absent, [null], empty or white space only, whatever its other fields
    are, and the final filter keeps no event whose title is blank. *)
Theorem loaded_events_identified_and_titled (Date_parse : string -> Date)
        (now : Z) (pastData mainData : list Raw.t) :
  (forall event,
      In event (Map_values (identityPass Date_parse (pastData ++ mainData))) ->
      nonBlank (Raw.event_id event) = true)
  /\ (forall event,
         In event (pastData ++ mainData) ->
         nonBlank (Raw.event_id event) = false ->
         ~ In event (Map_values (identityPass Date_parse (pastData ++ mainData))))
  /\ (forall event,
         In event (preprocess Date_parse now
                     (deduplicate Date_parse (pastData ++ mainData))) ->
         nonBlank (Event.event_title event) = true)
  /\ (forall event,
         In event (loadDisasterData Date_parse now pastData mainData) ->
         (exists id, Event.event_id event = Text id /\ blank id = false)
         /\ (exists title, Event.event_title event = Text title
                           /\ blank title = false)).
Proof.
  set (allEvents := pastData ++ mainData).
  assert (I : forall event,
             In event (Map_values (identityPass Date_parse allEvents)) ->
             nonBlank (Raw.event_id event) = true).
  { intros event H.
    apply keyed_values_usable in H; [|apply identityPass_keyed].
    apply usableId_nonBlank in H. tauto. }
  assert (P : forall event,
             In event (preprocess Date_parse now (deduplicate Date_parse allEvents)) ->
             nonBlank (Event.event_title event) = true
             /\ In (Event.raw event) (deduplicate Date_parse allEvents)).
  { intros event H. unfold preprocess in H. apply filter_In in H.
    destruct H as [H V]. split; [exact V|].
    apply in_map_iff in H. destruct H as (r & <- & H). exact H. }
  repeat split.
  - exact I.
  - intros event _ B H. apply I in H. congruence.
  - intros event H. apply P in H. tauto.
  - unfold loadDisasterData in H.
    apply (proj1 (In_sortByDate _ _)) in H.
    apply P in H. destruct H as [_ H].
    unfold deduplicate in H. rewrite contentPass_loop in H.
    apply contentLoop_In in H. destruct H as [H _].
    apply I in H. apply nonBlank_spec. exact H.
  - unfold loadDisasterData in H.
    apply (proj1 (In_sortByDate _ _)) in H.
    apply P in H. destruct H as [H _].
    apply nonBlank_spec. exact H.
Qed.

(** ** Sanitised coordinates *)

Lemma is_zero_not_nan (x : float) : is_zero x = true -> is_nan x = false.
Proof.
  unfold is_zero, is_nan. rewrite !eqb_spec.
  replace (Prim2SF zero) with (S754_zero false) by reflexivity.
  destruct (Prim2SF x) as [s|s| |s m e]; simpl; try discriminate.
  - reflexivity.
  - destruct s; discriminate.
  - destruct s; discriminate.
Qed.

Lemma parseFloatNumber_nan (x : float) :
  JsNumber.isNaN (JsNumber.parseFloatNumber x) = JsNumber.isNaN x.
Proof.
  unfold JsNumber.isNaN, JsNumber.parseFloatNumber.
  destruct (is_zero x) eqn:Z; auto.
  rewrite (is_zero_not_nan x Z). reflexivity.
Qed.

(** A coordinate field either gives no number and is read as [0], or is
    read as the number [parseFloat] finds in it. *)
Lemma sanitizeCoord_spec (c : coord) :
  (unusableCoord c = true /\ sanitizeCoord c = zero)
  \/ (unusableCoord c = false /\ sanitizeCoord c = coordValue c
      /\ JsNumber.isNaN (coordValue c) = false).
Proof.
  destruct c as [| |s|x]; simpl.
  - left. auto.
  - left. auto.
  - destruct (JsString.nonEmpty s); simpl; [|left; auto].
    destruct (JsNumber.isNaN (JsNumber.parseFloatString s)) eqn:N;
      [left|right]; auto.
  - rewrite parseFloatNumber_nan.
    destruct (JsNumber.isNaN x) eqn:N; [left|right]; auto.
Qed.



(** ** Preprocessing keeps every titled record *)

Lemma filter_map_comm {A B : Type} (f : A -> B) (p : B -> bool) (l : list A) :
  filter p (map f l) = map f (filter (fun a => p (f a)) l).
Proof.
  induction l as [|a l IH]; simpl; auto.
  destruct (p (f a)); simpl; congruence.
Qed.

(** C6.  The preprocessing of the script drops a record only for a
    missing or blank title.  A record whose title is not blank is
    retained, also after the sort, with a coordinate that gives no number
    read as [0]; its event timestamp is the date read from its date text,
    after the repair of a doubled marker, and the current time when the
    date is absent or is a text that the host does not read.  The loader
    of the earlier copy of the script does otherwise: it keeps a record
    exactly when [parseFloat] reads a number from each of its
    coordinates, whatever its title and its date, and sets no default. *)
Theorem preprocessing_keeps_titled_records (Date_parse : string -> Date)
        (now : Z) (deduped : list Raw.t) :
  preprocess Date_parse now deduped
  = map (sanitize Date_parse now)
        (filter (fun event => nonBlank (Raw.event_title event)) deduped)
  /\ (forall event,
         In event deduped ->
         nonBlank (Raw.event_title event) = true ->
         let s := sanitize Date_parse now event in
         In s (preprocess Date_parse now deduped)
         /\ In s (sortByDate (preprocess Date_parse now deduped))
         /\ (unusableCoord (Raw.latitude event) = true ->
             Event.latitude s = zero)
         /\ (unusableCoord (Raw.longitude event) = true ->
             Event.longitude s = zero)
         /\ (parsedDate Date_parse event = None -> Event.event_date s = now)
         /\ Event.event_date s
            = match newDate Date_parse (repairDate (Raw.event_date_utc event)) with
              | Some t => t
              | None => now
              end
         /\ (Raw.event_date_utc event = Absent -> Event.event_date s = now)
         /\ (forall d,
                Raw.event_date_utc event = Text d ->
                Date_parse (if JsString.includes "+00:00Z" d
                            then JsString.replaceFirst "+00:00Z" "Z" d
                            else d) = None ->
                Event.event_date s = now))
  /\ (forall event,
         In event deduped ->
         ~ In (sanitize Date_parse now event) (preprocess Date_parse now deduped) ->
         nonBlank (Raw.event_title event) = false)
  /\ Docs.preprocess Date_parse deduped
     = map (Docs.convert Date_parse)
           (filter (fun event =>
                      negb (JsNumber.isNaN
                              (Docs.parseFloatField (Raw.latitude event)))
                      && negb (JsNumber.isNaN
                                 (Docs.parseFloatField (Raw.longitude event))))
                   deduped)
  /\ (forall event,
         In event deduped ->
         let kept := Docs.convert Date_parse event in
         (In kept (Docs.preprocess Date_parse deduped)
          <-> JsNumber.isNaN (Docs.parseFloatField (Raw.latitude event)) = false
              /\ JsNumber.isNaN (Docs.parseFloatField (Raw.longitude event))
                 = false)
         /\ Docs.latitude kept = Docs.parseFloatField (Raw.latitude event)
         /\ Docs.longitude kept = Docs.parseFloatField (Raw.longitude event)
         /\ Docs.event_date kept
            = newDate Date_parse (Raw.event_date_utc event)).
Proof.
  assert (E : preprocess Date_parse now deduped
              = map (sanitize Date_parse now)
                    (filter (fun event => nonBlank (Raw.event_title event)) deduped)).
  { unfold preprocess. rewrite filter_map_comm. reflexivity. }
  assert (K : forall event, In event deduped ->
                            nonBlank (Raw.event_title event) = true ->
                            In (sanitize Date_parse now event)
                               (preprocess Date_parse now deduped)).
  { intros event H T. rewrite E. apply in_map. apply filter_In. auto. }
  split; [exact E|]. split; [|split; [|split; [|]]].
  - intros event H T s. split; [apply K; auto|]. split.
    + apply In_sortByDate. apply K; auto.
    + split.
      { intros U.
        destruct (sanitizeCoord_spec (Raw.latitude event)) as [[_ Z]|[Z _]];
          [exact Z|congruence]. }
      split.
      { intros U.
        destruct (sanitizeCoord_spec (Raw.longitude event)) as [[_ Z]|[Z _]];
          [exact Z|congruence]. }
      split; [intros P; unfold s; simpl; rewrite P; reflexivity|].
      split; [reflexivity|]. split.
      * intros A. unfold s. simpl. unfold parsedDate. rewrite A. reflexivity.
      * intros d D P. unfold s. simpl. unfold parsedDate. rewrite D. simpl.
        destruct (JsString.nonEmpty d) eqn:N; simpl.
        -- destruct (JsString.includes "+00:00Z" d); simpl; rewrite P;
             reflexivity.
        -- assert (I : JsString.includes "+00:00Z" d = false).
           { destruct d; [reflexivity|discriminate]. }
           rewrite I in P. rewrite P. reflexivity.
  - intros event H N.
    destruct (nonBlank (Raw.event_title event)) eqn:T; auto.
    exfalso. apply N. apply K; auto.
  - unfold Docs.preprocess. rewrite filter_map_comm. reflexivity.
  - intros event H kept. split; [|auto].
    unfold Docs.preprocess. rewrite filter_In. unfold kept. simpl.
    rewrite andb_true_iff, !negb_true_iff. split; [tauto|].
    intros C. split; [apply in_map; exact H|exact C].
Qed.

(** ** Risk clusters *)

(** For a record whose date text the loader parses as it stands, or
    that has none, the date the risk filter reads is the date of the
    event for the week. *)
Lemma risk_date_is_week_date (Date_parse : string -> Date) (loadTime : Z)
      (event : Raw.t) :
  readAsItStands Date_parse event = true ->
  riskEventDate Date_parse (sanitize Date_parse loadTime event)
  = weekDate Date_parse (sanitize Date_parse loadTime event).
Proof.
  unfold readAsItStands, riskEventDate, weekDate, truthyText,
    Event.event_date_utc.
  simpl.
  destruct (Raw.event_date_utc event) as [| |s] eqn:E; auto.
  destruct (JsString.nonEmpty s) eqn:N; auto.
  intros H. apply andb_true_iff in H. destruct H as [I P].
  apply negb_true_iff in I.
  unfold parsedDate. rewrite E. simpl. rewrite N, I. simpl.
  destruct (Date_parse s); [reflexivity|discriminate].
Qed.

(** The week of the risk filter ends seven days back to the millisecond;
    a date that does not parse is not in it, a later date is. *)
Lemma recent_week_boundary :
  (daysDiff Sample.now (Some (Sample.now - 604800000)%Z) <=? 7)%float = true
  /\ (daysDiff Sample.now (Some (Sample.now - 604800001)%Z) <=? 7)%float = false
  /\ (daysDiff Sample.now None <=? 7)%float = false
  /\ (daysDiff Sample.now (Some (Sample.now + 3600000)%Z) <=? 7)%float = true.
Proof. repeat split; vm_compute; reflexivity. Qed.

(** C1.  The risk clusters are the clusters of the risk pass that pass
    the rule, and a cluster of fewer than 30 members, so one of 29, never
    passes it.  When every member is a loaded record whose date text, if
    it has one, the loader parsed as it stands, a cluster passes the rule
    exactly when it has at least 30 members and at least 5 of them are
    dated not more than seven days before the current time, a date after
    the current time included; the date of a member is its event
    timestamp, and the date of its capture time if it has no date text.
    A cluster of 30 such members with exactly 5 so dated passes. *)
Theorem risk_cluster_thresholds (Date_parse : string -> Date)
        (now thirtyDaysAgo : Z) (filteredData : list Event.t) :
  (forall cluster,
      In cluster (riskClusters Date_parse now thirtyDaysAgo filteredData)
      <-> In cluster (riskPassClusters thirtyDaysAgo filteredData)
          /\ isRiskCluster Date_parse now cluster = true)
  /\ (forall cluster,
         List.length (events cluster) < 30 ->
         isRiskCluster Date_parse now cluster = false)
  /\ (forall cluster,
         (forall member,
             In member (events cluster) ->
             exists loadTime record,
               member = sanitize Date_parse loadTime record
               /\ readAsItStands Date_parse record = true) ->
         let dated :=
           filter (notOlderThanWeek Date_parse now) (events cluster) in
         (isRiskCluster Date_parse now cluster = true
          <-> 30 <= List.length (events cluster) /\ 5 <= List.length dated)
         /\ (List.length (events cluster) = 30 ->
             List.length dated = 5 ->
             isRiskCluster Date_parse now cluster = true)).
Proof.
  split; [|split].
  - intros cluster. unfold riskClusters. rewrite filter_In. tauto.
  - intros cluster L. unfold isRiskCluster.
    apply andb_false_iff. left. apply Nat.leb_gt. exact L.
  - intros cluster Loaded dated.
    assert (W : recentWeek Date_parse now cluster = dated).
    { unfold recentWeek, dated. apply filter_ext_in.
      intros member I. destruct (Loaded member I) as (loadTime & r & -> & R).
      unfold inRecentWeek, notOlderThanWeek.
      rewrite (risk_date_is_week_date Date_parse loadTime r R). reflexivity. }
    unfold isRiskCluster. rewrite W, andb_true_iff, !Nat.leb_le.
    split; [tauto|]. intros L D. rewrite L, D. split; lia.
Qed.

(** ** Clustering places every event *)

Lemma members_app (xs ys : list Cluster) :
  members (xs ++ ys) = members xs ++ members ys.
Proof. unfold members. apply flat_map_app. Qed.

Lemma addToCluster_members (radius : float) (event : Event.t)
      (clusters clusters' : list Cluster) (x : Event.t) :
  addToCluster radius event clusters = Some clusters' ->
  In x (members clusters') <-> x = event \/ In x (members clusters).
Proof.
  revert clusters'.
  induction clusters as [|c clusters IH]; simpl; intros clusters' H.
  - discriminate.
  - destruct (distance event c <=? radius)%float.
    + inversion H; subst. unfold members. simpl.
      rewrite !in_app_iff. simpl. intuition congruence.
    + destruct (addToCluster radius event clusters) as [rest|]; simpl in H;
        [|discriminate].
      inversion H; subst. unfold members in *. simpl.
      rewrite !in_app_iff, (IH rest eq_refl). tauto.
Qed.

Lemma clusterStep_members (radius : float) (withCenter : bool)
      (clusters : list Cluster) (event x : Event.t) :
  In x (members (clusterStep radius withCenter clusters event))
  <-> x = event \/ In x (members clusters).
Proof.
  unfold clusterStep.
  destruct (addToCluster radius event clusters) as [clusters'|] eqn:A.
  - apply addToCluster_members with (radius := radius). exact A.
  - rewrite members_app, in_app_iff. unfold members at 2. simpl.
    intuition congruence.
Qed.

Lemma fold_clusterStep_members (radius : float) (withCenter : bool)
      (evs : list Event.t) (clusters : list Cluster) (x : Event.t) :
  In x (members (fold_left (clusterStep radius withCenter) evs clusters))
  <-> In x evs \/ In x (members clusters).
Proof.
  revert clusters. induction evs as [|e evs IH]; simpl; intros clusters.
  - tauto.
  - rewrite IH, clusterStep_members. intuition congruence.
Qed.

(** The members of the clusters are the events given, whatever their
    [hasValidCoords] says: no clustering pass reads that field. *)
Lemma clusterEvents_members (radius : float) (withCenter : bool)
      (evs : list Event.t) (x : Event.t) :
  In x evs <->
  exists cluster,
    In cluster (clusterEvents radius withCenter evs) /\ In x (events cluster).
Proof.
  unfold clusterEvents.
  pose proof (fold_clusterStep_members radius withCenter evs [] x) as H.
  unfold members in H at 1. rewrite in_flat_map in H.
  simpl in H. tauto.
Qed.

(** C8 (the code departs from the claim).  Every displayed event without
    valid coordinates is a member of a cluster in the pass of
    [updateStats] and, when it is of the last thirty days, in the pass of
    [checkRiskAlerts].  So is the sample record without a latitude; and
    thirty records without coordinates, all placed at (0, 0), form one
    cluster, which the risk filter then reports. *)
Theorem invalid_coordinates_are_clustered :
  (forall (filteredData : list Event.t) (thirtyDaysAgo : Z) (event : Event.t),
      In event filteredData ->
      Event.hasValidCoords event = false ->
      (exists cluster,
          In cluster (statsClusters filteredData) /\ In event (events cluster))
      /\ ((thirtyDaysAgo <= Event.event_date event)%Z ->
          exists cluster,
            In cluster (riskPassClusters thirtyDaysAgo filteredData)
            /\ In event (events cluster)))
  /\ (let event := sanitize IsoHost.Date_parse Sample.now Sample.noLatitude in
      Event.hasValidCoords event = false
      /\ map events (statsClusters [event]) = [[event]]
      /\ map events (riskPassClusters Sample.thirtyDaysAgo [event]) = [[event]])
  /\ (let lost := sanitize IsoHost.Date_parse Sample.now Sample.nowhere in
      Event.hasValidCoords lost = false
      /\ map (fun cluster => List.length (events cluster))
             (riskClusters IsoHost.Date_parse Sample.now Sample.thirtyDaysAgo
                           (repeat lost 30))
         = [30]).
Proof.
  split; [|split].
  - intros filteredData thirtyDaysAgo event H _. split.
    + apply clusterEvents_members. exact H.
    + intros R. apply clusterEvents_members.
      unfold recentEvents. apply filter_In. split; auto.
      apply Z.leb_le. exact R.
  - split; [reflexivity|]. split; reflexivity.
  - split; [reflexivity|]. vm_compute. reflexivity.
Qed.

(** ** The number of clusters and the radius *)

(** On the specification of binary64 numbers, [x <= y] and [y < z] give
    [x <= z]. *)
Lemma SFleb_ltb_trans (x y z : spec_float) :
  SFleb x y = true -> SFltb y z = true -> SFleb x z = true.
Proof.
  unfold SFleb, SFltb.
  destruct x as [sx|sx| |sx mx ex], y as [sy|sy| |sy my ey],
           z as [sz|sz| |sz mz ez];
    simpl; try discriminate; auto;
    try (destruct sx; simpl; try discriminate; auto);
    try (destruct sy; simpl; try discriminate; auto);
    try (destruct sz; simpl; try discriminate; auto).
  all: change (PosDef.Pos.compare_cont Eq) with Pos.compare.
  all: destruct (Z.compare_spec ex ey), (Z.compare_spec ey ez),
         (Z.compare_spec ex ez); try lia; simpl; try discriminate; auto.
  all: destruct (Pos.compare_spec mx my), (Pos.compare_spec my mz),
         (Pos.compare_spec mx mz); simpl; try discriminate; auto; lia.
Qed.

Lemma leb_ltb_trans (x y z : float) :
  (x <=? y)%float = true -> (y <? z)%float = true -> (x <=? z)%float = true.
Proof.
  rewrite !leb_spec, ltb_spec. apply SFleb_ltb_trans.
Qed.

(** Decide every test of a distance against a radius in the goal. *)
Ltac split_radius :=
  repeat (match goal with
          | |- context [if PrimFloat.leb ?d ?r then _ else _] =>
              destruct (PrimFloat.leb d r) eqn:?
          end; simpl).

(** A distance within the smaller radius is within the larger one. *)
Ltac radius_contradiction :=
  match goal with
  | HR : PrimFloat.ltb ?r ?r' = true,
    H1 : PrimFloat.leb ?d ?r = true,
    H2 : PrimFloat.leb ?d ?r' = false |- _ =>
      rewrite (leb_ltb_trans d r r' H1 HR) in H2; discriminate H2
  end.

(** C7 (as stated it fails).  On the five events of [Sample.meridian] the
    radius 0.5 of the risk pass gives two clusters and the radius 1.0 of
    the statistics pass gives three: the smaller radius gives fewer
    clusters. *)
Lemma clusters_can_grow_with_radius :
  (CLUSTER_RADIUS_risk <? CLUSTER_RADIUS_stats)%float = true
  /\ List.length (clusterEvents CLUSTER_RADIUS_risk false Sample.meridian) = 2
  /\ List.length (clusterEvents CLUSTER_RADIUS_stats false Sample.meridian) = 3
  /\ ~ (List.length (clusterEvents CLUSTER_RADIUS_stats false Sample.meridian)
        <= List.length (clusterEvents CLUSTER_RADIUS_risk false Sample.meridian)).
Proof.
  assert (A : List.length (clusterEvents CLUSTER_RADIUS_risk false
                                         Sample.meridian) = 2)
    by (vm_compute; reflexivity).
  assert (B : List.length (clusterEvents CLUSTER_RADIUS_stats false
                                         Sample.meridian) = 3)
    by (vm_compute; reflexivity).
  split; [reflexivity|]. split; [exact A|]. split; [exact B|].
  rewrite A, B. lia.
Qed.

(** C7 (amended).  For at most three events, clustering with a radius
    [R1 < R2] gives at least as many clusters as clustering with [R2]. *)
Theorem few_events_radius_monotone (R1 R2 : float) (withCenter : bool)
        (evs : list Event.t) :
  (R1 <? R2)%float = true ->
  List.length evs <= 3 ->
  List.length (clusterEvents R2 withCenter evs)
  <= List.length (clusterEvents R1 withCenter evs).
Proof.
  intros HR L.
  destruct evs as [|a [|b [|c [|d evs]]]]; simpl in L; try lia.
  - simpl. lia.
  - simpl. lia.
  - unfold clusterEvents, clusterStep. simpl.
    split_radius; try lia; radius_contradiction.
  - unfold clusterEvents, clusterStep. simpl.
    split_radius; try lia; radius_contradiction.
Qed.

Lemma few_events_radius_monotone_witness :
  (0.5 <? 1)%float = true
  /\ List.length (firstn 3 Sample.meridian) <= 3
  /\ List.length (clusterEvents 1 false (firstn 3 Sample.meridian))
     <= List.length (clusterEvents 0.5 false (firstn 3 Sample.meridian)).
Proof.
  assert (HR : (0.5 <? 1)%float = true) by reflexivity.
  assert (L : List.length (firstn 3 Sample.meridian) <= 3) by (simpl; lia).
  split; [exact HR|]. split; [exact L|].
  exact (few_events_radius_monotone 0.5 1 false (firstn 3 Sample.meridian) HR L).
Defined.

(** ** The content key *)

Lemma allChars_collapseFrom (P : ascii -> bool) (inRun : bool) (s : string) :
  P " "%char = true -> allChars P s = true ->
  allChars P (JsString.collapseFrom inRun s) = true.
Proof.
  intros Sp. revert inRun.
  induction s as [|c s IH]; simpl; intros inRun H; auto.
  apply andb_true_iff in H. destruct H as [Hc Hs].
  destruct (JsString.isWhiteSpace c).
  - destruct inRun; simpl; rewrite ?Sp; simpl; apply IH; exact Hs.
  - simpl. rewrite Hc. simpl. apply IH; exact Hs.
Qed.

Lemma allChars_strip (s : string) :
  allChars wordOrSpace (JsString.stripNonWordNonSpace s) = true.
Proof.
  induction s as [|c s IH]; simpl; auto.
  destruct (JsString.isWordChar c || JsString.isWhiteSpace c) eqn:W; auto.
  simpl. unfold wordOrSpace at 1. rewrite W. exact IH.
Qed.

(** A normalized title holds word characters and spaces only. *)
Lemma normalizedTitle_chars (event : Raw.t) :
  allChars wordOrSpace (normalizedTitle event) = true.
Proof.
  unfold normalizedTitle, JsString.collapseSpaces.
  apply allChars_collapseFrom; [reflexivity|apply allChars_strip].
Qed.

Lemma append_bar_inj (a b x y : string) :
  allChars wordOrSpace a = true -> allChars wordOrSpace b = true ->
  (a ++ String "|" x)%string = (b ++ String "|" y)%string -> a = b.
Proof.
  revert b. induction a as [|c a IH]; intros [|d b]; simpl; intros A B E.
  - reflexivity.
  - inversion E; subst d. discriminate.
  - inversion E; subst c. discriminate.
  - inversion E; subst d.
    apply andb_true_iff in A. apply andb_true_iff in B.
    f_equal. apply IH; tauto.
Qed.

(** Records with one content key have one normalized title. *)
Lemma contentKey_title (a b : Raw.t) :
  contentKey a = contentKey b -> normalizedTitle a = normalizedTitle b.
Proof.
  unfold contentKey. simpl. intros E.
  apply append_bar_inj in E; auto using normalizedTitle_chars.
Qed.

Lemma existsb_key (event : Raw.t) (earlier : list Raw.t) :
  existsb (fun e => String.eqb (contentKey e) (contentKey event)) earlier = true
  <-> exists e, In e earlier /\ contentKey e = contentKey event.
Proof.
  rewrite existsb_exists. split; intros (e & H & E); exists e; split; auto.
  - apply String.eqb_eq. exact E.
  - apply String.eqb_eq. exact E.
Qed.

(** The keys marked seen stand for all the records met so far. *)
Lemma contentLoop_firstSeen (events : list Raw.t) (seen : list string)
      (earlier : list Raw.t) :
  (forall k, In k seen -> exists e, In e earlier /\ contentKey e = k) ->
  (forall e, In e earlier -> JsString.nonEmpty (normalizedTitle e) = true ->
             In (contentKey e) seen) ->
  contentLoop seen events = firstSeen earlier events.
Proof.
  revert seen earlier.
  induction events as [|x events IH]; simpl; intros seen earlier S1 S2; auto.
  destruct (JsString.nonEmpty (normalizedTitle x)) eqn:T.
  - assert (Q : Set_has (contentKey x) seen
                = existsb (fun e => String.eqb (contentKey e) (contentKey x))
                          earlier).
    { apply eq_true_iff_eq. rewrite Set_has_In, existsb_key. split.
      - intros H. apply S1. exact H.
      - intros (e & H & E). rewrite <- E. apply S2; auto.
        rewrite (contentKey_title e x E). exact T. }
    rewrite <- Q, andb_true_r. simpl.
    destruct (Set_has (contentKey x) seen) eqn:H; simpl.
    + apply IH.
      * intros k Hk. destruct (S1 k Hk) as (e & He & E).
        exists e. simpl. auto.
      * intros e [<-|He] Te; auto. apply Set_has_In. exact H.
    + f_equal. apply IH.
      * intros k [<-|Hk].
        -- exists x. simpl. auto.
        -- destruct (S1 k Hk) as (e & He & E). exists e. simpl. auto.
      * intros e [<-|He] Te; simpl; auto.
  - rewrite andb_false_r. simpl. apply IH.
    + intros k Hk. destruct (S1 k Hk) as (e & He & E).
      exists e. simpl. auto.
    + intros e [<-|He] Te; auto. congruence.
Qed.

Lemma firstSeen_keeps (before after earlier : list Raw.t) (event : Raw.t) :
  JsString.nonEmpty (normalizedTitle event) = true ->
  (forall e, In e earlier \/ In e before -> contentKey e <> contentKey event) ->
  In event (firstSeen earlier (before ++ event :: after)).
Proof.
  intros T. revert earlier.
  induction before as [|x before IH]; simpl; intros earlier N.
  - rewrite T. simpl.
    destruct (existsb _ earlier) eqn:X.
    + apply existsb_key in X. destruct X as (e & H & E).
      exfalso. apply (N e); auto.
    + simpl. auto.
  - assert (R : In event (firstSeen (x :: earlier) (before ++ event :: after))).
    { apply IH. intros e [[<-|H]|H]; apply N; auto. }
    destruct (_ && _); simpl; auto.
Qed.

(** C3 (as stated it fails).  The title ["! !"] normalizes to one space: a
    blank title, which is not the empty string, so the record passes the
    guard of the content pass and is emitted. *)
Lemma blank_title_is_emitted :
  normalizedTitle Sample.punctuation = " "
  /\ blank (normalizedTitle Sample.punctuation) = true
  /\ contentPass [Sample.punctuation] = [Sample.punctuation].
Proof. repeat split. Qed.

(** C3 (amended).  Going through the records in encounter order, the
    content pass keeps a record exactly when its normalized title is not
    the empty string and no record met before it has its content key.  So
    no emitted record has an empty normalized title, no two emitted
    records share a content key, and the first record met with a key, if
    its normalized title is not empty, is emitted. *)
Theorem content_pass_first_seen (events : list Raw.t) :
  contentPass events = firstSeen [] events
  /\ (forall event,
         In event (contentPass events) ->
         In event events /\ normalizedTitle event <> EmptyString)
  /\ NoDup (map contentKey (contentPass events))
  /\ (forall before event after,
         events = before ++ event :: after ->
         normalizedTitle event <> EmptyString ->
         (forall e, In e before -> contentKey e <> contentKey event) ->
         In event (contentPass events)).
Proof.
  assert (E : contentPass events = firstSeen [] events).
  { rewrite contentPass_loop. apply contentLoop_firstSeen.
    - intros k [].
    - intros e []. }
  split; [exact E|]. split; [|split].
  - intros event H. rewrite contentPass_loop in H.
    apply contentLoop_In in H. destruct H as (H & _ & T).
    split; auto. intros Z. rewrite Z in T. discriminate.
  - rewrite contentPass_loop. apply contentLoop_NoDup_keys.
  - intros before event after -> T N. rewrite E.
    apply firstSeen_keeps.
    + destruct (normalizedTitle event); simpl; congruence.
    + intros e [[]|H]. apply N. exact H.
Qed.

Lemma sample_fire_keys :
  contentKey Sample.fireA
  = "fire outdoor fire near the harbour|2025-09-10|37.0000|23.5000"
  /\ contentKey Sample.fireB
     = "fire outdoor fire near the harbour|2025-09-10|37.1350|23.5000".
Proof. split; vm_compute; reflexivity. Qed.

(** C4 (as stated it fails).  Two fire records with one title and one
    date, 0.135 degrees of latitude (15 km) apart, have different content
    keys and both survive the content pass. *)
Lemma fire_records_do_not_collapse :
  Raw.event_category Sample.fireA = Text "Fire in built environment"
  /\ Raw.event_category Sample.fireB = Text "Fire in built environment"
  /\ normalizedTitle Sample.fireA = normalizedTitle Sample.fireB
  /\ contentKey Sample.fireA
     = "fire outdoor fire near the harbour|2025-09-10|37.0000|23.5000"
  /\ contentKey Sample.fireB
     = "fire outdoor fire near the harbour|2025-09-10|37.1350|23.5000"
  /\ contentPass [Sample.fireA; Sample.fireB] = [Sample.fireA; Sample.fireB].
Proof.
  destruct sample_fire_keys as [A B].
  split; [reflexivity|]. split; [reflexivity|]. split; [reflexivity|].
  split; [exact A|]. split; [exact B|]. vm_compute. reflexivity.
Qed.

(** C4 (amended).  The content key has one granularity for every
    category: the coordinates written with four decimals and the first ten
    characters of the date, whatever the category of the record.  Two
    records 15 km apart that agree otherwise do not collapse, fire or not;
    two records collapse when the second has the key of the first. *)
Theorem content_key_ignores_category (category : text) (event : Raw.t) :
  contentKey (withCategory category event) = contentKey event
  /\ contentKey event
     = (normalizedTitle event ++ "|"
        ++ substring 0 10 (orEmpty (Raw.event_date_utc event)) ++ "|"
        ++ JsNumber.toFixed 4 (parseFloatOrZero (Raw.latitude event)) ++ "|"
        ++ JsNumber.toFixed 4 (parseFloatOrZero (Raw.longitude event)))%string
  /\ contentPass [withCategory category Sample.fireA;
                  withCategory category Sample.fireB]
     = [withCategory category Sample.fireA; withCategory category Sample.fireB]
  /\ (coordBucket (CText "37.00004") = coordBucket (CText "37.0")
      /\ coordBucket (CText "37.0001") <> coordBucket (CText "37.0"))
  /\ (forall other,
         normalizedTitle event <> EmptyString ->
         contentKey other = contentKey event ->
         contentPass [event; other] = [event]).
Proof.
  split; [reflexivity|]. split; [reflexivity|]. split; [|split].
  - rewrite contentPass_loop. apply contentLoop_fixed.
    + assert (K : forall e, contentKey (withCategory category e) = contentKey e)
        by reflexivity.
      simpl. rewrite !K. 
      destruct sample_fire_keys as [A B].
      rewrite A, B. constructor; [|constructor; [|constructor]].
      * intros [H|[]]. discriminate H.
      * intros [].
    + intros e _ [].
    + intros e [<-|[<-|[]]]; reflexivity.
  - split; [vm_compute; reflexivity|].
    vm_compute. discriminate.
  - intros other T K. rewrite contentPass_loop. simpl.
    assert (N : JsString.nonEmpty (normalizedTitle event) = true).
    { destruct (normalizedTitle event); simpl; congruence. }
    rewrite N. simpl. rewrite K. unfold Set_has. simpl.
    rewrite String.eqb_refl. reflexivity.
Qed.

(** ** The identity pass keeps the latest capture *)

Section LatestCapture.

Variable Date_parse : string -> Date.
Variable id : string.
Hypothesis id_usable : nonBlank (Text id) = true.

Lemma hasId_false_other (event : Raw.t) (k : string) :
  hasId id event = false -> usableId (Raw.event_id event) = Some k -> k <> id.
Proof.
  intros H U E. subst k.
  apply (hasId_usable id event id_usable) in U. congruence.
Qed.

(** What a step of the identity pass does to the entry of [id]. *)
Lemma Map_get_identityStep (m : EventMap) (event : Raw.t) :
  Map_get id (identityStep Date_parse m event)
  = contest Date_parse id (Map_get id m) event.
Proof.
  unfold identityStep, contest, captureTime.
  destruct (hasId id event) eqn:H.
  - apply (hasId_usable id event id_usable) in H. rewrite H.
    destruct (Map_get id m) as [existing|] eqn:G.
    + destruct (Date_gt _ _); auto. apply Map_get_set_same.
    + apply Map_get_set_same.
  - destruct (usableId (Raw.event_id event)) as [k|] eqn:U; auto.
    pose proof (hasId_false_other event k H U) as N.
    destruct (Map_get k m) as [existing|].
    + destruct (Date_gt _ _); auto. apply Map_get_set_other. exact N.
    + apply Map_get_set_other. exact N.
Qed.

Lemma Map_get_fold_identity (events : list Raw.t) (m : EventMap) :
  Map_get id (fold_left (identityStep Date_parse) events m)
  = champion Date_parse id (Map_get id m) events.
Proof.
  unfold champion. revert m.
  induction events as [|e events IH]; simpl; intros m; auto.
  rewrite IH, Map_get_identityStep. reflexivity.
Qed.

Lemma withId_nil (events : list Raw.t) (e : Raw.t) :
  withId id events = [] -> In e events -> hasId id e = false.
Proof.
  intros W H. destruct (hasId id e) eqn:X; auto.
  assert (I : In e (withId id events)) by (apply filter_In; auto).
  rewrite W in I. contradiction.
Qed.

(** The entry of [id] after the pass: none when no record has the
    identifier, else the first record with the latest capture time. *)
Lemma champion_spec (events : list Raw.t) :
  (forall e, In e events -> hasId id e = true ->
             captureTime Date_parse e <> None) ->
  match champion Date_parse id None events with
  | None => withId id events = []
  | Some w => firstLatest Date_parse id events w
  end.
Proof.
  unfold champion.
  induction events as [|e events IH] using rev_ind; intros V.
  - reflexivity.
  - rewrite fold_left_app. simpl.
    assert (V' : forall x, In x events -> hasId id x = true ->
                           captureTime Date_parse x <> None).
    { intros x H. apply V. apply in_or_app. auto. }
    specialize (IH V').
    unfold contest at 1. unfold withId. rewrite filter_app. simpl.
    destruct (hasId id e) eqn:H.
    + destruct (captureTime Date_parse e) as [te|] eqn:Te.
      2:{ exfalso. apply (V e); auto. apply in_or_app. simpl. auto. }
      destruct (fold_left (contest Date_parse id) events None) as [w|].
      * destruct IH as (before & after & tw & E & Hw & Tw & B & A).
        rewrite Tw. simpl. destruct (tw <? te)%Z eqn:C.
        -- apply Z.ltb_lt in C.
           exists events, [], te. repeat split; auto.
           ++ intros x Hx Ix. rewrite E in Hx.
              apply in_app_or in Hx. destruct Hx as [Hx|[<-|Hx]].
              ** destruct (B x Hx Ix) as (t & Tx & L). exists t. split; auto. lia.
              ** exists tw. split; auto.
              ** destruct (A x Hx Ix) as (t & Tx & L). exists t. split; auto. lia.
           ++ intros x [].
        -- apply Z.ltb_ge in C.
           exists before, (after ++ [e]), tw. repeat split; auto.
           ++ rewrite E, <- app_assoc. reflexivity.
           ++ intros x Hx Ix. apply in_app_or in Hx.
              destruct Hx as [Hx|[<-|[]]]; auto.
              exists te. split; auto.
      * exists events, [], te. repeat split; auto.
        -- intros x Hx Ix. rewrite (withId_nil events x IH Hx) in Ix.
           discriminate.
        -- intros x [].
    + rewrite app_nil_r.
      destruct (fold_left (contest Date_parse id) events None) as [w|]; auto.
      destruct IH as (before & after & tw & E & Hw & Tw & B & A).
      exists before, (after ++ [e]), tw. repeat split; auto.
      * rewrite E, <- app_assoc. reflexivity.
      * intros x Hx Ix. apply in_app_or in Hx.
        destruct Hx as [Hx|[<-|[]]]; auto. congruence.
Qed.

(** In a map filed by identifier, the records with the identifier [id]
    are the entry of [id], if there is one. *)
Lemma withId_values (m : EventMap) :
  keyed m -> NoDup (map fst m) ->
  withId id (Map_values m)
  = match Map_get id m with
    | Some w => [w]
    | None => []
    end.
Proof.
  unfold Map_values, withId.
  induction m as [|[k v] m IH]; simpl; intros K N; auto.
  inversion N as [|? ? Hk N']; subst.
  assert (K' : keyed m) by (intros k' v' H; apply K; right; exact H).
  specialize (IH K' N').
  pose proof (K k v (or_introl eq_refl)) as U.
  apply usableId_nonBlank in U. destruct U as [U _].
  unfold hasId at 1. rewrite U.
  destruct (String.eqb_spec k id) as [->|D].
  - rewrite String.eqb_refl.
    apply Map_get_None in Hk. rewrite Hk in IH. rewrite IH. reflexivity.
  - destruct (String.eqb_spec id k); [congruence|]. exact IH.
Qed.

End LatestCapture.

(** C2 (as stated it fails).  Two records that share a blank identifier,
    captured at [T1 < T2]: none of them survives the identity pass.  And of
    two records with one identifier, the first with a capture time that
    does not parse, the first survives, whatever the time of the second. *)
Lemma blank_identifier_group_vanishes :
  let a := Sample.capture "  " "2025-09-09T23:00:00Z" in
  let b := Sample.capture "  " "2025-09-10T23:00:00Z" in
  let c := Sample.capture "Q-2" "yesterday" in
  let d := Sample.capture "Q-2" "2025-09-10T23:00:00Z" in
  (Raw.event_id a = Raw.event_id b
   /\ captureTime IsoHost.Date_parse a = Some 1757458800000%Z
   /\ captureTime IsoHost.Date_parse b = Some 1757545200000%Z
   /\ Map_values (identityPass IsoHost.Date_parse [a; b]) = [])
  /\ (Raw.event_id c = Raw.event_id d
      /\ captureTime IsoHost.Date_parse c = None
      /\ captureTime IsoHost.Date_parse d = Some 1757545200000%Z
      /\ Map_values (identityPass IsoHost.Date_parse [c; d]) = [c]).
Proof.
  intros a b c d.
  split; (split; [reflexivity|]); (split; [vm_compute; reflexivity|]);
    (split; vm_compute; reflexivity).
Qed.

(** C2 (amended).  For an identifier that is not blank and occurs in the
    input, with capture times that parse (an absent one counts as the
    epoch), exactly one record with that identifier survives the identity
    pass: the first of those with the latest capture time.  Of two records
    with that identifier captured at [T1 < T2], only the one captured at
    [T2] survives, in either order. *)
Theorem identity_pass_keeps_latest (Date_parse : string -> Date)
        (allEvents : list Raw.t) (id : string) :
  nonBlank (Text id) = true ->
  (withId id allEvents <> [] ->
   (forall e, In e allEvents -> hasId id e = true ->
              captureTime Date_parse e <> None) ->
   exists w,
     withId id (Map_values (identityPass Date_parse allEvents)) = [w]
     /\ firstLatest Date_parse id allEvents w)
  /\ (forall a b T1 T2,
         hasId id a = true -> hasId id b = true ->
         captureTime Date_parse a = Some T1 ->
         captureTime Date_parse b = Some T2 ->
         (T1 < T2)%Z ->
         Map_values (identityPass Date_parse [a; b]) = [b]
         /\ Map_values (identityPass Date_parse [b; a]) = [b]).
Proof.
  intros U. split.
  - intros NE V.
    rewrite (withId_values id (identityPass Date_parse allEvents)
                           (identityPass_keyed Date_parse allEvents)
                           (identityPass_NoDup Date_parse allEvents)).
    unfold identityPass.
    rewrite (Map_get_fold_identity Date_parse id U). simpl.
    pose proof (champion_spec Date_parse id allEvents V) as C.
    destruct (champion Date_parse id None allEvents) as [w|].
    + exists w. auto.
    + contradiction.
  - intros a b T1 T2 Ha Hb Ta Tb L.
    apply (hasId_usable id a U) in Ha. apply (hasId_usable id b U) in Hb.
    unfold captureTime in Ta, Tb.
    unfold identityPass, identityStep. simpl.
    rewrite Ha, Hb. simpl. rewrite String.eqb_refl.
    rewrite Ta, Tb. simpl.
    destruct (Z.ltb_spec T1 T2); [|lia].
    destruct (Z.ltb_spec T2 T1); [lia|].
    simpl. auto.
Qed.

Lemma identity_pass_keeps_latest_witness :
  let a := Sample.capture "Q-1" "2025-09-09T23:00:00Z" in
  let b := Sample.capture "Q-1" "2025-09-10T23:00:00Z" in
  nonBlank (Text "Q-1") = true
  /\ (exists w,
         withId "Q-1" (Map_values (identityPass IsoHost.Date_parse [b; a; b]))
         = [w]
         /\ firstLatest IsoHost.Date_parse "Q-1" [b; a; b] w)
  /\ Map_values (identityPass IsoHost.Date_parse [a; b]) = [b]
  /\ Map_values (identityPass IsoHost.Date_parse [b; a]) = [b].
Proof.
  intros a b.
  assert (U : nonBlank (Text "Q-1") = true) by reflexivity.
  split; [exact U|]. split.
  - apply (proj1 (identity_pass_keeps_latest IsoHost.Date_parse [b; a; b]
                                             "Q-1" U)).
    + discriminate.
    + intros e [<-|[<-|[<-|[]]]] _; vm_compute; discriminate.
  - apply (proj2 (identity_pass_keeps_latest IsoHost.Date_parse [a; b] "Q-1" U)
                 a b 1757458800000%Z 1757545200000%Z).
    + reflexivity.
    + reflexivity.
    + vm_compute. reflexivity.
    + vm_compute. reflexivity.
    + lia.
Defined.

(** ** The theorems at the sample records *)

Lemma risk_cluster_thresholds_witness :
  isRiskCluster IsoHost.Date_parse Sample.now (Sample.crowd 24 5) = false
  /\ List.length (filter (notOlderThanWeek IsoHost.Date_parse Sample.now)
                         (events (Sample.crowd 25 5))) = 5
  /\ isRiskCluster IsoHost.Date_parse Sample.now (Sample.crowd 25 5) = true.
Proof.
  destruct (risk_cluster_thresholds IsoHost.Date_parse Sample.now
                                    Sample.thirtyDaysAgo [])
    as (_ & Below & Rule).
  split; [apply Below; simpl; lia|].
  split; [vm_compute; reflexivity|].
  apply (Rule (Sample.crowd 25 5)).
  - intros member H. exists Sample.now.
    apply in_app_or in H.
    destruct H as [H|H]; apply repeat_spec in H; subst member;
      eexists; (split; [reflexivity|vm_compute; reflexivity]).
  - vm_compute. reflexivity.
  - vm_compute. reflexivity.
Defined.

(** Dates after the current time count.  Of the thirty members of
    [Alerts.ahead], one cluster of the risk pass, none has its event
    timestamp within the last seven days: twenty-five are older and five
    are dated the day after.  The cluster passes the rule all the
    same. *)
Lemma later_dates_count_for_the_week :
  let cluster := Alerts.ahead in
  riskPassClusters Sample.thirtyDaysAgo (events cluster) = [cluster]
  /\ List.length (events cluster) = 30
  /\ filter (withinLastWeek Sample.now) (events cluster) = []
  /\ isRiskCluster IsoHost.Date_parse Sample.now cluster = true
  /\ ~ (isRiskCluster IsoHost.Date_parse Sample.now cluster = true
        <-> 30 <= List.length (events cluster)
            /\ 5 <= List.length (filter (withinLastWeek Sample.now)
                                        (events cluster))).
Proof.
  intros cluster.
  assert (P : riskPassClusters Sample.thirtyDaysAgo (events cluster)
              = [cluster]) by (vm_compute; reflexivity).
  assert (N : filter (withinLastWeek Sample.now) (events cluster) = [])
    by (vm_compute; reflexivity).
  assert (R : isRiskCluster IsoHost.Date_parse Sample.now cluster = true)
    by (vm_compute; reflexivity).
  split; [exact P|]. split; [reflexivity|]. split; [exact N|].
  split; [exact R|].
  rewrite N. simpl. intros [H _]. destruct (H R) as [_ F]. lia.
Qed.

(** The five later dates of [Alerts.repaired] carry the doubled marker.
    The loader repairs it, so that their event timestamps are within the
    last seven days; the risk filter reads the text again as it came,
    and the cluster does not pass. *)
Example repaired_dates_miss_the_week :
  List.length (filter (withinLastWeek Sample.now) (events Alerts.repaired)) = 5
  /\ recentWeek IsoHost.Date_parse Sample.now Alerts.repaired = []
  /\ isRiskCluster IsoHost.Date_parse Sample.now Alerts.repaired = false.
Proof. repeat split; vm_compute; reflexivity. Qed.


Lemma preprocessing_keeps_titled_records_witness :
  let s := sanitize IsoHost.Date_parse Sample.now Sample.noLatitude in
  In s (preprocess IsoHost.Date_parse Sample.now
                   [Sample.nowhere; Sample.noLatitude])
  /\ Event.latitude s = zero
  /\ ~ In (Docs.convert IsoHost.Date_parse Sample.noLatitude)
          (Docs.preprocess IsoHost.Date_parse
                           [Sample.nowhere; Sample.noLatitude]).
Proof.
  intros s.
  destruct (preprocessing_keeps_titled_records
              IsoHost.Date_parse Sample.now
              [Sample.nowhere; Sample.noLatitude])
    as (_ & Kept & _ & _ & Earlier).
  destruct (Kept Sample.noLatitude) as (K & _ & Lat & _).
  - right. left. reflexivity.
  - reflexivity.
  - split; [exact K|]. split; [apply Lat; reflexivity|].
    destruct (Earlier Sample.noLatitude) as (Only & _).
    + right. left. reflexivity.
    + intros I. apply Only in I. destruct I as [N _].
      vm_compute in N. discriminate.
Defined.

Lemma content_pass_first_seen_witness :
  In Sample.fireB (contentPass [Sample.fireA; Sample.fireB]).
Proof.
  apply (proj2 (proj2 (proj2
           (content_pass_first_seen [Sample.fireA; Sample.fireB])))
           [Sample.fireA] Sample.fireB []).
  - reflexivity.
  - vm_compute. discriminate.
  - intros e [<-|[]]. destruct sample_fire_keys as [A B].
    rewrite A, B. discriminate.
Defined.

Lemma content_key_ignores_category_witness :
  contentPass [Sample.fireA; withCategory (Text "Flood") Sample.fireA]
  = [Sample.fireA].
Proof.
  apply (proj2 (proj2 (proj2 (proj2
           (content_key_ignores_category (Text "Flood") Sample.fireA))))).
  - vm_compute. discriminate.
  - reflexivity.
Defined.

Lemma loaded_events_identified_and_titled_witness :
  let e := sanitize IsoHost.Date_parse Sample.now Sample.fireA in
  (exists id, Event.event_id e = Text id /\ blank id = false)
  /\ (exists title, Event.event_title e = Text title /\ blank title = false).
Proof.
  intros e.
  apply (proj2 (proj2 (proj2
           (loaded_events_identified_and_titled
              IsoHost.Date_parse Sample.now
              [Sample.fireA; Sample.nowhere]
              [Sample.fireB; Sample.noLatitude; Sample.punctuation])))).
  vm_compute. left. reflexivity.
Defined.

(** A titled record can be dropped, and a malformed date can stay
    without the current time.  The earlier loader drops the record
    without a latitude, which the loader above keeps, and keeps a record
    whose title is white space; the loader above dates a titled record
    whose date is [null] at the epoch. *)
Lemma titled_record_dropped_for_a_coordinate :
  nonBlank (Raw.event_title Sample.noLatitude) = true
  /\ Docs.preprocess IsoHost.Date_parse
                     [Malformed.untitled; Sample.noLatitude]
     = [Docs.convert IsoHost.Date_parse Malformed.untitled]
  /\ List.length (preprocess IsoHost.Date_parse Sample.now
                             [Malformed.untitled; Sample.noLatitude]) = 1
  /\ nonBlank (Raw.event_title Malformed.undated) = true
  /\ map Event.event_date
         (preprocess IsoHost.Date_parse Sample.now
                     [Malformed.undated; Malformed.misdated])
     = [0%Z; Sample.now].
Proof. repeat split; vm_compute; reflexivity. Qed.

(** * Further properties of the script *)

(** ** The order of the loaded events *)


Lemma insertByDate_Permutation (e : Event.t) (l : list Event.t) :
  Permutation (e :: l) (insertByDate e l).
Proof.
  induction l as [|x l IH]; simpl; auto.
  destruct (Event.event_date e <=? Event.event_date x)%Z; auto.
  apply perm_trans with (x :: e :: l); [apply perm_swap|].
  apply perm_skip. exact IH.
Qed.

Lemma sortByDate_Permutation (l : list Event.t) :
  Permutation l (sortByDate l).
Proof.
  induction l as [|e l IH]; simpl; auto.
  apply perm_trans with (e :: sortByDate l); auto.
  apply insertByDate_Permutation.
Qed.

Lemma insertByDate_sorted (e : Event.t) (l : list Event.t) :
  StronglySorted byDate l -> StronglySorted byDate (insertByDate e l).
Proof.
  induction l as [|x l IH]; simpl; intros S.
  - constructor; constructor.
  - apply StronglySorted_inv in S. destruct S as [S F].
    destruct (Z.leb_spec (Event.event_date e) (Event.event_date x)) as [L|L].
    + constructor.
      * constructor; assumption.
      * constructor; [exact L|].
        apply Forall_impl with (P := byDate x); [|exact F].
        intros y Hy. unfold byDate in *. lia.
    + constructor; [apply IH; exact S|].
      apply Forall_forall. intros y Hy.
      apply (Permutation_in _ (Permutation_sym (insertByDate_Permutation e l)))
        in Hy.
      destruct Hy as [<-|Hy].
      * unfold byDate. lia.
      * rewrite Forall_forall in F. apply F. exact Hy.
Qed.

Lemma sortByDate_sorted (l : list Event.t) :
  StronglySorted byDate (sortByDate l).
Proof.
  induction l as [|e l IH]; simpl.
  - constructor.
  - apply insertByDate_sorted. exact IH.
Qed.

Lemma insertByDate_datedAt (d : Z) (e : Event.t) (l : list Event.t) :
  filter (datedAt d) (insertByDate e l) = filter (datedAt d) (e :: l).
Proof.
  induction l as [|x l IH]; simpl; auto.
  destruct (Z.leb_spec (Event.event_date e) (Event.event_date x)) as [L|L];
    auto.
  simpl. rewrite IH. simpl.
  unfold datedAt.
  destruct (Z.eqb_spec (Event.event_date e) d) as [E|N]; auto.
  destruct (Z.eqb_spec (Event.event_date x) d) as [E'|N']; auto.
  lia.
Qed.

Lemma sortByDate_datedAt (d : Z) (l : list Event.t) :
  filter (datedAt d) (sortByDate l) = filter (datedAt d) l.
Proof.
  induction l as [|e l IH]; simpl; auto.
  rewrite insertByDate_datedAt. simpl. rewrite IH. reflexivity.
Qed.

(** X1.  The loader leaves the events in chronological order: the loaded
    list is a rearrangement of the preprocessed events in which no event is
    dated before an earlier one, and events with one date keep the order
    the deduplication gave them. *)
Theorem loaded_events_chronological (Date_parse : string -> Date) (now : Z)
        (pastData mainData : list Raw.t) :
  let preprocessed :=
    preprocess Date_parse now (deduplicate Date_parse (pastData ++ mainData)) in
  let loaded := loadDisasterData Date_parse now pastData mainData in
  Permutation preprocessed loaded
  /\ StronglySorted byDate loaded
  /\ (forall d, filter (datedAt d) loaded = filter (datedAt d) preprocessed).
Proof.
  intros preprocessed loaded. unfold loaded, loadDisasterData.
  split; [apply sortByDate_Permutation|].
  split; [apply sortByDate_sorted|].
  intros d. apply sortByDate_datedAt.
Qed.

(** ** Identifiers of the loaded events *)

Lemma filter_keeps_distinct_keys {V K : Type} (key : V -> K)
      (keep : V -> bool) (vs : list V) (N : NoDup (map key vs)) :
  NoDup (map key (filter keep vs)).
Proof.
  induction vs as [|v vs IH]; simpl in *; [exact N|].
  inversion N as [|? ? Hv N']; subst.
  destruct (keep v); simpl; auto.
  constructor; auto.
  rewrite in_map_iff. intros (x & E & H).
  apply filter_In in H. apply Hv. rewrite <- E. apply in_map. tauto.
Qed.

Lemma values_event_id (m : EventMap) :
  keyed m -> map Raw.event_id (Map_values m) = map Text (map fst m).
Proof.
  unfold Map_values. induction m as [|[k v] m IH]; simpl; intros K; auto.
  f_equal.
  - specialize (K k v (or_introl eq_refl)).
    apply usableId_nonBlank in K. tauto.
  - apply IH. intros k' v' H. apply K. right. exact H.
Qed.

Lemma NoDup_map_Text (ids : list string) : NoDup ids -> NoDup (map Text ids).
Proof.
  induction 1 as [|k ids Hk N IH]; simpl; constructor; auto.
  rewrite in_map_iff. intros (x & E & H). inversion E; subst. contradiction.
Qed.

Lemma preprocessed_identifiers_distinct (Date_parse : string -> Date)
      (now : Z) (allEvents : list Raw.t) :
  NoDup (map Event.event_id
             (preprocess Date_parse now (deduplicate Date_parse allEvents))).
Proof.
  unfold preprocess. rewrite filter_map_comm, map_map.
  change (fun x => Event.event_id (sanitize Date_parse now x)) with Raw.event_id.
  apply filter_keeps_distinct_keys.
  unfold deduplicate. rewrite contentPass_loop.
  apply contentLoop_NoDup_map.
  rewrite values_event_id by apply identityPass_keyed.
  apply NoDup_map_Text. apply identityPass_NoDup.
Qed.

(** X2.  No two loaded events share an identifier. *)
Theorem loaded_identifiers_distinct (Date_parse : string -> Date) (now : Z)
        (pastData mainData : list Raw.t) :
  NoDup (map Event.event_id (loadDisasterData Date_parse now pastData mainData)).
Proof.
  unfold loadDisasterData.
  apply Permutation_NoDup
    with (l := map Event.event_id
                   (preprocess Date_parse now
                               (deduplicate Date_parse (pastData ++ mainData)))).
  - apply Permutation_map. apply sortByDate_Permutation.
  - apply preprocessed_identifiers_distinct.
Qed.

(** ** The order the identity pass gives *)

Lemma firstOccurrences_seen (seen seen' ids : list string) :
  (forall id, In id seen <-> In id seen') ->
  firstOccurrences seen ids = firstOccurrences seen' ids.
Proof.
  revert seen seen'. induction ids as [|id ids IH]; simpl; intros seen seen' E.
  - reflexivity.
  - assert (S : Set_has id seen = Set_has id seen').
    { apply eq_true_iff_eq. rewrite !Set_has_In. apply E. }
    rewrite S. destruct (Set_has id seen').
    + apply IH. exact E.
    + f_equal. apply IH. intros x. simpl. rewrite E. tauto.
Qed.

Section IdentityOrder.

Variable Date_parse : string -> Date.

Lemma fold_identity_keys (events : list Raw.t) (m : EventMap) :
  map fst (fold_left (identityStep Date_parse) events m)
  = map fst m ++ firstOccurrences (map fst m) (usableIds events).
Proof.
  revert m. induction events as [|e events IH]; simpl; intros m.
  - rewrite app_nil_r. reflexivity.
  - rewrite IH. unfold identityStep.
    destruct (usableId (Raw.event_id e)) as [id|]; simpl; auto.
    destruct (Map_get id m) as [existing|] eqn:G.
    + assert (S : Set_has id (map fst m) = true).
      { apply Set_has_In. destruct (in_dec string_dec id (map fst m)); auto.
        apply Map_get_None in n. congruence. }
      rewrite S.
      destruct (Date_gt _ _); auto.
      rewrite (Map_set_keys _ _ _ _ G). reflexivity.
    + assert (S : Set_has id (map fst m) = false).
      { destruct (Set_has id (map fst m)) eqn:S; auto.
        apply Set_has_In in S. apply Map_get_None in G. contradiction. }
      rewrite S, Map_set_new by exact G.
      rewrite map_app, <- app_assoc. simpl. do 2 f_equal.
      apply firstOccurrences_seen. intros x.
      rewrite in_app_iff. simpl. tauto.
Qed.

End IdentityOrder.

(** X3.  The identity pass lists the surviving records in the order in
    which their identifiers first occur in the input, whichever capture of
    an identifier survives. *)
Theorem identity_pass_order (Date_parse : string -> Date)
        (allEvents : list Raw.t) :
  map idKey (Map_values (identityPass Date_parse allEvents))
  = firstOccurrences [] (usableIds allEvents).
Proof.
  rewrite keyed_values by apply identityPass_keyed.
  unfold identityPass. rewrite fold_identity_keys. reflexivity.
Qed.

(** ** Archive and current feed *)

Lemma Date_gt_trans (a b c : Date) :
  Date_gt a b = true -> Date_gt b c = true -> Date_gt a c = true.
Proof.
  destruct a, b, c; simpl; try discriminate.
  rewrite !Z.ltb_lt. lia.
Qed.

Lemma champion_from (Date_parse : string -> Date) (id : string)
      (events : list Raw.t) (w : Raw.t) :
  exists r,
    champion Date_parse id (Some w) events = Some r
    /\ ((r = w
         /\ forall e, In e events -> hasId id e = true ->
                      Date_gt (captureTime Date_parse e)
                              (captureTime Date_parse w) = false)
        \/ (In r events /\ hasId id r = true
            /\ Date_gt (captureTime Date_parse r)
                       (captureTime Date_parse w) = true)).
Proof.
  unfold champion. revert w.
  induction events as [|e events IH]; simpl; intros w.
  - exists w. split; auto. left. split; auto. intros e [].
  - unfold contest at 2.
    destruct (hasId id e) eqn:H.
    + destruct (Date_gt (captureTime Date_parse e) (captureTime Date_parse w))
        eqn:G.
      * destruct (IH e) as (r & E & [[-> A]|(I & Hr & Gr)]).
        -- exists e. split; auto.
        -- exists r. split; auto. right. repeat split; auto.
           eapply Date_gt_trans; eauto.
      * destruct (IH w) as (r & E & [[-> A]|(I & Hr & Gr)]).
        -- exists w. split; auto. left. split; auto.
           intros x [<-|Hx] Ix; auto.
        -- exists r. split; auto.
    + destruct (IH w) as (r & E & [[-> A]|(I & Hr & Gr)]).
      * exists w. split; auto. left. split; auto.
        intros x [<-|Hx] Ix; auto. congruence.
      * exists r. split; auto.
Qed.

(** X4.  A record that the identity pass keeps from the archive
    ([past_events.json]) survives the merge with the current feed unless
    the feed holds a record of the same identifier with a strictly later
    capture time; then a record of the feed takes its place.  On equal
    capture times the archive copy stays. *)
Theorem archive_copy_replaced_only_by_newer (Date_parse : string -> Date)
        (pastData mainData : list Raw.t) (id : string) (w : Raw.t)
        (Hid : nonBlank (Text id) = true)
        (Hpast : Map_get id (identityPass Date_parse pastData) = Some w) :
  exists r,
    Map_get id (identityPass Date_parse (pastData ++ mainData)) = Some r
    /\ ((r = w
         /\ forall e, In e mainData -> hasId id e = true ->
                      Date_gt (captureTime Date_parse e)
                              (captureTime Date_parse w) = false)
        \/ (In r mainData /\ hasId id r = true
            /\ Date_gt (captureTime Date_parse r)
                       (captureTime Date_parse w) = true)).
Proof.
  unfold identityPass. rewrite fold_left_app.
  rewrite (Map_get_fold_identity Date_parse id Hid).
  fold (identityPass Date_parse pastData). rewrite Hpast.
  apply champion_from.
Qed.

Lemma archive_copy_replaced_only_by_newer_witness :
  exists r,
    Map_get "E-1"
            (identityPass IsoHost.Date_parse
               ([Sample.capture "E-1" "2025-09-02T00:00:00Z"]
                ++ [Sample.capture "E-1" "2025-09-02T00:00:00Z";
                    Sample.capture "E-1" "2025-09-01T00:00:00Z"]))
    = Some r
    /\ ((r = Sample.capture "E-1" "2025-09-02T00:00:00Z"
         /\ forall e,
              In e [Sample.capture "E-1" "2025-09-02T00:00:00Z";
                    Sample.capture "E-1" "2025-09-01T00:00:00Z"] ->
              hasId "E-1" e = true ->
              Date_gt (captureTime IsoHost.Date_parse e)
                      (captureTime IsoHost.Date_parse
                         (Sample.capture "E-1" "2025-09-02T00:00:00Z")) = false)
        \/ (In r [Sample.capture "E-1" "2025-09-02T00:00:00Z";
                  Sample.capture "E-1" "2025-09-01T00:00:00Z"]
            /\ hasId "E-1" r = true
            /\ Date_gt (captureTime IsoHost.Date_parse r)
                       (captureTime IsoHost.Date_parse
                          (Sample.capture "E-1" "2025-09-02T00:00:00Z")) = true)).
Proof.
  apply (archive_copy_replaced_only_by_newer IsoHost.Date_parse
           [Sample.capture "E-1" "2025-09-02T00:00:00Z"]
           [Sample.capture "E-1" "2025-09-02T00:00:00Z";
            Sample.capture "E-1" "2025-09-01T00:00:00Z"]
           "E-1" (Sample.capture "E-1" "2025-09-02T00:00:00Z")).
  - reflexivity.
  - reflexivity.
Defined.

(** ** Clusters *)

Lemma addToCluster_shape (radius : float) (event : Event.t)
      (clusters clusters' : list Cluster) :
  addToCluster radius event clusters = Some clusters' ->
  Permutation (members clusters') (event :: members clusters)
  /\ List.length clusters' = List.length clusters
  /\ (Forall (fun c => events c <> []) clusters ->
      Forall (fun c => events c <> []) clusters').
Proof.
  revert clusters'.
  induction clusters as [|c clusters IH]; simpl; intros clusters' H.
  - discriminate.
  - destruct (distance event c <=? radius)%float.
    + inversion H; subst. unfold members. simpl. repeat split.
      * rewrite <- app_assoc. simpl.
        apply Permutation_sym, Permutation_middle.
      * intros F. inversion F; subst. constructor; auto.
        simpl. destruct (events c); discriminate.
    + destruct (addToCluster radius event clusters) as [rest|]; simpl in H;
        [|discriminate].
      inversion H; subst.
      destruct (IH rest eq_refl) as (P & L & F).
      unfold members in *. simpl. repeat split.
      * apply Permutation_trans
          with (l' := events c ++ event :: flat_map events clusters).
        -- apply Permutation_app_head. exact P.
        -- apply Permutation_sym, Permutation_middle.
      * congruence.
      * intros G. inversion G; subst. constructor; auto.
Qed.

Lemma fold_clusterStep_shape (radius : float) (withCenter : bool)
      (evs : list Event.t) (clusters : list Cluster) :
  Forall (fun c => events c <> []) clusters ->
  let result := fold_left (clusterStep radius withCenter) evs clusters in
  Permutation (members result) (members clusters ++ evs)
  /\ Forall (fun c => events c <> []) result
  /\ List.length clusters <= List.length result
     <= List.length clusters + List.length evs.
Proof.
  revert clusters. induction evs as [|e evs IH]; simpl; intros clusters F.
  - rewrite app_nil_r. repeat split; auto; lia.
  - assert (S : Permutation (members (clusterStep radius withCenter clusters e))
                            (members clusters ++ [e])
                /\ Forall (fun c => events c <> [])
                          (clusterStep radius withCenter clusters e)
                /\ List.length clusters
                   <= List.length (clusterStep radius withCenter clusters e)
                   <= S (List.length clusters)).
    { unfold clusterStep.
      destruct (addToCluster radius e clusters) as [clusters'|] eqn:A.
      - destruct (addToCluster_shape _ _ _ _ A) as (P & L & G).
        repeat split; auto; try lia.
        apply Permutation_trans with (l' := e :: members clusters); auto.
        apply Permutation_cons_append.
      - rewrite members_app, length_app. simpl. repeat split; try lia.
        + unfold members at 2. simpl. apply Permutation_refl.
        + apply Forall_app. split; auto.
          constructor; [discriminate|constructor]. }
    destruct S as (P & G & L).
    destruct (IH _ G) as (P' & G' & L').
    repeat split; auto; try lia.
    apply Permutation_trans with (1 := P').
    change (e :: evs) with ([e] ++ evs). rewrite app_assoc.
    apply Permutation_app_tail. exact P.
Qed.

(** X5.  Both clustering passes put every event they are given into
    exactly one cluster: the members of the clusters are the events, each
    as often as it was given; no cluster is empty; so there are at most as
    many clusters as events, and none only when there is no event. *)
Theorem clustering_partitions_events (radius : float) (withCenter : bool)
        (evs : list Event.t) :
  let clusters := clusterEvents radius withCenter evs in
  Permutation (members clusters) evs
  /\ Forall (fun c => events c <> []) clusters
  /\ List.length clusters <= List.length evs
  /\ (clusters = [] <-> evs = []).
Proof.
  unfold clusterEvents.
  destruct (fold_clusterStep_shape radius withCenter evs [] (Forall_nil _))
    as (P & F & L).
  simpl in *. repeat split; auto; try lia.
  - intros E. rewrite E in P. simpl in P.
    apply Permutation_nil. exact P.
  - intros ->. reflexivity.
Qed.

(** ** The time of the last update *)

Section LastUpdateFacts.

Variable Date_parse : string -> Date.

Lemma falsy_is_epoch (v : text) :
  truthyText v = false -> newDateOrEpoch Date_parse v = Some 0%Z.
Proof.
  destruct v as [| |s]; simpl; auto. intros ->. reflexivity.
Qed.

Lemma truthy_newDate (v : text) :
  truthyText v = true -> newDate Date_parse v = newDateOrEpoch Date_parse v.
Proof.
  destruct v as [| |s]; simpl; try discriminate. intros ->. reflexivity.
Qed.

Lemma latestCrawlStep_latestOf (seen : list Event.t) (latest : text)
      (event : Event.t) :
  latestOf Date_parse seen latest ->
  latestOf Date_parse (seen ++ [event]) (latestCrawlStep Date_parse latest event).
Proof.
  intros (t & T & A & C).
  unfold latestCrawlStep. rewrite T.
  fold (crawlTime Date_parse event).
  destruct (Date_gt (crawlTime Date_parse event) (Some t)) eqn:G.
  - destruct (crawlTime Date_parse event) as [t'|] eqn:T'; [|discriminate].
    simpl in G. apply Z.ltb_lt in G.
    assert (P : (0 <= t)%Z) by (destruct C as [[_ ->]|(_ & C & _)]; lia).
    exists t'. unfold crawlTime in T'. split; [exact T'|]. split.
    + intros e H. apply in_app_or in H. destruct H as [H|[<-|[]]].
      * specialize (A e H). destruct (crawlTime Date_parse e); auto.
        simpl in *. apply Z.ltb_ge in A. apply Z.ltb_ge. lia.
      * unfold crawlTime. rewrite T'. simpl. apply Z.ltb_irrefl.
    + right.
      destruct (truthyText (Event.crawled_at event)) eqn:Y.
      * repeat split; [lia|]. exists event. split; auto.
        apply in_or_app. simpl. auto.
      * rewrite (falsy_is_epoch _ Y) in T'. inversion T'. lia.
  - exists t. split; auto. split.
    + intros e H. apply in_app_or in H. destruct H as [H|[<-|[]]]; auto.
    + destruct C as [C|(Y & P & e & H & E)]; auto.
      right. repeat split; auto. exists e. split; auto.
      apply in_or_app. auto.
Qed.

Lemma latestCrawl_latestOf (disasterEvents : list Event.t) :
  latestOf Date_parse disasterEvents (latestCrawl Date_parse disasterEvents).
Proof.
  unfold latestCrawl.
  induction disasterEvents as [|e l IH] using rev_ind.
  - exists 0%Z. simpl. repeat split; auto. intros e [].
  - rewrite fold_left_app. simpl. apply latestCrawlStep_latestOf. exact IH.
Qed.

End LastUpdateFacts.

(** X6.  What the dashboard shows as the time of the last update.  The
    text of the update file wins when it is not empty.  Without it and
    without events there is no data.  Otherwise the latest capture time of
    the events is shown, provided it is later than the epoch: a capture
    time that is missing, not readable or not after the epoch never
    counts, and when no event has a better one the time is reported as
    unknown.  The date shown is never an invalid one. *)
Theorem last_update_display (Date_parse : string -> Date)
        (lastUpdateTime : text) (disasterEvents : list Event.t) :
  match updateLastUpdateDisplay Date_parse lastUpdateTime disasterEvents with
  | UpdatedAt s => lastUpdateTime = Text s /\ s <> EmptyString
  | NoData => truthyText lastUpdateTime = false /\ disasterEvents = []
  | UpdateUnknown =>
      truthyText lastUpdateTime = false /\ disasterEvents <> []
      /\ forall e, In e disasterEvents ->
                   Date_gt (crawlTime Date_parse e) (Some 0%Z) = false
  | CrawledAt crawlDate =>
      truthyText lastUpdateTime = false
      /\ exists t,
           crawlDate = Some t /\ (0 < t)%Z
           /\ (exists e, In e disasterEvents
                         /\ crawlTime Date_parse e = Some t)
           /\ forall e, In e disasterEvents ->
                        Date_gt (crawlTime Date_parse e) (Some t) = false
  end.
Proof.
  assert (B : truthyText lastUpdateTime = false ->
              match match disasterEvents with
                    | [] => NoData
                    | _ :: _ =>
                        if truthyText (latestCrawl Date_parse disasterEvents)
                        then CrawledAt
                               (newDate Date_parse
                                        (latestCrawl Date_parse disasterEvents))
                        else UpdateUnknown
                    end with
              | UpdatedAt s => lastUpdateTime = Text s /\ s <> EmptyString
              | NoData => truthyText lastUpdateTime = false /\ disasterEvents = []
              | UpdateUnknown =>
                  truthyText lastUpdateTime = false /\ disasterEvents <> []
                  /\ forall e, In e disasterEvents ->
                               Date_gt (crawlTime Date_parse e) (Some 0%Z) = false
              | CrawledAt crawlDate =>
                  truthyText lastUpdateTime = false
                  /\ exists t,
                       crawlDate = Some t /\ (0 < t)%Z
                       /\ (exists e, In e disasterEvents
                                     /\ crawlTime Date_parse e = Some t)
                       /\ forall e, In e disasterEvents ->
                                    Date_gt (crawlTime Date_parse e) (Some t)
                                    = false
              end).
  { intros F.
    pose proof (latestCrawl_latestOf Date_parse disasterEvents) as L.
    destruct disasterEvents as [|e0 l]; [auto|].
    destruct L as (t & T & A & [[Y ->]|(Y & P & W)]); rewrite Y.
    - repeat split; auto. discriminate.
    - split; auto. exists t. rewrite (truthy_newDate _ _ Y). auto. }
  unfold updateLastUpdateDisplay.
  destruct lastUpdateTime as [| |s]; try (apply B; reflexivity).
  destruct (JsString.nonEmpty s) eqn:N.
  - split; auto. intros ->. discriminate.
  - apply B. exact N.
Qed.

(** ** The alert *)

Lemma fold_riskier (rest before mid : list Cluster) (acc : Cluster) :
  (forall c, In c before ->
             List.length (events c) < List.length (events acc)) ->
  (forall c, In c mid ->
             List.length (events c) <= List.length (events acc)) ->
  exists before' after,
    before ++ acc :: mid ++ rest
    = before' ++ fold_left riskier rest acc :: after
    /\ (forall c, In c before' ->
                  List.length (events c)
                  < List.length (events (fold_left riskier rest acc)))
    /\ (forall c, In c after ->
                  List.length (events c)
                  <= List.length (events (fold_left riskier rest acc))).
Proof.
  revert before mid acc.
  induction rest as [|c rest IH]; simpl; intros before mid acc B M.
  - exists before, mid. rewrite app_nil_r. auto.
  - unfold riskier at 2 4 6.
    destruct (List.length (events acc) <? List.length (events c)) eqn:C.
    + apply Nat.ltb_lt in C.
      destruct (IH (before ++ acc :: mid) [] c) as (b & a & E & Hb & Ha).
      { intros x H. apply in_app_or in H. destruct H as [H|[<-|H]].
        - specialize (B x H). lia.
        - exact C.
        - specialize (M x H). lia. }
      { intros x []. }
      exists b, a. rewrite <- E, <- app_assoc. simpl. auto.
    + apply Nat.ltb_ge in C.
      destruct (IH before (mid ++ [c]) acc B) as (b & a & E & Hb & Ha).
      { intros x H. apply in_app_or in H. destruct H as [H|[<-|[]]]; auto. }
      exists b, a. rewrite <- E, <- app_assoc. simpl. auto.
Qed.

(** X7.  The cluster the alert describes is the first of the largest risk
    clusters: every risk cluster before it has fewer events, and none
    after it has more. *)
Theorem most_risky_is_first_largest (first : Cluster) (rest : list Cluster) :
  exists mostRisky before after,
    mostRiskyCluster (first :: rest) = Some mostRisky
    /\ first :: rest = before ++ mostRisky :: after
    /\ (forall c, In c before ->
                  List.length (events c) < List.length (events mostRisky))
    /\ (forall c, In c after ->
                  List.length (events c) <= List.length (events mostRisky)).
Proof.
  destruct (fold_riskier rest [] [] first) as (b & a & E & Hb & Ha);
    try (intros c []).
  exists (fold_left riskier rest first), b, a. simpl in E. auto.
Qed.

(** X8.  The alert draws as many markers as there are risk clusters: one
    for the most risky cluster, and one for every risk cluster but the
    first of the list.  When the first cluster is among the largest, every
    risk cluster has its marker.  When a later cluster is larger, the most
    risky cluster is drawn twice and the first cluster, which is smaller,
    has no call of its own. *)
Theorem risk_markers_skip_first_cluster (first : Cluster)
        (rest : list Cluster) :
  let riskClusters := first :: rest in
  List.length (riskMarkers riskClusters) = List.length riskClusters
  /\ ((forall c, In c rest ->
                 List.length (events c) <= List.length (events first)) ->
      markedClusters riskClusters = riskClusters)
  /\ ((exists c, In c rest
                 /\ List.length (events first) < List.length (events c)) ->
      exists mostRisky,
        markedClusters riskClusters = mostRisky :: rest
        /\ In mostRisky rest
        /\ List.length (events first) < List.length (events mostRisky)).
Proof.
  unfold riskMarkers, markedClusters. simpl.
  destruct (fold_riskier rest [] [] first) as (b & a & E & Hb & Ha);
    try (intros c []).
  simpl in E. split; [|split].
  - rewrite length_map. reflexivity.
  - intros H. f_equal.
    destruct b as [|x b]; simpl in E.
    + injection E as E1 E2. rewrite <- E1. reflexivity.
    + exfalso. injection E as E1 E2.
      assert (I : In (fold_left riskier rest first)
                     (b ++ fold_left riskier rest first :: a)).
      { apply in_or_app. simpl. auto. }
      rewrite <- E2 in I.
      specialize (H _ I). specialize (Hb x (or_introl eq_refl)).
      rewrite <- E1 in Hb. lia.
  - intros (c & I & L).
    exists (fold_left riskier rest first). split; auto.
    destruct b as [|x b]; simpl in E.
    + exfalso. injection E as E1 E2.
      rewrite <- E1 in Ha. rewrite <- E2 in Ha. specialize (Ha c I). lia.
    + injection E as E1 E2. split.
      * assert (I' : In (fold_left riskier rest first)
                        (b ++ fold_left riskier rest first :: a)).
        { apply in_or_app. simpl. auto. }
        rewrite <- E2 in I'. exact I'.
      * specialize (Hb x (or_introl eq_refl)). rewrite <- E1 in Hb. exact Hb.
Qed.

(** ** The time slider *)

Lemma selection_all (data : list Event.t) : selection data data.
Proof.
  exists (fun _ => true). induction data as [|e l IH]; simpl; congruence.
Qed.

Lemma selection_none (data : list Event.t) : selection [] data.
Proof.
  exists (fun _ => false). induction data as [|e l IH]; simpl; auto.
Qed.

Lemma selection_filter (keep : Event.t -> bool) (shown data : list Event.t) :
  selection shown data -> selection (filter keep shown) data.
Proof.
  intros (k & ->). exists (fun e => k e && keep e).
  induction data as [|e l IH]; simpl; auto.
  destruct (k e); simpl; [|exact IH].
  destruct (keep e); simpl; congruence.
Qed.

Lemma selection_sorted (R : Event.t -> Event.t -> Prop)
      (shown data : list Event.t) :
  selection shown data -> StronglySorted R data -> StronglySorted R shown.
Proof.
  intros (k & ->). induction 1 as [|e l S IH F]; simpl.
  - constructor.
  - destruct (k e); auto. constructor; auto.
    rewrite Forall_forall in *. intros x H.
    apply filter_In in H. apply F. tauto.
Qed.

Lemma selection_In (shown data : list Event.t) (e : Event.t) :
  selection shown data -> In e shown -> In e data.
Proof. intros (k & ->) H. apply filter_In in H. tauto. Qed.

Lemma Array_at_In {A : Type} (l : list A) (x : float) (a : A) :
  Array_at l x = Some a -> In a l.
Proof.
  unfold Array_at. destruct (toIndex x) as [i|]; [|discriminate].
  destruct (i <? Z.of_nat (List.length l))%Z; [|discriminate].
  apply nth_error_In.
Qed.

(** The events the slider leaves, when there are events. *)
Lemma applyTimeSlider_cases (p : float) (first : Event.t)
      (rest filteredData : list Event.t) :
  let shown := applyTimeSlider p (first :: rest) filteredData in
  shown = first :: rest
  \/ shown = []
  \/ exists cutoff,
       In cutoff (first :: rest)
       /\ shown = filter (notAfter cutoff) (first :: rest).
Proof.
  unfold applyTimeSlider.
  destruct (p =? 100)%float; auto.
  destruct (0 <? _)%float; auto.
  destruct (Array_at _ (_ - 1)%float) as [cutoff|] eqn:C; auto.
  destruct (Array_at _ 0%float); auto.
  right. right. exists cutoff. split; auto.
  apply Array_at_In in C. apply (proj1 (In_sortByDate _ _)) in C. exact C.
Qed.

Lemma applyTimeSlider_selection (p : float) (first : Event.t)
      (rest filteredData : list Event.t) :
  selection (applyTimeSlider p (first :: rest) filteredData) (first :: rest).
Proof.
  destruct (applyTimeSlider_cases p first rest filteredData)
    as [->|[->|(c & _ & ->)]].
  - apply selection_all.
  - apply selection_none.
  - eexists. reflexivity.
Qed.

(** X9.  The time slider shows the events up to a date.  Whatever the
    position of the slider, the events it leaves are all the events, none,
    or the events dated no later than one of them; so an event is never
    shown without the events dated before it.  At 100 all events are
    shown.  Without events the function leaves the displayed events as
    they were. *)
Theorem time_slider_shows_earliest_events (sliderValuePercent : float)
        (first : Event.t) (rest filteredData : list Event.t) :
  let disasterEvents := first :: rest in
  let shown := applyTimeSlider sliderValuePercent disasterEvents filteredData in
  (shown = disasterEvents
   \/ shown = []
   \/ exists cutoff,
        In cutoff disasterEvents
        /\ shown = filter (notAfter cutoff) disasterEvents)
  /\ (forall e e', In e shown -> In e' disasterEvents ->
                   (Event.event_date e' <= Event.event_date e)%Z ->
                   In e' shown)
  /\ ((sliderValuePercent =? 100)%float = true -> shown = disasterEvents)
  /\ applyTimeSlider sliderValuePercent [] filteredData = filteredData.
Proof.
  intros disasterEvents shown.
  pose proof (applyTimeSlider_cases sliderValuePercent first rest filteredData)
    as C.
  fold disasterEvents shown in C.
  split; [exact C|]. split; [|split].
  - intros e e' H H' L.
    destruct C as [->|[E|(c & _ & E)]]; auto; rewrite E in *.
    + destruct H.
    + apply filter_In in H. apply filter_In. split; auto.
      unfold notAfter in *. destruct H as [_ H].
      apply Z.leb_le in H. apply Z.leb_le. lia.
  - intros P. unfold shown, applyTimeSlider, disasterEvents.
    rewrite P. reflexivity.
  - reflexivity.
Qed.

Lemma sorted_prefix_notAfter (l : list Event.t) (i : nat) (cutoff : Event.t) :
  StronglySorted byDate l -> nth_error l i = Some cutoff ->
  S i <= List.length (filter (notAfter cutoff) l).
Proof.
  intros S. revert i. induction S as [|e l S IH F]; intros i H.
  - destruct i; discriminate.
  - destruct i as [|i]; simpl in H.
    + inversion H; subst. simpl. unfold notAfter at 1.
      rewrite Z.leb_refl. simpl. lia.
    + specialize (IH i H). simpl.
      assert (N : notAfter cutoff e = true).
      { apply nth_error_In in H. rewrite Forall_forall in F.
        apply Z.leb_le. apply (F cutoff H). }
      rewrite N. simpl. lia.
Qed.

Lemma Permutation_filter_length (keep : Event.t -> bool)
      (l l' : list Event.t) :
  Permutation l l' ->
  List.length (filter keep l) = List.length (filter keep l').
Proof.
  induction 1 as [|x l l' P IH|x y l|l l' l'' P1 IH1 P2 IH2]; simpl; auto.
  - destruct (keep x); simpl; congruence.
  - destruct (keep x), (keep y); reflexivity.
  - congruence.
Qed.

(** X10.  Below 100, when the slider asks for [k] events, the cut is the
    date of the [k]-th event in chronological order: the events shown are
    those dated no later than it, so there are at least [k] of them, more
    when later events share that date. *)
Theorem time_slider_cutoff (sliderValuePercent : float)
        (disasterEvents filteredData : list Event.t) (i : nat)
        (cutoff : Event.t)
        (Hbelow : (sliderValuePercent =? 100)%float = false)
        (Hsome : (0 <? eventsToShow sliderValuePercent
                                    (List.length disasterEvents))%float = true)
        (Hindex : toIndex (eventsToShow sliderValuePercent
                                        (List.length disasterEvents) - 1)%float
                  = Some (Z.of_nat i))
        (Hcutoff : nth_error (sortByDate disasterEvents) i = Some cutoff) :
  let shown := applyTimeSlider sliderValuePercent disasterEvents filteredData in
  shown = filter (notAfter cutoff) disasterEvents
  /\ S i <= List.length shown
  /\ In cutoff shown.
Proof.
  intros shown.
  assert (L : i < List.length (sortByDate disasterEvents)).
  { apply nth_error_Some. rewrite Hcutoff. discriminate. }
  assert (E : shown = filter (notAfter cutoff) disasterEvents).
  { unfold shown, applyTimeSlider.
    destruct disasterEvents as [|first rest]; [simpl in L; lia|].
    rewrite Hbelow, Hsome.
    unfold Array_at at 1. rewrite Hindex.
    assert (B : (Z.of_nat i <? Z.of_nat
                   (List.length (sortByDate (first :: rest))))%Z = true)
      by (apply Z.ltb_lt; lia).
    rewrite B, Nat2Z.id, Hcutoff.
    destruct (Array_at (sortByDate (first :: rest)) 0%float) eqn:Z0; auto.
    exfalso. unfold Array_at in Z0. simpl toIndex in Z0.
    destruct (sortByDate (first :: rest)) eqn:S0; [simpl in L; lia|].
    simpl in Z0. discriminate. }
  split; [exact E|]. rewrite E. split.
  - rewrite (Permutation_filter_length _ _ _
               (sortByDate_Permutation disasterEvents)).
    apply sorted_prefix_notAfter; auto. apply sortByDate_sorted.
  - apply filter_In. split.
    + apply nth_error_In in Hcutoff.
      apply (proj1 (In_sortByDate _ _)). exact Hcutoff.
    + apply Z.leb_refl.
Qed.

(** ** Sorting the table *)

Section StableSort.

Context {A : Type}.
Variable compare : A -> A -> Z.

Lemma insertWith_Permutation (e : A) (l : list A) :
  Permutation (e :: l) (insertWith compare e l).
Proof.
  induction l as [|x l IH]; simpl; auto.
  destruct (compare e x <=? 0)%Z; auto.
  apply perm_trans with (l' := x :: e :: l); [apply perm_swap|].
  apply perm_skip. exact IH.
Qed.

Lemma sortWith_Permutation (l : list A) : Permutation l (sortWith compare l).
Proof.
  induction l as [|e l IH]; simpl; auto.
  apply perm_trans with (l' := e :: sortWith compare l); auto.
  apply insertWith_Permutation.
Qed.

(** Data that are in order stay as they are. *)
Lemma sortWith_ordered (l : list A) :
  StronglySorted (fun a b => (compare a b <= 0)%Z) l -> sortWith compare l = l.
Proof.
  induction 1 as [|e l S IH F]; simpl; auto.
  rewrite IH. destruct l as [|x l]; simpl; auto.
  inversion F as [|? ? Hx _]; subst.
  apply Z.leb_le in Hx. rewrite Hx. reflexivity.
Qed.

Hypothesis compare_antisym : forall a b, compare a b = (- compare b a)%Z.
Hypothesis compare_trans :
  forall a b c, (compare a b <= 0 -> compare b c <= 0 -> compare a c <= 0)%Z.

Lemma insertWith_sorted (e : A) (l : list A) :
  StronglySorted (fun a b => (compare a b <= 0)%Z) l ->
  StronglySorted (fun a b => (compare a b <= 0)%Z) (insertWith compare e l).
Proof.
  induction 1 as [|x l S IH F]; simpl.
  - repeat constructor.
  - destruct (compare e x <=? 0)%Z eqn:C.
    + apply Z.leb_le in C. constructor.
      * constructor; auto.
      * constructor; auto.
        rewrite Forall_forall in *. intros y H.
        apply compare_trans with (b := x); auto.
    + apply Z.leb_gt in C. constructor; auto.
      rewrite Forall_forall in *. intros y H.
      apply (Permutation_in _ (Permutation_sym (insertWith_Permutation e l)))
        in H.
      destruct H as [<-|H]; auto.
      rewrite compare_antisym. lia.
Qed.

Lemma sortWith_sorted (l : list A) :
  StronglySorted (fun a b => (compare a b <= 0)%Z) (sortWith compare l).
Proof.
  induction l as [|e l IH]; simpl.
  - constructor.
  - apply insertWith_sorted. exact IH.
Qed.

(** The elements that compare equal to [k] keep their order. *)
Lemma insertWith_stable (k e : A) (l : list A) :
  filter (fun x => (compare x k =? 0)%Z) (insertWith compare e l)
  = filter (fun x => (compare x k =? 0)%Z) (e :: l).
Proof.
  induction l as [|x l IH]; simpl; auto.
  destruct (compare e x <=? 0)%Z eqn:C; auto.
  apply Z.leb_gt in C. simpl in *. rewrite IH.
  destruct (compare e k =? 0)%Z eqn:E; auto.
  destruct (compare x k =? 0)%Z eqn:X; auto.
  exfalso. apply Z.eqb_eq in E, X.
  assert (K : (compare k x <= 0)%Z) by (rewrite compare_antisym; lia).
  assert (T : (compare e x <= 0)%Z).
  { apply compare_trans with (b := k); auto. lia. }
  lia.
Qed.

Lemma sortWith_stable (k : A) (l : list A) :
  filter (fun x => (compare x k =? 0)%Z) (sortWith compare l)
  = filter (fun x => (compare x k =? 0)%Z) l.
Proof.
  induction l as [|e l IH]; simpl; auto.
  rewrite insertWith_stable. simpl. rewrite IH. reflexivity.
Qed.

End StableSort.

Lemma SFltb_asym (x y : spec_float) : SFltb x y = true -> SFltb y x = false.
Proof.
  unfold SFltb.
  destruct x as [sx|sx| |sx mx ex], y as [sy|sy| |sy my ey];
    simpl; try discriminate; auto;
    try (destruct sx; simpl; try discriminate; auto);
    try (destruct sy; simpl; try discriminate; auto).
  all: change (PosDef.Pos.compare_cont Eq) with Pos.compare.
  all: repeat match goal with
              | |- context [(?a ?= ?b)%Z] => destruct (Z.compare_spec a b)
              end; try lia; simpl; try discriminate; auto.
  all: repeat match goal with
              | |- context [(?a ?= ?b)%positive] =>
                  destruct (Pos.compare_spec a b)
              end; simpl; try discriminate; auto; lia.
Qed.

(** On numbers, [x <= y] and [y <= z], said with [<], give [x <= z]. *)
Lemma SFltb_false_trans (x y z : spec_float) :
  x <> S754_nan -> y <> S754_nan -> z <> S754_nan ->
  SFltb y x = false -> SFltb z y = false -> SFltb z x = false.
Proof.
  unfold SFltb.
  destruct x as [sx|sx| |sx mx ex], y as [sy|sy| |sy my ey],
           z as [sz|sz| |sz mz ez];
    simpl; try congruence; auto;
    try (destruct sx; simpl; try discriminate; auto);
    try (destruct sy; simpl; try discriminate; auto);
    try (destruct sz; simpl; try discriminate; auto).
  all: intros _ _ _.
  all: change (PosDef.Pos.compare_cont Eq) with Pos.compare.
  all: repeat match goal with
              | |- context [(?a ?= ?b)%Z] => destruct (Z.compare_spec a b)
              end; try lia; simpl; try discriminate; auto.
  all: repeat match goal with
              | |- context [(?a ?= ?b)%positive] =>
                  destruct (Pos.compare_spec a b)
              end; simpl; try discriminate; auto; lia.
Qed.

Lemma time_slider_cutoff_witness :
  let shown := applyTimeSlider 50%float Scenario.events [] in
  shown = filter (notAfter (Scenario.loaded Scenario.quake)) Scenario.events
  /\ 2 <= List.length shown
  /\ In (Scenario.loaded Scenario.quake) shown.
Proof.
  apply (time_slider_cutoff 50%float Scenario.events [] 1
                            (Scenario.loaded Scenario.quake));
    vm_compute; reflexivity.
Defined.

Lemma not_nan_SF (x : float) : is_nan x = false -> Prim2SF x <> S754_nan.
Proof.
  unfold is_nan. rewrite eqb_spec. intros H E. rewrite E in H. discriminate.
Qed.

Lemma numberOrZero_not_nan (x : float) : is_nan (numberOrZero x) = false.
Proof.
  unfold numberOrZero, JsNumber.truthy.
  destruct (is_zero x); simpl; [reflexivity|].
  destruct (is_nan x) eqn:N; simpl; auto.
Qed.

Lemma compareKeys_antisym (a b : SortKey) :
  compareKeys a b = (- compareKeys b a)%Z.
Proof.
  destruct a as [x|x|s], b as [y|y|t]; simpl; auto.
  - destruct (Z.ltb_spec y x), (Z.ltb_spec x y); lia.
  - destruct (y <? x)%float eqn:G.
    + rewrite ltb_spec in G. apply SFltb_asym in G.
      rewrite <- ltb_spec in G. rewrite G. reflexivity.
    + destruct (x <? y)%float; reflexivity.
  - rewrite String.compare_antisym.
    destruct (String.compare t s); reflexivity.
Qed.

Lemma compareKeys_trans (a b c : SortKey) :
  keyKind a = keyKind b -> keyKind b = keyKind c ->
  properKey a = true -> properKey b = true -> properKey c = true ->
  (compareKeys a b <= 0)%Z -> (compareKeys b c <= 0)%Z ->
  (compareKeys a c <= 0)%Z.
Proof.
  destruct a as [x|x|s], b as [y|y|t], c as [z|z|u]; simpl;
    try discriminate; intros _ _ Pa Pb Pc.
  - destruct (Z.ltb_spec y x), (Z.ltb_spec x y), (Z.ltb_spec z y),
      (Z.ltb_spec y z), (Z.ltb_spec z x), (Z.ltb_spec x z); lia.
  - apply negb_true_iff in Pa, Pb, Pc.
    apply not_nan_SF in Pa, Pb, Pc.
    destruct (y <? x)%float eqn:G1; [lia|].
    destruct (z <? y)%float eqn:G2; [destruct (x <? y)%float; lia|].
    intros _ _.
    rewrite ltb_spec in G1, G2.
    pose proof (SFltb_false_trans _ _ _ Pa Pb Pc G1 G2) as G3.
    rewrite <- ltb_spec in G3. rewrite G3.
    destruct (x <? z)%float; lia.
  - destruct (String.compare s t) eqn:C1; try lia;
      destruct (String.compare t u) eqn:C2; try lia; intros _ _.
    + apply String.compare_eq_iff in C1, C2. subst.
      pose proof (proj2 (OrderedTypeEx.String_as_OT.cmp_eq u u) eq_refl) as C3.
      change OrderedTypeEx.String_as_OT.cmp with String.compare in C3.
      rewrite C3. lia.
    + apply String.compare_eq_iff in C1. subst. rewrite C2. lia.
    + apply String.compare_eq_iff in C2. subst. rewrite C1. lia.
    + apply OrderedTypeEx.String_as_OT.cmp_lt in C1, C2.
      pose proof (OrderedTypeEx.String_as_OT.lt_trans _ _ _ C1 C2) as C3.
      apply OrderedTypeEx.String_as_OT.cmp_lt in C3.
      change OrderedTypeEx.String_as_OT.cmp with String.compare in C3. rewrite C3. lia.
Qed.

Section ComparatorFacts.

Variable parseInt : string -> float.

Lemma sortKey_kind (column : Column) (a b : Event.t) :
  keyKind (sortKey parseInt column a) = keyKind (sortKey parseInt column b).
Proof.
  destruct column; simpl; auto.
  destruct (Event.event_id a), (Event.event_id b); reflexivity.
Qed.

Lemma sortKey_proper (column : Column) (a : Event.t) :
  properKey (sortKey parseInt column a) = true.
Proof.
  destruct column; simpl; auto;
    try (rewrite numberOrZero_not_nan; reflexivity).
  destruct (Event.event_id a); simpl; auto.
  rewrite numberOrZero_not_nan. reflexivity.
Qed.

Lemma comparator_antisym (column : Column) (direction : Direction)
      (a b : Event.t) :
  comparator parseInt column direction a b
  = (- comparator parseInt column direction b a)%Z.
Proof.
  unfold comparator.
  rewrite (compareKeys_antisym (sortKey parseInt column a)).
  destruct direction; lia.
Qed.

Lemma comparator_trans (column : Column) (direction : Direction)
      (a b c : Event.t) :
  (comparator parseInt column direction a b <= 0)%Z ->
  (comparator parseInt column direction b c <= 0)%Z ->
  (comparator parseInt column direction a c <= 0)%Z.
Proof.
  unfold comparator. destruct direction; intros H1 H2.
  - apply compareKeys_trans with (b := sortKey parseInt column b);
      auto using sortKey_kind, sortKey_proper.
  - rewrite (compareKeys_antisym (sortKey parseInt column a)) in *.
    rewrite (compareKeys_antisym (sortKey parseInt column b)) in H2.
    assert (T : (compareKeys (sortKey parseInt column c)
                             (sortKey parseInt column a) <= 0)%Z).
    { apply compareKeys_trans with (b := sortKey parseInt column b);
        auto using sortKey_kind, sortKey_proper; lia. }
    lia.
Qed.

Lemma sortData_Permutation (column : Column) (direction : Direction)
      (data sorted : list Event.t) :
  sortData parseInt column direction data = Some sorted ->
  Permutation data sorted.
Proof.
  unfold sortData. destruct (sortThrows column data); [discriminate|].
  intros H. inversion H; subst. apply sortWith_Permutation.
Qed.

End ComparatorFacts.

(** X11.  Sorting the table puts the displayed events in the order of the
    column: the rows are the displayed events, none added or lost, no row
    has to follow a later one, and events that compare equal keep the
    order they were displayed in.  This holds for every column and both
    directions. *)
Theorem sorted_table_order (parseInt : string -> float) (column : Column)
        (direction : Direction) (data sorted : list Event.t)
        (Hsorted : sortData parseInt column direction data = Some sorted) :
  let compare := comparator parseInt column direction in
  Permutation data sorted
  /\ StronglySorted (fun a b => (compare a b <= 0)%Z) sorted
  /\ forall k, filter (fun x => (compare x k =? 0)%Z) sorted
               = filter (fun x => (compare x k =? 0)%Z) data.
Proof.
  intros compare.
  split; [eapply sortData_Permutation; eauto|].
  unfold sortData in Hsorted.
  destruct (sortThrows column data); [discriminate|].
  inversion Hsorted; subst. split.
  - apply sortWith_sorted.
    + apply comparator_antisym.
    + apply comparator_trans.
  - intros k. apply sortWith_stable.
    + apply comparator_antisym.
    + apply comparator_trans.
Qed.

Lemma sorted_table_order_witness :
  let compare :=
    comparator Scenario.parseInt event_title_column Desc in
  let sorted :=
    map Scenario.loaded
        [Scenario.slide; Scenario.flood; Scenario.fire; Scenario.quake] in
  Permutation Scenario.events sorted
  /\ StronglySorted (fun a b => (compare a b <= 0)%Z) sorted
  /\ forall k, filter (fun x => (compare x k =? 0)%Z) sorted
               = filter (fun x => (compare x k =? 0)%Z) Scenario.events.
Proof.
  apply (sorted_table_order Scenario.parseInt event_title_column Desc
                            Scenario.events).
  vm_compute. reflexivity.
Defined.

Lemma date_comparator (parseInt : string -> float) (a b : Event.t) :
  (comparator parseInt event_date_column Asc a b <= 0)%Z <-> byDate a b.
Proof.
  unfold comparator, byDate. simpl.
  destruct (Z.ltb_spec (Event.event_date b) (Event.event_date a)),
    (Z.ltb_spec (Event.event_date a) (Event.event_date b)); lia.
Qed.

Lemma chronological_sort_by_date (parseInt : string -> float)
      (data : list Event.t) :
  StronglySorted byDate data ->
  sortData parseInt event_date_column Asc data = Some data.
Proof.
  intros S. unfold sortData. simpl. f_equal.
  apply sortWith_ordered.
  induction S as [|e l S IH F]; constructor; auto.
  rewrite Forall_forall in *. intros x H.
  apply date_comparator. auto.
Qed.

(** X12.  The events come from the loader in chronological order and
    every filter keeps their order, so a click on the header of the date
    column, which asks for the ascending order, leaves the rows as they
    are. *)
Theorem sorting_by_date_keeps_the_rows (Date_parse : string -> Date)
        (parseInt : string -> float) (now : Z)
        (pastData mainData : list Raw.t) (keep : Event.t -> bool) :
  let displayed :=
    filter keep (loadDisasterData Date_parse now pastData mainData) in
  sortData parseInt event_date_column Asc displayed = Some displayed.
Proof.
  intros displayed. apply chronological_sort_by_date.
  apply selection_sorted
    with (data := loadDisasterData Date_parse now pastData mainData).
  - exists keep. reflexivity.
  - apply sortByDate_sorted.
Qed.

(** ** The views *)

Lemma insertRows_spec (data : list Event.t) (index : nat) :
  insertRows index data
  = if forallb hasCategory data then Some (rowsFrom index data) else None.
Proof.
  revert index. induction data as [|e l IH]; simpl; intros index; auto.
  destruct (hasCategory e); simpl; auto.
  rewrite IH. destruct (forallb hasCategory l); reflexivity.
Qed.

Lemma addMarkers_spec (data : list Event.t) :
  addMarkers data
  = if forallb hasCategory (filter Event.hasValidCoords data)
    then Some (markersFor data) else None.
Proof.
  unfold markersFor. induction data as [|e l IH]; simpl; auto.
  destruct (Event.hasValidCoords e); simpl; auto.
  destruct (hasCategory e); simpl; auto.
  rewrite IH.
  destruct (forallb hasCategory (filter Event.hasValidCoords l)); reflexivity.
Qed.

Lemma rowsFrom_app (l l' : list Event.t) (index : nat) :
  rowsFrom index (l ++ l')
  = rowsFrom index l ++ rowsFrom (index + List.length l) l'.
Proof.
  revert index. induction l as [|e l IH]; simpl; intros index.
  - rewrite Nat.add_0_r. reflexivity.
  - rewrite IH. do 3 f_equal. lia.
Qed.

Lemma rowsFrom_length (l : list Event.t) (index : nat) :
  List.length (rowsFrom index l) = List.length l.
Proof.
  revert index. induction l as [|e l IH]; simpl; intros index; auto.
Qed.

Lemma firstn_more {A : Type} (l : list A) (n k : nat) :
  firstn (n + k) l = firstn n l ++ firstn k (skipn n l).
Proof.
  revert l. induction n as [|n IH]; intros l; simpl; auto.
  destruct l as [|a l]; simpl.
  - rewrite firstn_nil. reflexivity.
  - rewrite IH. reflexivity.
Qed.

(** Each row of a table that shows the first of [data] has the index of
    its event in [data]. *)
Lemma rowsFrom_index (data shown rest : list Event.t) (row : Row) :
  data = shown ++ rest -> In row (rowsFrom 0 shown) ->
  nth_error data (rowIndex row) = Some (rowEvent row).
Proof.
  intros -> H.
  assert (G : forall l before index,
             index = List.length before ->
             In row (rowsFrom index l) ->
             nth_error (before ++ l ++ rest) (rowIndex row)
             = Some (rowEvent row)).
  { induction l as [|e l IH]; simpl; intros before index E I.
    - destruct I.
    - destruct I as [<-|I].
      + simpl. subst index. rewrite nth_error_app2 by lia.
        rewrite Nat.sub_diag. reflexivity.
      + specialize (IH (before ++ [e]) (S index)).
        rewrite <- app_assoc in IH. simpl in IH. apply IH; auto.
        rewrite length_app. simpl. lia. }
  apply (G shown [] 0); auto.
Qed.

Lemma forallb_firstn (keep : Event.t -> bool) (l : list Event.t) (n : nat) :
  forallb keep l = true -> forallb keep (firstn n l) = true.
Proof.
  rewrite !forallb_forall. intros H x I. apply H.
  rewrite <- (firstn_skipn n l). apply in_or_app. auto.
Qed.

Lemma forallb_skipn (keep : Event.t -> bool) (l : list Event.t) (n : nat) :
  forallb keep l = true -> forallb keep (skipn n l) = true.
Proof.
  rewrite !forallb_forall. intros H x I. apply H.
  rewrite <- (firstn_skipn n l). apply in_or_app. auto.
Qed.

Lemma populateTable_fresh (data : list Event.t) (rows : list Row) :
  populateTable data false rows
  = if forallb hasCategory (firstn tableItemsToShow data)
    then Some (rowsFrom 0 (firstn tableItemsToShow data)) else None.
Proof.
  unfold populateTable. rewrite insertRows_spec. simpl skipn.
  destruct (forallb hasCategory (firstn tableItemsToShow data)); reflexivity.
Qed.

Lemma populateTable_more (data : list Event.t) (n : nat) :
  n <= List.length data ->
  populateTable data true (rowsFrom 0 (firstn n data))
  = if forallb hasCategory (firstn tableItemsToShow (skipn n data))
    then Some (rowsFrom 0 (firstn (n + tableItemsToShow) data)) else None.
Proof.
  intros L. unfold populateTable.
  rewrite insertRows_spec, rowsFrom_length, length_firstn, Nat.min_l by exact L.
  destruct (forallb hasCategory (firstn tableItemsToShow (skipn n data)));
    simpl; auto.
  rewrite firstn_more, rowsFrom_app, length_firstn, Nat.min_l by exact L.
  reflexivity.
Qed.

Lemma firstn_beyond {A : Type} (l : list A) (n : nat) :
  firstn n l = firstn (Nat.min n (List.length l)) l.
Proof.
  destruct (Nat.le_ge_cases n (List.length l)) as [L|L].
  - rewrite Nat.min_l by exact L. reflexivity.
  - rewrite Nat.min_r by exact L. rewrite !firstn_all2; auto.
Qed.

(** X13.  The table shows the first fifty rows of its data and every
    scroll to its bottom adds the next fifty, as long as there are any:
    after [k] scrolls it shows the first [50 * (k + 1)] events of the
    data, in their order, and the click on a row focuses the event of
    that row.  This needs every event to have a category. *)
Theorem table_grows_by_fifty (data : list Event.t) (rows : list Row)
        (scrolls : nat)
        (Hcategories : forallb hasCategory data = true) :
  let shown := firstn (tableItemsToShow * S scrolls) data in
  scrolled data rows scrolls = Some (rowsFrom 0 shown)
  /\ forall row, In row (rowsFrom 0 shown) ->
                 nth_error data (rowIndex row) = Some (rowEvent row).
Proof.
  intros shown. split.
  - unfold shown. clear shown.
    induction scrolls as [|k IH]; simpl scrolled.
    + rewrite populateTable_fresh, forallb_firstn by exact Hcategories.
      rewrite Nat.mul_1_r. reflexivity.
    + rewrite IH. unfold bind.
      rewrite (firstn_beyond data (tableItemsToShow * S k)).
      rewrite populateTable_more by apply Nat.le_min_r.
      rewrite forallb_firstn by (apply forallb_skipn; exact Hcategories).
      f_equal. f_equal.
      replace (tableItemsToShow * S (S k))
        with (tableItemsToShow * S k + tableItemsToShow) by lia.
      destruct (Nat.le_ge_cases (tableItemsToShow * S k) (List.length data))
        as [L|L].
      * rewrite Nat.min_l by exact L. reflexivity.
      * rewrite Nat.min_r by exact L. rewrite !firstn_all2; auto; lia.
  - intros row H. apply rowsFrom_index with (shown := shown)
                                            (rest := skipn (tableItemsToShow * S scrolls) data); auto.
    unfold shown. symmetry. apply firstn_skipn.
Qed.

Lemma table_grows_by_fifty_witness :
  let data := repeat (Scenario.loaded Scenario.flood) 120 in
  let shown := firstn (tableItemsToShow * 2) data in
  scrolled data [] 1 = Some (rowsFrom 0 shown)
  /\ forall row, In row (rowsFrom 0 shown) ->
                 nth_error data (rowIndex row) = Some (rowEvent row).
Proof.
  apply (table_grows_by_fifty (repeat (Scenario.loaded Scenario.flood) 120)
                              [] 1).
  vm_compute. reflexivity.
Defined.

(** ** The filters and the actions *)

Lemma filterOrThrow_filter {A : Type} (keep : A -> option bool)
      (l kept : list A) :
  filterOrThrow keep l = Some kept ->
  kept = filter (fun x => match keep x with
                          | Some b => b
                          | None => false
                          end) l.
Proof.
  revert kept. induction l as [|x l IH]; simpl; intros kept H.
  - inversion H. reflexivity.
  - destruct (keep x) as [b|]; [|discriminate].
    destruct (filterOrThrow keep l) as [r|]; [|discriminate].
    simpl in H. inversion H; subst. rewrite (IH r eq_refl).
    destruct b; reflexivity.
Qed.

Lemma filterOrThrow_total {A : Type} (keep : A -> option bool) (l : list A) :
  (forall x, In x l -> keep x <> None) -> filterOrThrow keep l <> None.
Proof.
  induction l as [|x l IH]; simpl; intros H.
  - discriminate.
  - destruct (keep x) as [b|] eqn:K.
    + destruct (filterOrThrow keep l); [discriminate|].
      exfalso. apply IH; auto.
    + exfalso. apply (H x); auto.
Qed.

Section ActionFacts.

Variable Date_parse : string -> Date.
Variable parseInt : string -> float.
Variable daysAgo : float -> Date.
Variable endOfDay : Date -> Date.
Variable mapReady : bool.

Lemma currentFilters_selection (controls : Controls) (range : option float)
      (shown filtered data : list Event.t) :
  currentFilters Date_parse daysAgo endOfDay controls range shown
  = Some filtered ->
  selection shown data -> selection filtered data.
Proof.
  unfold currentFilters. intros H S.
  assert (S1 : selection
                 match range with
                 | Some days => filter (notBefore (daysAgo days)) shown
                 | None => shown
                 end data)
    by (destruct range; auto using selection_filter).
  revert H S1. generalize (match range with
                           | Some days => filter (notBefore (daysAgo days)) shown
                           | None => shown
                           end).
  intros l1 H S1.
  repeat match type of H with
         | context [if JsString.nonEmpty ?v then filter ?k ?l else ?l] =>
             let S' := fresh "S" in
             assert (S' : selection
                            (if JsString.nonEmpty v then filter k l else l)
                            data)
               by (destruct (JsString.nonEmpty v);
                   auto using selection_filter);
             revert H S';
             generalize (if JsString.nonEmpty v then filter k l else l);
             intros ? H S'
         end.
  destruct (JsString.nonEmpty (JsString.toLowerCase (searchValue controls))).
  - apply filterOrThrow_filter in H. subst filtered.
    apply selection_filter. assumption.
  - inversion H; subst. assumption.
Qed.

Lemma currentFilters_In (controls : Controls) (range : option float)
      (shown filtered : list Event.t) (e : Event.t) :
  currentFilters Date_parse daysAgo endOfDay controls range shown
  = Some filtered ->
  In e filtered -> In e shown.
Proof.
  intros H I.
  apply (selection_In filtered shown e); auto.
  apply (currentFilters_selection controls range shown filtered shown H).
  apply selection_all.
Qed.

(** What [refreshViews] leaves. *)
Lemma refreshViews_spec (st st' : Dashboard) :
  refreshViews mapReady st = Some st' ->
  disasterEvents st' = disasterEvents st
  /\ filteredData st' = filteredData st
  /\ sortedData st' = sortedData st
  /\ currentSort st' = currentSort st
  /\ activeDateRange st' = activeDateRange st
  /\ tableRows st' = rowsFrom 0 (firstn tableItemsToShow (sortedData st))
  /\ eventList st' = rowsFrom 0 (filteredData st)
  /\ (mapReady = true -> mapMarkers st' = markersFor (filteredData st)).
Proof.
  unfold refreshViews, populateEventList, updateMapMarkers.
  rewrite populateTable_fresh, insertRows_spec, addMarkers_spec.
  destruct (forallb hasCategory (firstn tableItemsToShow (sortedData st)));
    [|discriminate].
  destruct (forallb hasCategory (filteredData st)); [|discriminate].
  simpl. destruct mapReady.
  - destruct (forallb hasCategory
                      (filter Event.hasValidCoords (filteredData st)));
      [|discriminate].
    simpl. intros H. inversion H; subst. simpl. repeat split; auto.
  - simpl. intros H. inversion H; subst. simpl. repeat split; auto.
    discriminate.
Qed.

Lemma applyCurrentFilters_spec (controls : Controls) (st st' : Dashboard) :
  selection (filteredData st) (disasterEvents st) ->
  applyCurrentFilters Date_parse parseInt daysAgo endOfDay mapReady
                      controls st = Some st' ->
  consistent mapReady st'
  /\ disasterEvents st' = disasterEvents st
  /\ currentSort st' = currentSort st
  /\ activeDateRange st' = activeDateRange st
  /\ tableRows st' = rowsFrom 0 (firstn tableItemsToShow (sortedData st')).
Proof.
  intros S. unfold applyCurrentFilters.
  destruct (currentFilters Date_parse daysAgo endOfDay controls
                           (activeDateRange st) _) as [filtered|] eqn:F;
    [|discriminate].
  simpl bind.
  destruct (match currentSort st with
            | Some (column, direction) =>
                sortData parseInt column direction filtered
            | None => Some filtered
            end) as [sorted|] eqn:O; [|discriminate].
  simpl bind. intros R.
  apply refreshViews_spec in R. simpl in R.
  destruct R as (E1 & E2 & E3 & E4 & E5 & E6 & E7 & E8).
  assert (Sel : selection filtered (disasterEvents st)).
  { apply (currentFilters_selection _ _ _ _ _ F).
    destruct (disasterEvents st) as [|first rest] eqn:D.
    - simpl. exact S.
    - apply applyTimeSlider_selection. }
  assert (P : Permutation filtered sorted).
  { destruct (currentSort st) as [[column direction]|].
    - eapply sortData_Permutation; eauto.
    - inversion O; subst. apply Permutation_refl. }
  unfold consistent. rewrite E1, E2, E3, E4, E5, E6, E7.
  repeat split; auto.
  exists tableItemsToShow. reflexivity.
Qed.

Lemma sortTable_spec (column : Column) (st st' : Dashboard) :
  consistent mapReady st -> sortTable parseInt column st = Some st' ->
  consistent mapReady st' /\ disasterEvents st' = disasterEvents st.
Proof.
  intros (S & P & T & L & M). unfold sortTable.
  destruct (match nextDirection (currentSort st) column with
            | Some direction =>
                sortData parseInt column direction (filteredData st)
            | None => Some (filteredData st)
            end) as [sorted|] eqn:O; [|discriminate].
  simpl bind. rewrite populateTable_fresh.
  destruct (forallb hasCategory (firstn tableItemsToShow sorted));
    [|discriminate].
  simpl. intros H. inversion H; subst. unfold consistent. simpl.
  repeat split; auto.
  - destruct (nextDirection (currentSort st) column) as [direction|].
    + eapply sortData_Permutation; eauto.
    + inversion O; subst. apply Permutation_refl.
  - exists tableItemsToShow. reflexivity.
Qed.

Lemma scrollTable_spec (st st' : Dashboard) :
  consistent mapReady st -> scrollTable st = Some st' ->
  consistent mapReady st' /\ disasterEvents st' = disasterEvents st.
Proof.
  intros (S & P & (n & T) & L & M). unfold scrollTable.
  rewrite T, (firstn_beyond (sortedData st) n).
  rewrite populateTable_more by apply Nat.le_min_r.
  destruct (forallb hasCategory _); [|discriminate].
  simpl. intros H. inversion H; subst. unfold consistent. simpl.
  repeat split; auto.
  eexists. reflexivity.
Qed.

End ActionFacts.

(** X14.  Whatever the user does (change a filter, choose a range of
    days, click a header, scroll the table, reset the filters), as long
    as the script does not throw, the views agree with the data: the
    displayed events are a selection of the loaded ones in their order,
    the table holds exactly the displayed events and shows the first of
    them, each row with the index of its own event, the list holds all of
    them and the map their markers.  The loaded events are not
    touched. *)
Theorem views_stay_consistent (Date_parse : string -> Date)
        (parseInt : string -> float) (daysAgo : float -> Date)
        (endOfDay : Date -> Date) (mapReady allRangeButton : bool)
        (action : Action) (st st' : Dashboard)
        (Hbefore : consistent mapReady st)
        (Hact : act Date_parse parseInt daysAgo endOfDay mapReady
                    allRangeButton action st
                = Some st') :
  consistent mapReady st' /\ disasterEvents st' = disasterEvents st.
Proof.
  destruct action as [controls|days controls|column| |]; simpl in Hact.
  - apply applyCurrentFilters_spec in Hact; [tauto|].
    destruct Hbefore; auto.
  - unfold filterByDateRange in Hact.
    apply applyCurrentFilters_spec in Hact; simpl in *; [tauto|].
    destruct Hbefore; auto.
  - eapply sortTable_spec; eauto.
  - eapply scrollTable_spec; eauto.
  - unfold resetFilters in Hact.
    destruct allRangeButton; [|discriminate].
    apply applyCurrentFilters_spec in Hact; simpl in *; [tauto|].
    destruct Hbefore; auto.
Qed.

Lemma showing_consistent (mapReady : bool) (events : list Event.t) :
  consistent mapReady (Scenario.showing events).
Proof.
  unfold consistent, Scenario.showing. simpl. repeat split; auto.
  - apply selection_all.
  - exists tableItemsToShow. reflexivity.
Qed.

Lemma views_stay_consistent_witness :
  exists st',
    act IsoHost.Date_parse Scenario.parseInt Scenario.daysAgo
        Scenario.endOfDay true true (ChangeFilters Scenario.controls)
        (Scenario.showing Scenario.events) = Some st'
    /\ filteredData st' = map Scenario.loaded [Scenario.quake]
    /\ consistent true st'
    /\ disasterEvents st' = disasterEvents (Scenario.showing Scenario.events).
Proof.
  eexists. split; [vm_compute; reflexivity|]. split; [reflexivity|].
  apply (views_stay_consistent IsoHost.Date_parse Scenario.parseInt
           Scenario.daysAgo Scenario.endOfDay true true
           (ChangeFilters Scenario.controls)
           (Scenario.showing Scenario.events)).
  - unfold consistent, Scenario.showing. simpl.
    split; [exists (fun _ => true); reflexivity|].
    split; [apply Permutation_refl|].
    split; [exists tableItemsToShow; reflexivity|].
    split; reflexivity.
  - vm_compute. reflexivity.
Defined.

(** ** Loading and the categories *)

Lemma nonBlank_isText (v : text) : nonBlank v = true -> isText v = true.
Proof. destruct v; simpl; auto. Qed.

Lemma loaded_titles_and_ids (Date_parse : string -> Date) (now : Z)
      (pastData mainData : list Raw.t) (e : Event.t) :
  In e (loadDisasterData Date_parse now pastData mainData) ->
  isText (Event.event_title e) = true /\ isText (Event.event_id e) = true.
Proof.
  unfold loadDisasterData. intros H.
  apply (proj1 (In_sortByDate _ _)) in H.
  unfold preprocess in H. apply filter_In in H. destruct H as [H V].
  split; [apply nonBlank_isText; exact V|].
  apply in_map_iff in H. destruct H as (r & <- & H).
  unfold deduplicate in H. rewrite contentPass_loop in H.
  apply contentLoop_In in H. destruct H as [H _].
  apply keyed_values_usable in H; [|apply identityPass_keyed].
  unfold Event.event_id. simpl.
  destruct (Raw.event_id r); simpl in *; auto; discriminate.
Qed.

Lemma forallb_false (keep : Event.t -> bool) (l : list Event.t) :
  forallb keep l = false -> exists e, In e l /\ keep e = false.
Proof.
  induction l as [|x l IH]; simpl; [discriminate|].
  destruct (keep x) eqn:K; simpl.
  - intros H. destruct (IH H) as (e & I & F). exists e. auto.
  - intros _. exists x. auto.
Qed.

Lemma forallb_incl (keep : Event.t -> bool) (l l' : list Event.t) :
  (forall e, In e l' -> In e l) -> forallb keep l = true ->
  forallb keep l' = true.
Proof.
  rewrite !forallb_forall. auto.
Qed.

Section LoadFacts.

Variable Date_parse : string -> Date.
Variable parseInt : string -> float.
Variable daysAgo : float -> Date.
Variable endOfDay : Date -> Date.
Variable mapReady : bool.

Lemma sortData_total (column : Column) (direction : Direction)
      (data : list Event.t) :
  forallb sound data = true ->
  sortData parseInt column direction data <> None.
Proof.
  intros G. unfold sortData.
  assert (T : sortThrows column data = false).
  { destruct column; simpl; auto.
    apply andb_false_iff. right.
    destruct (existsb _ data) eqn:X; auto.
    apply existsb_exists in X. destruct X as (e & I & X).
    rewrite forallb_forall in G. specialize (G e I).
    unfold sound in G. apply andb_true_iff in G. destruct G as [G _].
    apply andb_true_iff in G. destruct G as [_ G].
    rewrite G in X. discriminate. }
  rewrite T. discriminate.
Qed.

Lemma refreshViews_total (st : Dashboard) :
  forallb hasCategory (sortedData st) = true ->
  forallb hasCategory (filteredData st) = true ->
  refreshViews mapReady st <> None.
Proof.
  intros S F. unfold refreshViews, populateEventList, updateMapMarkers.
  rewrite populateTable_fresh, insertRows_spec, addMarkers_spec.
  rewrite forallb_firstn by exact S. rewrite F. simpl.
  destruct mapReady; simpl; [|discriminate].
  rewrite (forallb_incl hasCategory (filteredData st)); auto.
  - simpl. discriminate.
  - intros e I. apply filter_In in I. tauto.
Qed.

Lemma sound_category (l : list Event.t) :
  forallb sound l = true -> forallb hasCategory l = true.
Proof.
  rewrite !forallb_forall. intros H e I. specialize (H e I).
  unfold sound in H. apply andb_true_iff in H. tauto.
Qed.

Lemma whenSet_In (value : bool) (keep : Event.t -> bool)
      (l : list Event.t) (e : Event.t) :
  In e (if value then filter keep l else l) -> In e l.
Proof.
  destruct value; auto. intros H. apply filter_In in H. tauto.
Qed.

Lemma currentFilters_total (controls : Controls) (range : option float)
      (shown : list Event.t) :
  (forall e, In e shown -> isText (Event.event_title e) = true) ->
  currentFilters Date_parse daysAgo endOfDay controls range shown <> None.
Proof.
  intros T. unfold currentFilters.
  destruct (JsString.nonEmpty (JsString.toLowerCase (searchValue controls)));
    [|discriminate].
  apply filterOrThrow_total. intros e H.
  repeat (apply whenSet_In in H).
  assert (I : In e shown).
  { destruct range; auto. apply filter_In in H. tauto. }
  specialize (T e I). unfold titleIncludes.
  destruct (Event.event_title e); discriminate.
Qed.

Lemma applyCurrentFilters_total (controls : Controls) (st : Dashboard) :
  forallb sound (disasterEvents st) = true ->
  selection (filteredData st) (disasterEvents st) ->
  applyCurrentFilters Date_parse parseInt daysAgo endOfDay mapReady
                      controls st <> None.
Proof.
  intros G S. unfold applyCurrentFilters.
  set (shown := applyTimeSlider _ _ _).
  assert (Sh : selection shown (disasterEvents st)).
  { unfold shown. destruct (disasterEvents st) as [|first rest]; auto.
    apply applyTimeSlider_selection. }
  assert (Gs : forallb sound shown = true).
  { apply (forallb_incl sound (disasterEvents st)); auto.
    intros e. apply selection_In. exact Sh. }
  destruct (currentFilters Date_parse daysAgo endOfDay controls
                           (activeDateRange st) shown) as [filtered|] eqn:F.
  - simpl bind.
    assert (Gf : forallb sound filtered = true).
    { apply (forallb_incl sound shown); auto.
      intros e. eapply currentFilters_In; eauto. }
    destruct (match currentSort st with
              | Some (column, direction) =>
                  sortData parseInt column direction filtered
              | None => Some filtered
              end) as [sorted|] eqn:O.
    + simpl bind. apply refreshViews_total; simpl.
      * apply sound_category.
        apply (forallb_incl sound filtered); auto.
        intros e I.
        assert (P : Permutation filtered sorted).
        { destruct (currentSort st) as [[column direction]|].
          - eapply sortData_Permutation; eauto.
          - inversion O; subst. apply Permutation_refl. }
        apply (Permutation_in _ (Permutation_sym P)). exact I.
      * apply sound_category. exact Gf.
    + exfalso. destruct (currentSort st) as [[column direction]|];
        [|discriminate].
      revert O. apply sortData_total. exact Gf.
  - exfalso. revert F. apply currentFilters_total.
    intros e H. rewrite forallb_forall in Gs. specialize (Gs e H).
    unfold sound in Gs. apply andb_true_iff in Gs. destruct Gs as [Gs _].
    apply andb_true_iff in Gs. tauto.
Qed.

End LoadFacts.

(** X15.  The dashboard needs a category on every loaded event.  The
    loader keeps events whose category is missing or [null]; the table and
    the list then throw when they come to such an event, so that
    [initializeData] fails inside [loadDisasterData], which reports that
    the data could not be loaded.  When every loaded event has a category
    [initializeData] completes, whatever the controls hold, and leaves
    views that agree with the data. *)
Theorem load_needs_a_category_on_every_event (Date_parse : string -> Date)
        (parseInt : string -> float) (daysAgo : float -> Date)
        (endOfDay : Date -> Date) (mapReady : bool) (now : Z)
        (pastData mainData : list Raw.t) (controls : Controls)
        (st : Dashboard) :
  let events := loadDisasterData Date_parse now pastData mainData in
  match initializeData Date_parse parseInt daysAgo endOfDay mapReady controls
                       (withEvents events st) with
  | Some st' =>
      forallb hasCategory events = true
      /\ disasterEvents st' = events
      /\ consistent mapReady st'
  | None => exists e, In e events /\ hasCategory e = false
  end.
Proof.
  intros events. unfold initializeData, withEvents, populateEventList. simpl.
  rewrite populateTable_fresh, insertRows_spec.
  destruct (forallb hasCategory events) eqn:C.
  2:{ destruct (forallb hasCategory (firstn tableItemsToShow events));
        simpl; apply forallb_false; exact C. }
  rewrite forallb_firstn by exact C. simpl bind.
  assert (G : forallb sound events = true).
  { apply forallb_forall. intros e I. unfold sound.
    destruct (loaded_titles_and_ids _ _ _ _ e I) as [T D].
    rewrite T, D. simpl.
    rewrite forallb_forall in C. auto. }
  match goal with
  | |- context [applyCurrentFilters ?a ?b ?c ?d ?e ?f ?s] =>
      pose proof (applyCurrentFilters_total a b c d e f s G
                                            (selection_all events)) as T;
      pose proof (applyCurrentFilters_spec a b c d e f s) as S;
      destruct (applyCurrentFilters a b c d e f s) as [st1|];
      [|congruence]
  end.
  destruct (S st1 (selection_all events) eq_refl)
    as ((Sel & P & R & L & M) & D & _).
  simpl in D, Sel. simpl bind.
  assert (Cf : forallb hasCategory (filteredData st1) = true).
  { apply (forallb_incl hasCategory events); auto.
    intros e. apply selection_In. rewrite <- D. exact Sel. }
  assert (Cm : forallb hasCategory
                       (filter Event.hasValidCoords (filteredData st1)) = true).
  { apply (forallb_incl hasCategory (filteredData st1)); auto.
    intros e I. apply filter_In in I. tauto. }
  destruct mapReady.
  - unfold updateMapMarkers. rewrite addMarkers_spec, Cm.
    unfold consistent. simpl. repeat split; auto.
  - unfold consistent. simpl. repeat split; auto; discriminate.
Qed.

(** The record [Scenario.storm], whose category is [null], is loaded like
    the others and makes [initializeData] throw. *)
Example uncategorised_record_fails_the_load :
  let events :=
    loadDisasterData IsoHost.Date_parse Sample.now []
                     (Scenario.storm :: Scenario.feed) in
  In (Scenario.loaded Scenario.storm) events
  /\ initializeData IsoHost.Date_parse Scenario.parseInt Scenario.daysAgo
                    Scenario.endOfDay true resetControls
                    (withEvents events (Scenario.showing [])) = None.
Proof. vm_compute. split; [do 4 right; left|]; reflexivity. Qed.

(** ** The marker of an event *)

Lemma text_eqb_eq (a b : text) : text_eqb a b = true <-> a = b.
Proof.
  destruct a as [| |s], b as [| |t]; simpl; split; try discriminate; auto.
  - intros H. apply String.eqb_eq in H. congruence.
  - intros H. inversion H. apply String.eqb_refl.
Qed.

Lemma find_no_marker (id : text) (l : list Event.t) :
  ~ In id (map Event.event_id (filter Event.hasValidCoords l)) ->
  find (fun m => text_eqb (_event_id m) id) (markersFor l) = None.
Proof.
  unfold markersFor.
  induction (filter Event.hasValidCoords l) as [|x r IH]; simpl; auto.
  intros N. destruct (text_eqb (Event.event_id x) id) eqn:E.
  - apply text_eqb_eq in E. tauto.
  - apply IH. tauto.
Qed.

Lemma find_own_marker (l : list Event.t) (e : Event.t) :
  NoDup (map Event.event_id l) -> In e l ->
  find (fun m => text_eqb (_event_id m) (Event.event_id e)) (markersFor l)
  = if Event.hasValidCoords e
    then Some (mkMarker e (Event.event_id e)) else None.
Proof.
  induction l as [|x l IH]; simpl; intros N I; [destruct I|].
  inversion N as [|? ? Hx N']; subst.
  assert (Out : forall y, In y l -> Event.event_id y <> Event.event_id x).
  { intros y Hy E. apply Hx. rewrite <- E. apply in_map. exact Hy. }
  destruct I as [->|I].
  - unfold markersFor. simpl.
    destruct (Event.hasValidCoords e) eqn:V; simpl.
    + rewrite (proj2 (text_eqb_eq _ _) eq_refl). reflexivity.
    + apply find_no_marker. intros H. apply in_map_iff in H.
      destruct H as (y & E & H). apply filter_In in H.
      apply (Out y); tauto.
  - specialize (IH N' I). unfold markersFor in *. simpl.
    destruct (Event.hasValidCoords x); simpl; auto.
    destruct (text_eqb (Event.event_id x) (Event.event_id e)) eqn:E; auto.
    apply text_eqb_eq in E. exfalso. apply (Out e I). congruence.
Qed.

(** X16.  A click on a row of the table or on an item of the list
    focuses the event of that row or item.  Since no two loaded events
    share an identifier, the marker found by the identifier is the marker
    of that very event when it has valid coordinates; when it has none,
    no marker is found and the map moves to the coordinates of the event,
    of which one at least is [0]. *)
Theorem focus_finds_the_marker_of_the_event (Date_parse : string -> Date)
        (now : Z) (pastData mainData : list Raw.t) (keep : Event.t -> bool)
        (currentView : View) (sortedData : list Event.t) (index : nat)
        (event : Event.t)
        (Hsorted :
           Permutation
             (filter keep (loadDisasterData Date_parse now pastData mainData))
             sortedData)
        (Hindex :
           nth_error
             match currentView with
             | TableView => sortedData
             | _ => filter keep
                           (loadDisasterData Date_parse now pastData mainData)
             end index = Some event) :
  let filteredData :=
    filter keep (loadDisasterData Date_parse now pastData mainData) in
  focusOnEvent currentView sortedData filteredData (markersFor filteredData)
               index
  = Some (if Event.hasValidCoords event
          then OpenMarker (mkMarker event (Event.event_id event))
          else SetView (Event.latitude event) (Event.longitude event)).
Proof.
  intros filteredData.
  assert (I : In event filteredData).
  { destruct currentView; try (apply nth_error_In in Hindex; exact Hindex).
    apply nth_error_In in Hindex.
    apply (Permutation_in _ (Permutation_sym Hsorted)). exact Hindex. }
  assert (N : NoDup (map Event.event_id filteredData)).
  { apply filter_keeps_distinct_keys. unfold loadDisasterData.
    eapply Permutation_NoDup;
      [apply Permutation_map; apply sortByDate_Permutation|].
    apply preprocessed_identifiers_distinct. }
  unfold focusOnEvent.
  assert (E : match currentView with
              | TableView => nth_error sortedData index
              | _ => nth_error filteredData index
              end = Some event)
    by (destruct currentView; exact Hindex).
  rewrite E, (find_own_marker filteredData event N I).
  destruct (Event.hasValidCoords event); reflexivity.
Qed.

Lemma scenario_events_loaded :
  loadDisasterData IsoHost.Date_parse Sample.now [] Scenario.feed
  = Scenario.events.
Proof. vm_compute. reflexivity. Qed.

Lemma focus_finds_the_marker_of_the_event_witness :
  let filteredData :=
    filter (fun _ => true)
           (loadDisasterData IsoHost.Date_parse Sample.now [] Scenario.feed) in
  focusOnEvent TableView (rev filteredData) filteredData
               (markersFor filteredData) 1
  = Some (if Event.hasValidCoords (Scenario.loaded Scenario.slide)
          then OpenMarker
                 (mkMarker (Scenario.loaded Scenario.slide)
                           (Event.event_id (Scenario.loaded Scenario.slide)))
          else SetView (Event.latitude (Scenario.loaded Scenario.slide))
                       (Event.longitude (Scenario.loaded Scenario.slide))).
Proof.
  apply (focus_finds_the_marker_of_the_event IsoHost.Date_parse Sample.now
           [] Scenario.feed (fun _ => true) TableView).
  - apply Permutation_rev.
  - vm_compute. reflexivity.
Defined.

(** ** Resetting the filters *)

Lemma refreshViews_None (mapReady : bool) (st : Dashboard) :
  refreshViews mapReady st = None ->
  exists e,
    (In e (sortedData st) \/ In e (filteredData st)) /\ hasCategory e = false.
Proof.
  unfold refreshViews, populateEventList, updateMapMarkers.
  rewrite populateTable_fresh, insertRows_spec, addMarkers_spec.
  destruct (forallb hasCategory (firstn tableItemsToShow (sortedData st)))
    eqn:T.
  - destruct (forallb hasCategory (filteredData st)) eqn:L.
    + simpl. destruct mapReady; [|discriminate].
      destruct (forallb hasCategory
                        (filter Event.hasValidCoords (filteredData st))) eqn:M;
        [discriminate|].
      intros _. apply forallb_false in M. destruct M as (e & I & F).
      apply filter_In in I. exists e. tauto.
    + intros _. apply forallb_false in L. destruct L as (e & I & F).
      exists e. tauto.
  - intros _. apply forallb_false in T. destruct T as (e & I & F).
    exists e. split; auto. left.
    rewrite <- (firstn_skipn tableItemsToShow (sortedData st)).
    apply in_or_app. auto.
Qed.

Lemma refreshViews_categories (mapReady : bool) (st st' : Dashboard) :
  refreshViews mapReady st = Some st' ->
  forallb hasCategory (filteredData st) = true.
Proof.
  unfold refreshViews, populateEventList.
  rewrite populateTable_fresh, insertRows_spec.
  destruct (forallb hasCategory (firstn tableItemsToShow (sortedData st)));
    [|discriminate].
  destruct (forallb hasCategory (filteredData st)); [reflexivity|discriminate].
Qed.

(** X17.  The reset runs through exactly when the page has the button of
    all dates, the one whose [onclick] attribute is
    [filterByDateRange(null)], and every loaded event has a category.
    It then shows everything again: with the slider back at 100 and the
    other controls empty, the displayed events are all the loaded events
    in their order, the table holds them unsorted and no range of days is
    active.  Otherwise it throws: without the button at the unguarded
    lookup, before a control is reset, and else at the event without a
    category. *)
Theorem reset_shows_all_events (Date_parse : string -> Date)
        (parseInt : string -> float) (daysAgo : float -> Date)
        (endOfDay : Date -> Date) (mapReady allRangeButton : bool)
        (first : Event.t) (rest : list Event.t) (st : Dashboard) :
  let events := first :: rest in
  match resetFilters Date_parse parseInt daysAgo endOfDay mapReady
                     allRangeButton (withEvents events st) with
  | Some st' =>
      allRangeButton = true
      /\ forallb hasCategory events = true
      /\ filteredData st' = events
      /\ sortedData st' = events
      /\ currentSort st' = None
      /\ activeDateRange st' = None
      /\ disasterEvents st' = events
  | None =>
      allRangeButton = false
      \/ (allRangeButton = true
          /\ exists e, In e events /\ hasCategory e = false)
  end.
Proof.
  intros events.
  unfold resetFilters. destruct allRangeButton; [|auto].
  unfold applyCurrentFilters, withEvents. simpl.
  match goal with
  | |- match refreshViews _ ?s with _ => _ end =>
      pose proof (refreshViews_spec mapReady s) as S;
      pose proof (refreshViews_None mapReady s) as N;
      pose proof (refreshViews_categories mapReady s) as K;
      destruct (refreshViews mapReady s) as [st'|]
  end.
  - destruct (S st' eq_refl) as (E1 & E2 & E3 & E4 & E5 & _).
    specialize (K st' eq_refl).
    simpl in *. auto 10.
  - destruct (N eq_refl) as (e & I & C). simpl in I.
    right. split; auto. exists e. split; auto. tauto.
Qed.

(** ** The other loaders *)

Lemma eqb_self (x : float) : is_nan x = false -> (x =? x)%float = true.
Proof. unfold is_nan. destruct (x =? x)%float; auto. Qed.

Lemma sanitizeCoord_parseFloatElseZero (c : coord) :
  (sanitizeCoord c =? TestData.parseFloatElseZero c)%float = true
  /\ (JsNumber.nonZero (sanitizeCoord c) = true ->
      TestData.truthyCoord c = true).
Proof.
  assert (N : forall x,
             ((if JsNumber.isNaN x then zero else x)
              =? (if JsNumber.truthy x then x else zero))%float = true
             /\ (JsNumber.nonZero (if JsNumber.isNaN x then zero else x) = true
                 -> JsNumber.truthy x = true)).
  { intros x. unfold JsNumber.isNaN, JsNumber.truthy, JsNumber.nonZero.
    destruct (is_nan x) eqn:E.
    - rewrite orb_true_r. simpl. split; [reflexivity|].
      intros H. vm_compute in H. discriminate.
    - rewrite orb_false_r. unfold is_zero. destruct (x =? zero)%float eqn:Z.
      + simpl. split; [exact Z|]. intros H.
        change 0%float with zero in H. rewrite Z in H. discriminate.
      + simpl. split; [apply eqb_self; exact E|reflexivity]. }
  destruct c as [| |s|x]; simpl.
  - split; [reflexivity|]. intros H. vm_compute in H. discriminate.
  - split; [reflexivity|]. intros H. vm_compute in H. discriminate.
  - unfold TestData.parseFloatElseZero. simpl.
    destruct s as [|c s]; simpl JsString.nonEmpty; cbv iota.
    + split; [reflexivity|]. intros H. vm_compute in H. discriminate.
    + destruct (N (JsNumber.parseFloatString (String c s))) as [N1 _].
      split; [exact N1|reflexivity].
  - unfold TestData.parseFloatElseZero. simpl.
    destruct (N (JsNumber.parseFloatNumber x)) as [N1 N2].
    split; [exact N1|]. intros H. specialize (N2 H).
    unfold JsNumber.parseFloatNumber in N2.
    destruct (is_zero x); [vm_compute in N2; discriminate|exact N2].
Qed.

(** X18.  The loader of the test data reads every coordinate as the main
    loader does, up to the sign of a zero, and wherever the main loader
    finds valid coordinates so does the test loader.  The converse fails:
    a coordinate text that is not a number, which the main loader reads
    as [0] and flags as invalid, passes the test of the test loader. *)
Theorem test_loader_reads_the_same_coordinates (Date_parse : string -> Date)
        (now : Z) (event : Raw.t) :
  let main := sanitize Date_parse now event in
  let test := TestData.convert Date_parse event in
  (Event.latitude main =? TestData.latitude test)%float = true
  /\ (Event.longitude main =? TestData.longitude test)%float = true
  /\ (Event.hasValidCoords main = true -> TestData.hasValidCoords test = true)
  /\ exists other,
       TestData.hasValidCoords (TestData.convert Date_parse other) = true
       /\ Event.hasValidCoords (sanitize Date_parse now other) = false.
Proof.
  simpl.
  destruct (sanitizeCoord_parseFloatElseZero (Raw.latitude event)) as [A1 A2].
  destruct (sanitizeCoord_parseFloatElseZero (Raw.longitude event)) as [B1 B2].
  repeat split; auto.
  - intros H. apply andb_true_iff in H. destruct H as [H _].
    apply andb_true_iff in H. destruct H as [H _].
    apply andb_true_iff in H. destruct H as [H1 H2].
    rewrite (A2 H1), (B2 H2). reflexivity.
  - exists (Sample.flood "E-3" "north" "12.5"). split; reflexivity.
Qed.

(** X19.  The current loader reads the coordinates of every record the
    earlier loaders kept exactly as they did: a record whose two
    coordinates parse gets the same two numbers. *)
Theorem kept_coordinates_are_unchanged (Date_parse : string -> Date)
        (now : Z) (deduped : list Raw.t) (earlier : Docs.t)
        (Hkept : In earlier (Docs.preprocess Date_parse deduped)) :
  let current := sanitize Date_parse now (Docs.raw earlier) in
  In (Docs.raw earlier) deduped
  /\ Event.latitude current = Docs.latitude earlier
  /\ Event.longitude current = Docs.longitude earlier.
Proof.
  unfold Docs.preprocess in Hkept. apply filter_In in Hkept.
  destruct Hkept as [I K]. apply in_map_iff in I.
  destruct I as (r & <- & I). simpl in *.
  apply andb_true_iff in K. destruct K as [K1 K2].
  apply negb_true_iff in K1, K2.
  assert (G : forall c, JsNumber.isNaN (Docs.parseFloatField c) = false ->
                        sanitizeCoord c = Docs.parseFloatField c).
  { intros [| |s|x]; simpl; intros H.
    - vm_compute in H. discriminate.
    - vm_compute in H. discriminate.
    - destruct s as [|c s]; [vm_compute in H; discriminate|].
      simpl JsString.nonEmpty. cbv iota. rewrite H. reflexivity.
    - rewrite H. reflexivity. }
  repeat split; auto.
Qed.

Lemma kept_coordinates_are_unchanged_witness :
  let earlier := Docs.convert IsoHost.Date_parse Scenario.flood in
  let current := sanitize IsoHost.Date_parse Sample.now (Docs.raw earlier) in
  In (Docs.raw earlier) Scenario.feed
  /\ Event.latitude current = Docs.latitude earlier
  /\ Event.longitude current = Docs.longitude earlier.
Proof.
  apply (kept_coordinates_are_unchanged IsoHost.Date_parse Sample.now
           Scenario.feed (Docs.convert IsoHost.Date_parse Scenario.flood)).
  vm_compute. left. reflexivity.
Defined.

(** ** The clicks on a header *)

Lemma Column_eqb_refl (column : Column) : Column_eqb column column = true.
Proof. destruct column; reflexivity. Qed.

(** X20.  Three clicks on the header of a column that is not the sorted
    one go through the ascending order and the descending order back to
    the order of the displayed events, with no column marked as sorted;
    the displayed events themselves are not touched. *)
Theorem header_clicks_cycle (parseInt : string -> float) (column : Column)
        (st st1 st2 st3 : Dashboard)
        (Hfresh : nextDirection (currentSort st) column = Some Asc)
        (Hfirst : sortTable parseInt column st = Some st1)
        (Hsecond : sortTable parseInt column st1 = Some st2)
        (Hthird : sortTable parseInt column st2 = Some st3) :
  (currentSort st1 = Some (column, Asc)
   /\ sortData parseInt column Asc (filteredData st) = Some (sortedData st1))
  /\ (currentSort st2 = Some (column, Desc)
      /\ sortData parseInt column Desc (filteredData st) = Some (sortedData st2))
  /\ (currentSort st3 = None /\ sortedData st3 = filteredData st)
  /\ filteredData st3 = filteredData st.
Proof.
  assert (S : forall s s' d,
             nextDirection (currentSort s) column = d ->
             sortTable parseInt column s = Some s' ->
             currentSort s' = option_map (pair column) d
             /\ filteredData s' = filteredData s
             /\ match d with
                | Some direction =>
                    sortData parseInt column direction (filteredData s)
                | None => Some (filteredData s)
                end = Some (sortedData s')).
  { intros s s' d D H. unfold sortTable in H. rewrite D in H.
    destruct (match d with
              | Some direction =>
                  sortData parseInt column direction (filteredData s)
              | None => Some (filteredData s)
              end) as [sorted|]; [|discriminate].
    unfold bind in H.
    destruct (populateTable sorted false (tableRows s)); [|discriminate].
    inversion H; subst. simpl. auto. }
  destruct (S st st1 _ Hfresh Hfirst) as (C1 & F1 & D1). simpl in C1.
  assert (N1 : nextDirection (currentSort st1) column = Some Desc).
  { rewrite C1. simpl. rewrite Column_eqb_refl. reflexivity. }
  destruct (S st1 st2 _ N1 Hsecond) as (C2 & F2 & D2). simpl in C2.
  assert (N2 : nextDirection (currentSort st2) column = None).
  { rewrite C2. simpl. rewrite Column_eqb_refl. reflexivity. }
  destruct (S st2 st3 _ N2 Hthird) as (C3 & F3 & D3). simpl in C3.
  rewrite F1 in D2. rewrite F2, F1 in D3. inversion D3.
  repeat split; auto. congruence.
Qed.

Lemma header_clicks_cycle_witness :
  exists st1 st2 st3,
    sortTable Scenario.parseInt latitude_column
              (Scenario.showing Scenario.events) = Some st1
    /\ sortTable Scenario.parseInt latitude_column st1 = Some st2
    /\ sortTable Scenario.parseInt latitude_column st2 = Some st3
    /\ (currentSort st1 = Some (latitude_column, Asc)
        /\ sortData Scenario.parseInt latitude_column Asc
                    (filteredData (Scenario.showing Scenario.events))
           = Some (sortedData st1))
    /\ (currentSort st2 = Some (latitude_column, Desc)
        /\ sortData Scenario.parseInt latitude_column Desc
                    (filteredData (Scenario.showing Scenario.events))
           = Some (sortedData st2))
    /\ (currentSort st3 = None
        /\ sortedData st3 = filteredData (Scenario.showing Scenario.events))
    /\ filteredData st3 = filteredData (Scenario.showing Scenario.events).
Proof.
  eexists. eexists. eexists.
  split; [vm_compute; reflexivity|].
  split; [vm_compute; reflexivity|].
  split; [vm_compute; reflexivity|].
  eapply (header_clicks_cycle Scenario.parseInt latitude_column
                              (Scenario.showing Scenario.events));
    vm_compute; reflexivity.
Defined.

(** ** How many risk clusters there can be *)

Lemma members_filter_length (keep : Cluster -> bool) (clusters : list Cluster) :
  List.length (members (filter keep clusters))
  <= List.length (members clusters).
Proof.
  unfold members. induction clusters as [|c l IH]; simpl; auto.
  destruct (keep c); simpl; rewrite ?length_app; lia.
Qed.

Lemma members_at_least (size : nat) (clusters : list Cluster) :
  (forall c, In c clusters -> size <= List.length (events c)) ->
  size * List.length clusters <= List.length (members clusters).
Proof.
  unfold members. induction clusters as [|c l IH]; simpl; intros H.
  - lia.
  - rewrite length_app.
    assert (size <= List.length (events c)) by (apply H; auto).
    assert (size * List.length l <= List.length (flat_map events l))
      by (apply IH; auto).
    lia.
Qed.

(** X21.  Every event of a risk cluster is a displayed event of the last
    thirty days, and each risk cluster takes thirty of them for itself:
    thirty times the number of risk clusters is at most the number of
    displayed events of the last thirty days.  With fewer than thirty
    such events there is no alert. *)
Theorem risk_clusters_need_thirty_events_each (Date_parse : string -> Date)
        (now thirtyDaysAgo : Z) (filteredData : list Event.t) :
  let risky := riskClusters Date_parse now thirtyDaysAgo filteredData in
  let recent := recentEvents thirtyDaysAgo filteredData in
  30 * List.length risky <= List.length recent
  /\ List.length recent <= List.length filteredData
  /\ (forall cluster e,
        In cluster risky -> In e (events cluster) ->
        In e filteredData /\ (thirtyDaysAgo <= Event.event_date e)%Z)
  /\ (List.length recent < 30 -> risky = []).
Proof.
  intros risky recent.
  assert (P : Permutation (members (riskPassClusters thirtyDaysAgo filteredData))
                          recent).
  { unfold riskPassClusters, clusterEvents.
    destruct (fold_clusterStep_shape CLUSTER_RADIUS_risk true recent []
                                     (Forall_nil _)) as (P & _).
    simpl in P. exact P. }
  assert (B : 30 * List.length risky <= List.length recent).
  { rewrite <- (Permutation_length P).
    apply Nat.le_trans with (m := List.length (members risky)).
    - apply members_at_least. intros c H. unfold risky, riskClusters in H.
      apply filter_In in H. destruct H as [_ H]. unfold isRiskCluster in H.
      apply andb_true_iff in H. destruct H as [H _].
      apply Nat.leb_le in H. exact H.
    - apply members_filter_length. }
  split; [exact B|]. split; [|split].
  - unfold recent, recentEvents. apply filter_length_le.
  - intros cluster e H I. unfold risky, riskClusters in H.
    apply filter_In in H. destruct H as [H _].
    assert (M : In e recent).
    { apply (Permutation_in _ P). unfold members.
      apply in_flat_map. exists cluster. auto. }
    unfold recent, recentEvents in M. apply filter_In in M.
    destruct M as [M D]. apply Z.leb_le in D. auto.
  - intros L. destruct risky; auto. simpl in B. lia.
Qed.

(** X22.  The first version of the script alerted for every cluster of
    five events of the last thirty days; the current rule is stricter:
    the clusters it alerts for are among those of the first version, in
    the same order. *)
Theorem current_rule_is_stricter (Date_parse : string -> Date)
        (now thirtyDaysAgo : Z) (filteredData : list Event.t) :
  riskClusters Date_parse now thirtyDaysAgo filteredData
  = filter (isRiskCluster Date_parse now)
           (FirstVersion.riskClusters thirtyDaysAgo filteredData).
Proof.
  unfold riskClusters, FirstVersion.riskClusters.
  induction (riskPassClusters thirtyDaysAgo filteredData) as [|c l IH];
    simpl; auto.
  destruct (isRiskCluster Date_parse now c) eqn:R.
  - assert (F : FirstVersion.isRiskCluster c = true).
    { unfold isRiskCluster in R. unfold FirstVersion.isRiskCluster.
      apply andb_true_iff in R. destruct R as [R _].
      apply Nat.leb_le in R. apply Nat.leb_le. lia. }
    rewrite F. simpl. rewrite R, IH. reflexivity.
  - destruct (FirstVersion.isRiskCluster c); simpl; rewrite ?R; exact IH.
Qed.

(** ** The content keys of the loaded events *)

(** X23.  No two loaded events have the same content key: once loaded,
    events differ in their normalized title, in the day of their date or
    in a coordinate rounded to four decimals. *)
Theorem loaded_content_keys_distinct (Date_parse : string -> Date) (now : Z)
        (pastData mainData : list Raw.t) :
  NoDup (map (fun e => contentKey (Event.raw e))
             (loadDisasterData Date_parse now pastData mainData)).
Proof.
  unfold loadDisasterData.
  eapply Permutation_NoDup;
    [apply Permutation_map; apply sortByDate_Permutation|].
  unfold preprocess. rewrite filter_map_comm, map_map. simpl.
  apply filter_keeps_distinct_keys.
  unfold deduplicate. rewrite contentPass_loop.
  apply contentLoop_NoDup_keys.
Qed.

(** ** The default dates and the time zone *)

Lemma fold_max_ge (l : list Z) (a x : Z) :
  (x <= a)%Z \/ In x l -> (x <= fold_left Z.max l a)%Z.
Proof.
  revert a. induction l as [|y l IH]; simpl; intros a H.
  - destruct H as [H|[]]. exact H.
  - apply IH. destruct H as [H|[H|H]]; auto; left; lia.
Qed.

Lemma fold_min_le (l : list Z) (a x : Z) :
  (a <= x)%Z \/ In x l -> (fold_left Z.min l a <= x)%Z.
Proof.
  revert a. induction l as [|y l IH]; simpl; intros a H.
  - destruct H as [H|[]]. exact H.
  - apply IH. destruct H as [H|[H|H]]; auto; left; lia.
Qed.

Lemma fold_max_In (l : list Z) (a : Z) :
  fold_left Z.max l a = a \/ In (fold_left Z.max l a) l.
Proof.
  revert a. induction l as [|y l IH]; simpl; intros a; auto.
  destruct (IH (Z.max a y)) as [E|I]; auto.
  rewrite E. destruct (Z.max_spec a y) as [[_ ->]|[_ ->]]; auto.
Qed.

Lemma date_bounds (first : Event.t) (rest : list Event.t) (e : Event.t) :
  In e (first :: rest) ->
  (minDate first rest <= Event.event_date e <= maxDate first rest)%Z.
Proof.
  intros H. unfold minDate, maxDate.
  split; [apply fold_min_le|apply fold_max_ge];
    (destruct H as [->|H]; [left; lia|right; apply in_map; exact H]).
Qed.

Lemma midnight_le (t : Z) : (midnight t <= t)%Z.
Proof.
  unfold midnight, msPerDay.
  pose proof (Z.mod_pos_bound t 86400000). lia.
Qed.

Lemma endOfLocalDay_midnight (offset t : Z) :
  (- msPerDay < offset < msPerDay)%Z ->
  endOfLocalDay offset (Some (midnight t)) = Some (defaultCut offset t).
Proof.
  unfold endOfLocalDay, defaultCut, midnight, msPerDay. simpl. intros H.
  f_equal.
  assert (M : (t - t mod 86400000 = (t / 86400000) * 86400000)%Z).
  { pose proof (Z.div_mod t 86400000). lia. }
  rewrite M.
  rewrite (Z.add_comm (t / 86400000 * 86400000)), Z_mod_plus_full.
  destruct (Z.leb_spec 0 offset).
  - rewrite Z.mod_small by lia. lia.
  - replace offset with (offset + 86400000 + (-1) * 86400000)%Z at 2 by lia.
    rewrite Z_mod_plus_full, Z.mod_small by lia. lia.
Qed.

Lemma filter_all (keep : Event.t -> bool) (l : list Event.t) :
  (forall e, In e l -> keep e = true) -> filter keep l = l.
Proof.
  induction l as [|x l IH]; simpl; intros H; auto.
  rewrite (H x) by auto. f_equal. apply IH. auto.
Qed.

(** X24.  The end date that [populateFilters] sets hides events of the
    last day outside UTC.  The date inputs hold the UTC days of the first
    and of the last event, and the end date is read as the last
    millisecond of that day in local time.  Where the local time is ahead
    of UTC by [offset], the events of the last [offset] of the last UTC
    day are filtered out; where it is behind, all events of the last day
    later than [- offset] after its UTC midnight are.  Only at offset [0]
    is the whole last day shown.  The start date hides nothing. *)
Theorem default_end_date_cuts_the_last_day (Date_parse : string -> Date)
        (isoDay : Z -> string) (daysAgo : float -> Date) (offset : Z)
        (first : Event.t) (rest : list Event.t)
        (Hzone : (- msPerDay < offset < msPerDay)%Z)
        (HstartSet : JsString.nonEmpty (isoDay (minDate first rest)) = true)
        (HendSet : JsString.nonEmpty (isoDay (maxDate first rest)) = true)
        (Hstart : Date_parse (isoDay (minDate first rest))
                  = Some (midnight (minDate first rest)))
        (Hend : Date_parse (isoDay (maxDate first rest))
                = Some (midnight (maxDate first rest))) :
  let events := first :: rest in
  let controls := populateFilters isoDay events resetControls in
  let cut := defaultCut offset (maxDate first rest) in
  currentFilters Date_parse daysAgo (endOfLocalDay offset) controls None events
  = Some (filter (fun e => (Event.event_date e <=? cut)%Z) events)
  /\ (exists last, In last events
                   /\ Event.event_date last = maxDate first rest)
  /\ (forall e, In e events ->
                (Event.event_date e <= maxDate first rest)%Z)
  /\ (offset = 0%Z ->
      filter (fun e => (Event.event_date e <=? cut)%Z) events = events).
Proof.
  intros events controls cut.
  assert (B : forall e, In e events ->
                        (minDate first rest <= Event.event_date e
                         <= maxDate first rest)%Z)
    by (intros e; apply date_bounds).
  split; [|split; [|split]].
  - unfold currentFilters, controls, populateFilters, events.
    cbn [startDate endDate categoryFilter sourceFilter searchValue
         resetControls JsString.nonEmpty JsString.toLowerCase].
    rewrite HstartSet, HendSet, Hstart, Hend.
    rewrite (endOfLocalDay_midnight _ _ Hzone).
    rewrite (filter_all (notBefore (Some (midnight (minDate first rest)))));
      [reflexivity|].
    intros e H. unfold notBefore. apply Z.leb_le.
    pose proof (midnight_le (minDate first rest)).
    specialize (B e H). lia.
  - unfold maxDate.
    destruct (fold_max_In (map Event.event_date rest) (Event.event_date first))
      as [E|I].
    + exists first. split; [left; reflexivity|]. symmetry. exact E.
    + apply in_map_iff in I. destruct I as (e & E & I).
      exists e. split; [right; exact I|exact E].
  - intros e H. apply B. exact H.
  - intros ->. apply filter_all. intros e H. apply Z.leb_le.
    unfold cut, defaultCut, midnight, msPerDay. simpl.
    specialize (B e H).
    pose proof (Z.mod_pos_bound (maxDate first rest) 86400000). lia.
Qed.

Lemma default_end_date_cuts_the_last_day_witness :
  let first := Scenario.loaded Scenario.fire in
  let rest := map Scenario.loaded
                  [Scenario.quake; Scenario.slide; Scenario.flood] in
  let offset := (-18000000)%Z in
  let events := first :: rest in
  let controls := populateFilters IsoDay.isoDay events resetControls in
  let cut := defaultCut offset (maxDate first rest) in
  (currentFilters IsoHost.Date_parse Scenario.daysAgo (endOfLocalDay offset)
                  controls None events
   = Some (filter (fun e => (Event.event_date e <=? cut)%Z) events)
   /\ (exists last, In last events
                    /\ Event.event_date last = maxDate first rest)
   /\ (forall e, In e events ->
                 (Event.event_date e <= maxDate first rest)%Z)
   /\ (offset = 0%Z ->
       filter (fun e => (Event.event_date e <=? cut)%Z) events = events))
  /\ filter (fun e => (Event.event_date e <=? cut)%Z) events
     = map Scenario.loaded [Scenario.fire; Scenario.quake; Scenario.slide].
Proof.
  split; [|vm_compute; reflexivity].
  apply (default_end_date_cuts_the_last_day IsoHost.Date_parse IsoDay.isoDay
           Scenario.daysAgo (-18000000)%Z (Scenario.loaded Scenario.fire)
           (map Scenario.loaded
                [Scenario.quake; Scenario.slide; Scenario.flood]));
    vm_compute; auto; split; reflexivity.
Defined.

(** ** The update file *)

Lemma replaceFirst_absent (p q s : string) :
  JsString.includes p s = false -> JsString.replaceFirst p q s = s.
Proof.
  induction s as [|c s IH]; simpl; intros H.
  - apply orb_false_iff in H. destruct H as [P _].
    rewrite P. reflexivity.
  - apply orb_false_iff in H. destruct H as [P I].
    rewrite P. f_equal. apply IH. exact I.
Qed.

Lemma nonEmpty_trim (s : string) :
  JsString.nonEmpty (JsString.trim s) = negb (blank s).
Proof.
  destruct (blank s) eqn:B.
  - apply blank_trim in B. rewrite B. reflexivity.
  - destruct (JsString.trim s) eqn:T; [|reflexivity].
    apply blank_trim in T. congruence.
Qed.

(** X25.  The time the loader keeps from the update file is the text of
    the file without its label and without the white space around it,
    and the text itself when the label is not there.  When nothing but
    white space follows the label, the dashboard shows what it shows
    without an update file. *)
Theorem update_file_is_read_without_its_label (Date_parse : string -> Date)
        (rest : string) (disasterEvents : list Event.t) :
  readLastUpdate ("Last updated: " ++ rest) = JsString.trim rest
  /\ (forall updateText,
         JsString.includes "Last updated: " updateText = false ->
         readLastUpdate updateText = JsString.trim updateText)
  /\ updateLastUpdateDisplay Date_parse
       (Text (readLastUpdate ("Last updated: " ++ rest))) disasterEvents
     = if blank rest
       then updateLastUpdateDisplay Date_parse Null disasterEvents
       else UpdatedAt (JsString.trim rest).
Proof.
  assert (R : readLastUpdate ("Last updated: " ++ rest) = JsString.trim rest).
  { unfold readLastUpdate. f_equal. simpl. destruct rest; reflexivity. }
  split; [exact R|]. split.
  - intros updateText H. unfold readLastUpdate.
    rewrite replaceFirst_absent by exact H. reflexivity.
  - rewrite R. unfold updateLastUpdateDisplay.
    rewrite nonEmpty_trim. destruct (blank rest); reflexivity.
Qed.

(** ** Where the loaded events come from *)

Lemma identityStep_from (Date_parse : string -> Date) (m : EventMap)
      (event v : Raw.t) :
  In v (Map_values (identityStep Date_parse m event)) ->
  v = event \/ In v (Map_values m).
Proof.
  unfold Map_values, identityStep. intros H.
  assert (S : forall k, In v (map snd (Map_set k event m)) ->
                        v = event \/ In v (map snd m)).
  { intros k I. apply in_map_iff in I. destruct I as ([k' v'] & E & I).
    simpl in E. subst v'. apply In_Map_set in I. destruct I as [I|I].
    - inversion I. auto.
    - right. apply in_map_iff. exists (k', v). auto. }
  destruct (usableId (Raw.event_id event)) as [id|]; auto.
  destruct (Map_get id m) as [existing|]; [|eapply S; eauto].
  destruct (Date_gt _ _); [eapply S; eauto|auto].
Qed.

Lemma identityPass_from (Date_parse : string -> Date)
      (allEvents : list Raw.t) (v : Raw.t) :
  In v (Map_values (identityPass Date_parse allEvents)) -> In v allEvents.
Proof.
  unfold identityPass.
  assert (G : forall l m,
             In v (Map_values (fold_left (identityStep Date_parse) l m)) ->
             In v l \/ In v (Map_values m)).
  { induction l as [|e l IH]; simpl; intros m H; auto.
    apply IH in H. destruct H as [H|H]; auto.
    apply identityStep_from in H. destruct H as [->|H]; auto. }
  intros H. apply G in H. destruct H as [H|[]]. exact H.
Qed.

(** X26.  The loader invents nothing: every loaded event is the sanitized
    form of a record of one of the two files, and it carries that record
    unchanged. *)
Theorem loaded_events_come_from_the_files (Date_parse : string -> Date)
        (now : Z) (pastData mainData : list Raw.t) (event : Event.t)
        (Hloaded : In event
                      (loadDisasterData Date_parse now pastData mainData)) :
  (In (Event.raw event) pastData \/ In (Event.raw event) mainData)
  /\ event = sanitize Date_parse now (Event.raw event).
Proof.
  unfold loadDisasterData in Hloaded.
  apply (proj1 (In_sortByDate _ _)) in Hloaded.
  unfold preprocess in Hloaded. apply filter_In in Hloaded.
  destruct Hloaded as [H _]. apply in_map_iff in H.
  destruct H as (r & <- & H). simpl. split; [|reflexivity].
  unfold deduplicate in H. rewrite contentPass_loop in H.
  apply contentLoop_In in H. destruct H as [H _].
  apply identityPass_from in H. apply in_app_or in H. exact H.
Qed.

Lemma loaded_events_come_from_the_files_witness :
  (In (Event.raw (Scenario.loaded Scenario.quake)) []
   \/ In (Event.raw (Scenario.loaded Scenario.quake)) Scenario.feed)
  /\ Scenario.loaded Scenario.quake
     = sanitize IsoHost.Date_parse Sample.now
                (Event.raw (Scenario.loaded Scenario.quake)).
Proof.
  apply (loaded_events_come_from_the_files IsoHost.Date_parse Sample.now
           [] Scenario.feed (Scenario.loaded Scenario.quake)).
  vm_compute. right. left. reflexivity.
Defined.

(** ** Dates the host cannot read *)

(** X27.  The risk filter reads the date text of an event again, as the
    feed gave it, and not the date the loader set.  An event whose date
    text the host cannot read is therefore never an event of the last
    seven days, also when the loader repaired the text and dated the
    event within the week, or dated it at the time of the load. *)
Theorem unread_date_text_never_counts_for_the_week
        (Date_parse : string -> Date) (now : Z) (event : Raw.t) (s : string)
        (Hdate : Raw.event_date_utc event = Text s)
        (Hset : JsString.nonEmpty s = true)
        (Hunread : Date_parse s = None) :
  let loaded := sanitize Date_parse now event in
  inRecentWeek Date_parse now loaded = false
  /\ Event.event_date loaded
     = match Date_parse (JsString.replaceFirst "+00:00Z" "Z" s) with
       | Some t => if JsString.includes "+00:00Z" s then t else now
       | None => now
       end.
Proof.
  simpl. split.
  - unfold inRecentWeek, riskEventDate, Event.event_date_utc. simpl.
    rewrite Hdate, Hset, Hunread. reflexivity.
  - unfold parsedDate. rewrite Hdate. simpl. rewrite Hset. simpl.
    destruct (JsString.includes "+00:00Z" s); simpl.
    + destruct (Date_parse (JsString.replaceFirst "+00:00Z" "Z" s));
        reflexivity.
    + rewrite Hunread.
      destruct (Date_parse (JsString.replaceFirst "+00:00Z" "Z" s));
        reflexivity.
Qed.

Lemma unread_date_text_never_counts_for_the_week_witness :
  let event :=
    Scenario.report "E-6" "Flood in the delta" (Text "Flood")
                    "2025-09-11T06:00:00+00:00Z" "35.25" "128.5" in
  (let loaded := sanitize IsoHost.Date_parse Sample.now event in
   inRecentWeek IsoHost.Date_parse Sample.now loaded = false
   /\ Event.event_date loaded
      = match IsoHost.Date_parse
                (JsString.replaceFirst "+00:00Z" "Z"
                                       "2025-09-11T06:00:00+00:00Z") with
        | Some t =>
            if JsString.includes "+00:00Z" "2025-09-11T06:00:00+00:00Z"
            then t else Sample.now
        | None => Sample.now
        end)
  /\ Event.event_date (sanitize IsoHost.Date_parse Sample.now event)
     = 1757570400000%Z.
Proof.
  split; [|vm_compute; reflexivity].
  apply (unread_date_text_never_counts_for_the_week IsoHost.Date_parse
           Sample.now
           (Scenario.report "E-6" "Flood in the delta" (Text "Flood")
                            "2025-09-11T06:00:00+00:00Z" "35.25" "128.5")
           "2025-09-11T06:00:00+00:00Z");
    reflexivity.
Defined.
